(** * Flight Plan Assistant: a shallow embedding of [Flight_Plan_Assistant.py]

    The program is a small interactive calculator: a fixed aircraft catalog,
    four arithmetic helpers, and two reports that print text.  The helpers
    talk to the reports through _strings_ (the flight time is rendered as
    text and parsed back), so the embedding keeps the strings.

    Numbers.  Python's [int] values are modelled by [Z].  Python's [float]
    values are read in two ways.

    - Module [FlightPlan] reads them as exact rationals ([Q]): arithmetic
      is exact, and rounding, infinities and NaN are outside it.  It
      serves the statements that do not depend on them: the scenarios of
      the specification, whose numbers are computed without rounding, the
      comparisons, and the shape of what is printed.
    - Module [Binary64] reads them as IEEE 754 binary64 numbers, Rocq's
      primitive floats, with the rounding to nearest of the hardware, the
      infinities and NaN, and with the exceptions of [int()], [float()] and
      [/] as [None].  It serves the statements over every distance, speed
      and headwind, where a quotient can overflow or be rounded.

    The catalog stores [cruise_speed], [max_fuel] and [seats] as [int] and
    [fuel_burn] as [float]; the records below keep those types, because the
    difference shows when a value is printed.

    Output.  A report returns the list of the strings handed to [print], one
    element per call, or [None] where Python would raise an exception that
    nothing catches.  Prompts written by [input] are not part of the list.
    Module [Console] runs the reports and the menu loop [main_menu] on the
    lines typed at the prompts, and keeps what is left unread. *)

From Stdlib Require Import ZArith QArith Qround Qabs Lia Lqa Bool Floats.
From Stdlib Require Import List String Ascii DecimalString DecimalZ DecimalPos.
Import ListNotations.

Local Open Scope string_scope.
Local Open Scope Z_scope.

(** ** Python string operations used by the program *)

Module PyStr.

(** The newline character, for literals such as ["\nSelected: ..."]. *)
Definition nl : string := String (ascii_of_nat 10) EmptyString.

(** [needle in hay]. *)
Fixpoint contains (needle hay : string) : bool :=
  String.prefix needle hay ||
  match hay with
  | EmptyString => false
  | String _ hay' => contains needle hay'
  end.

(** [c in hay] for one character, used to reason about [contains]. *)
Fixpoint has_char (c : ascii) (s : string) : bool :=
  match s with
  | EmptyString => false
  | String a s' => Ascii.eqb a c || has_char c s'
  end.

(** ASCII white space as [str.split()] and [str.isspace()] see it:
    TAB, LF, VT, FF, CR, FS, GS, RS, US and the blank. *)
Definition is_space (c : ascii) : bool :=
  let n := nat_of_ascii c in
  ((9 <=? n)%nat && (n <=? 13)%nat) ||
  ((28 <=? n)%nat && (n <=? 32)%nat).

Definition is_empty (s : string) : bool :=
  match s with EmptyString => true | _ => false end.

(** [s.split()]: cut at runs of white space, no empty pieces.  [cur] is
    the piece being read. *)
Fixpoint split_from (cur s : string) : list string :=
  match s with
  | EmptyString => if is_empty cur then [] else [cur]
  | String c s' =>
      if is_space c
      then (if is_empty cur then split_from EmptyString s'
            else cur :: split_from EmptyString s')
      else split_from (cur ++ String c EmptyString) s'
  end.

Definition split (s : string) : list string := split_from EmptyString s.

(** A character of ASCII: a byte below 128. *)
Definition is_ascii (c : ascii) : bool := (nat_of_ascii c <? 128)%nat.

(** [s.upper()] for a text of ASCII characters.  Outside ASCII
    [str.upper()] follows the Unicode case mapping, which sends some
    characters to ASCII letters (U+017F to [S]); this definition leaves
    every byte from 128 on as it is, so it is [str.upper()] on ASCII text
    only. *)
Definition upper_char (c : ascii) : ascii :=
  let n := nat_of_ascii c in
  if ((97 <=? n)%nat && (n <=? 122)%nat)%bool
  then ascii_of_nat (n - 32) else c.

Fixpoint upper (s : string) : string :=
  match s with
  | EmptyString => EmptyString
  | String c s' => String (upper_char c) (upper s')
  end.

(** Every character of [s] satisfies [p]. *)
Fixpoint all_chars (p : ascii -> bool) (s : string) : bool :=
  match s with
  | EmptyString => true
  | String a s' => p a && all_chars p s'
  end.

Definition is_digit (c : ascii) : bool :=
  let n := nat_of_ascii c in (48 <=? n)%nat && (n <=? 57)%nat.

(** The characters of a printed int: digits and the minus sign. *)
Definition is_int_char (c : ascii) : bool :=
  is_digit c || Ascii.eqb c "-".

(** ["=" * n]. *)
Fixpoint repeat (s : string) (n : nat) : string :=
  match n with
  | O => EmptyString
  | S n' => s ++ repeat s n'
  end.

(** [f"{s:<w}"] (the default for a string with a width) and [f"{s:>w}"]. *)
Definition ljust (w : nat) (s : string) : string :=
  s ++ repeat " " (w - String.length s).

Definition rjust (w : nat) (s : string) : string :=
  repeat " " (w - String.length s) ++ s.

(** [s[:n]]. *)
Definition take (n : nat) (s : string) : string := String.substring 0 n s.

End PyStr.

(** ** Python numbers used by the program *)

Module PyNum.

(** [int(x)] for a float [x]: truncation towards zero. *)
Definition int_of_float (x : Q) : Z := Z.quot (Qnum x) (Zpos (Qden x)).

(** [str(n)] and [f"{n}"] for an int [n]. *)
Definition str_int (n : Z) : string := NilZero.string_of_int (Z.to_int n).

(** [float(s)] on the integer literals, an optional [-] and decimal
    digits, which is all the program hands to it; [None] stands for
    [ValueError].  (Python accepts more spellings of a float; they cannot
    reach this call.) *)
Definition float_of_str (s : string) : option Q :=
  option_map (fun d => inject_Z (Z.of_int d)) (NilZero.int_of_string s).

(** Rounding to the nearest integer, ties to even, as the [f] format
    rounds the exact value. *)
Definition round_half_even (x : Q) : Z :=
  let f := Qfloor x in
  match (x - inject_Z f ?= 1 # 2)%Q with
  | Lt => f
  | Gt => f + 1
  | Eq => if Z.even f then f else f + 1
  end.

(** The decimal digits of [n], left-padded with zeros to [w] digits. *)
Definition zero_pad (w : nat) (n : Z) : string :=
  let s := str_int n in
  PyStr.repeat "0" (w - String.length s) ++ s.

(** [f"{x:.df}"]: sign, integer part, and [d] decimals. *)
Definition format_f (d : nat) (x : Q) : string :=
  let scale := 10 ^ Z.of_nat d in
  let n := round_half_even (Qabs x * inject_Z scale) in
  let sign := if Qle_bool 0 x then "" else "-" in
  let frac := match d with
              | O => ""
              | _ => "." ++ zero_pad d (n mod scale)
              end in
  sign ++ str_int (n / scale) ++ frac.

End PyNum.

Import PyStr PyNum.

(** ** The program *)

Module FlightPlan.

Local Open Scope Q_scope.

(** A small error monad: [None] is an exception that nothing catches. *)
Definition bind {A B} (m : option A) (k : A -> option B) : option B :=
  match m with
  | Some a => k a
  | None => None
  end.

Notation "x <- m ;; k" := (bind m (fun x => k))
  (at level 61, m at next level, right associativity).

(** One value of the [aircraft_db] dictionary. *)
Record aircraft := {
  name : string;
  cruise_speed : Z;   (* knots *)
  fuel_burn : Q;      (* gallons per hour *)
  max_fuel : Z;       (* gallons *)
  seats : Z
}.

Definition C172 : aircraft :=
  {| name := "Cessna 172"; cruise_speed := 120; fuel_burn := 8.5;
     max_fuel := 56; seats := 4 |}.

Definition PA28 : aircraft :=
  {| name := "Piper Cherokee"; cruise_speed := 130; fuel_burn := 9.0;
     max_fuel := 50; seats := 4 |}.

Definition SR22 : aircraft :=
  {| name := "Cirrus SR22"; cruise_speed := 185; fuel_burn := 15.0;
     max_fuel := 92; seats := 5 |}.

(** The dictionary of lines 7-29, in insertion order, which is the order of
    [.items()]. *)
Definition aircraft_db : list (string * aircraft) :=
  [("C172", C172); ("PA28", PA28); ("SR22", SR22)].

(** [db[key]], with [None] for a missing key ([key not in db]). *)
Fixpoint lookup (key : string) (db : list (string * aircraft))
  : option aircraft :=
  match db with
  | [] => None
  | (code, plane) :: db' =>
      if String.eqb key code then Some plane else lookup key db'
  end.

(** The text returned on line 35. *)
Definition headwind_error : string := "Error: Headwind too strong!".

(** Lines 31-41.  Both branches return text. *)
Definition calculate_flight_time (distance speed headwind : Q) : string :=
  let actual_speed := speed - headwind in
  if Qle_bool actual_speed 0 then headwind_error
  else
    let time_hours := distance / actual_speed in
    let hours := int_of_float time_hours in
    let minutes := int_of_float ((time_hours - inject_Z hours) * 60) in
    (str_int hours ++ " hours " ++ str_int minutes ++ " minutes")%string.

(** The two ints that [calculate_flight_time] prints when it succeeds:
    the values of its variables [hours] and [minutes]. *)
Definition whole_hours (distance speed headwind : Q) : Z :=
  int_of_float (distance / (speed - headwind)).

Definition whole_minutes (distance speed headwind : Q) : Z :=
  int_of_float
    ((distance / (speed - headwind)
      - inject_Z (whole_hours distance speed headwind)) * 60).

(** The default of the [reserve] argument. *)
Definition default_reserve : Q := 1.0.

(** Lines 43-46. *)
Definition calculate_fuel_needed (time_hours fuel_burn reserve : Q) : Q :=
  let total_fuel := (time_hours + reserve) * fuel_burn in
  total_fuel.

(** Lines 48-55.  [max_fuel] is printed as it is, an int. *)
Definition check_fuel_sufficiency (a : aircraft) (fuel_needed : Q)
  : string :=
  let max_fuel := max_fuel a in
  if Qle_bool fuel_needed (inject_Z max_fuel)
  then ("Fuel OK: " ++ format_f 1 fuel_needed ++ " gal needed, "
        ++ str_int max_fuel ++ " gal capacity")%string
  else ("Fuel warning: " ++ format_f 1 fuel_needed
        ++ " gal needed, but only " ++ str_int max_fuel
        ++ " gal capacity")%string.

(** The default of the [fuel_price] argument. *)
Definition default_fuel_price : Q := 6.50.

(** Lines 57-59. *)
Definition calculate_cost (fuel_needed fuel_price : Q) : Q :=
  fuel_needed * fuel_price.

(** *** [display_flight_plan] *)

(** What the "Calculations" block of [display_flight_plan] leaves in its
    four variables. *)
Record plan := {
  flight_time : string;
  fuel_needed : Q;
  fuel_check : string;
  cost : Q
}.

(** Lines 88-101. *)
Definition plan_calculations (a : aircraft)
    (distance headwind fuel_price : Q) : option plan :=
  let flight_time :=
    calculate_flight_time distance (inject_Z (cruise_speed a)) headwind in
  if negb (contains "Error" flight_time) then
    let time_parts := split flight_time in
    part0 <- nth_error time_parts 0 ;;
    hours <- float_of_str part0 ;;
    let fuel_needed :=
      calculate_fuel_needed hours (fuel_burn a) default_reserve in
    let fuel_check := check_fuel_sufficiency a fuel_needed in
    let cost := calculate_cost fuel_needed fuel_price in
    Some {| flight_time := flight_time; fuel_needed := fuel_needed;
            fuel_check := fuel_check; cost := cost |}
  else
    Some {| flight_time := flight_time; fuel_needed := 0;
            fuel_check := "N/A"; cost := 0 |}.

(** The remark printed by the last [if]/[elif]/[else] of the report,
    lines 114-120. *)
Definition wind_remark (headwind : Q) : string :=
  if negb (Qle_bool headwind 20)
  then nl ++ "Strong headwind - consider delaying if possible"
  else if negb (Qle_bool (-10) headwind)
  then nl ++ "Favorable tailwind - good flying conditions!"
  else nl ++ "Normal wind conditions".

(** What the "Calculations" block of one turn of the loop of
    [aircraft_comparison] leaves in its variables. *)
Record figures := {
  time_parts : list string;
  fuel : Q;
  trip_cost : Q
}.

(** Lines 137-142.  [Some None]: the entry is skipped. *)
Definition comparison_figures (a : aircraft) (distance : Q)
  : option (option figures) :=
  let time :=
    calculate_flight_time distance (inject_Z (cruise_speed a)) 0 in
  if negb (contains "Error" time) then
    let time_parts := split time in
    part0 <- nth_error time_parts 0 ;;
    hours <- float_of_str part0 ;;
    let fuel :=
      calculate_fuel_needed hours (fuel_burn a) default_reserve in
    let cost := calculate_cost fuel default_fuel_price in
    Some (Some {| time_parts := time_parts; fuel := fuel;
                  trip_cost := cost |})
  else Some None.

(** The table line of one entry, line 144. *)
Definition comparison_line (a : aircraft) (f : figures) : option string :=
  part0 <- nth_error (time_parts f) 0 ;;
  part1 <- nth_error (time_parts f) 1 ;;
  Some (ljust 12 (take 12 (name a)) ++ " | "
        ++ rjust 2 part0 ++ "h" ++ rjust 2 part1 ++ " | "
        ++ rjust 5 (format_f 1 (fuel f)) ++ " | $"
        ++ rjust 5 (format_f 1 (trip_cost f)))%string.

(** The table line of an entry whose flight time is computed, in closed
    form: what [comparison_figures] and [comparison_line] give together.
    The second piece of the text, the word [hours], is what the line
    shows after the [h]. *)
Definition table_line (a : aircraft) (distance : Q) : string :=
  let hours := whole_hours distance (inject_Z (cruise_speed a)) 0 in
  let fuel :=
    calculate_fuel_needed (inject_Z hours) (fuel_burn a) default_reserve in
  let cost := calculate_cost fuel default_fuel_price in
  (ljust 12 (take 12 (name a)) ++ " | "
   ++ rjust 2 (str_int hours) ++ "h" ++ rjust 2 "hours" ++ " | "
   ++ rjust 5 (format_f 1 fuel) ++ " | $"
   ++ rjust 5 (format_f 1 cost))%string.

(** The [for] loop of [aircraft_comparison], lines 136-144: the lines it
    prints. *)
Fixpoint comparison_rows (db : list (string * aircraft)) (distance : Q)
  : option (list string) :=
  match db with
  | [] => Some []
  | (_, a) :: db' =>
      entry <- comparison_figures a distance ;;
      match entry with
      | Some f =>
          line <- comparison_line a f ;;
          rows <- comparison_rows db' distance ;;
          Some (line :: rows)
      | None => comparison_rows db' distance
      end
  end.

Section Reports.

(** [str(x)] of a float, which [f"{distance}"] uses.  Its digits are the
    shortest that read back as the same double, so they are not a
    function of the rational value alone; the reports take it as given. *)
Variable float_repr : Q -> string.

(** The lines of the catalog printed before the prompt. *)
Definition catalog_listing : list string :=
  map (fun '(code, plane) => ("  " ++ code ++ ": " ++ name plane)%string)
      aircraft_db.

(** The "Display results" block, lines 103-120. *)
Definition plan_summary (a : aircraft) (distance headwind : Q)
    (p : plan) : list string :=
  [ (nl ++ repeat "=" 40)%string;
    "FLIGHT PLAN SUMMARY"%string;
    repeat "=" 40;
    ("Aircraft: " ++ name a)%string;
    ("Distance: " ++ float_repr distance ++ " nautical miles")%string;
    ("Flight Time: " ++ flight_time p)%string;
    ("Fuel Required: " ++ format_f 1 (fuel_needed p) ++ " gallons")%string;
    ("Fuel Check: " ++ fuel_check p)%string;
    ("Estimated Cost: $" ++ format_f 2 (cost p))%string;
    wind_remark headwind ].

(** Lines 61-120.  [choice] is the text typed at the first prompt; [distance],
    [headwind] and [fuel_price] are the results of the three
    [float(input(...))], [None] where the text is not a number. *)
Definition display_flight_plan (choice : string)
    (distance headwind fuel_price : option Q) : option (list string) :=
  let banner :=
    ([("=== Flight Plan Assistant ===" ++ nl)%string;
      "Available Aircraft:"%string] ++ catalog_listing)%list in
  let choice := upper choice in
  match lookup choice aircraft_db with
  | None => Some (banner ++ ["Sorry, aircraft not found!"%string])%list
  | Some a =>
      let selected :=
        (banner ++ [(nl ++ "Selected: " ++ name a)%string])%list in
      match distance, headwind, fuel_price with
      | Some distance, Some headwind, Some fuel_price =>
          p <- plan_calculations a distance headwind fuel_price ;;
          Some (selected ++ plan_summary a distance headwind p)%list
      | _, _, _ =>
          Some (selected ++ ["Please enter valid numbers!"%string])%list
      end
  end.

(** Lines 122-144.  [distance] is the result of [float(input(...))], [None]
    where the text is not a number. *)
Definition aircraft_comparison (distance : option Q)
  : option (list string) :=
  let title := (nl ++ "=== Aircraft Comparison ===")%string in
  match distance with
  | None => Some [title; "Please enter a valid number!"%string]
  | Some distance =>
      rows <- comparison_rows aircraft_db distance ;;
      Some ([title;
             (nl ++ "Comparing aircraft for " ++ float_repr distance
              ++ " NM trip:" ++ nl)%string;
             "Aircraft        | Time  | Fuel  | Cost  "%string;
             repeat "-" 40] ++ rows)%list
  end.

End Reports.

End FlightPlan.

Import FlightPlan.

(** ** The program at the terminal *)

(** The reports and the menu as they run: they read the lines typed at the
    prompts and print.  A line is the text [input] returns, without its
    line end; at the end of the input [input] raises [EOFError]. *)

Module Console.

Local Open Scope Q_scope.

(** What a piece of the program leaves behind: its value, or [None] if it
    raised an exception; the lines not read yet; the lines it printed. *)
Record reply (A : Type) := Reply {
  value : option A;
  rest : list string;
  printed : list string
}.

Arguments Reply {A} _ _ _.
Arguments value {A} _.
Arguments rest {A} _.
Arguments printed {A} _.

(** A piece of the program, run on the lines still to be read. *)
Definition io (A : Type) : Type := list string -> reply A.

Definition ret {A} (a : A) : io A := fun stdin => Reply (Some a) stdin [].

(** A value that may be an exception: [None] raises. *)
Definition lift {A} (o : option A) : io A := fun stdin => Reply o stdin [].

(** Sequencing.  What was read and printed stays so when an exception
    ends the run. *)
Definition bind {A B} (m : io A) (k : A -> io B) : io B :=
  fun stdin =>
    let r := m stdin in
    match value r with
    | None => Reply None (rest r) (printed r)
    | Some a =>
        let r' := k a (rest r) in
        Reply (value r') (rest r') (printed r ++ printed r')%list
    end.

Declare Scope io_scope.
Delimit Scope io_scope with io.
Bind Scope io_scope with io.

Notation "x <- m ;; k" := (bind m (fun x => k))
  (at level 61, m at next level, right associativity) : io_scope.
Notation "m ;; k" := (bind m (fun _ => k))
  (at level 61, right associativity) : io_scope.

Local Open Scope io_scope.

(** [print(s)]. *)
Definition print (s : string) : io unit :=
  fun stdin => Reply (Some tt) stdin [s].

(** [input(prompt)]. *)
Definition input : io string :=
  fun stdin =>
    match stdin with
    | [] => Reply None [] []
    | line :: stdin' => Reply (Some line) stdin' []
    end.

(** [try: m] with a bare [except: handler], which catches everything. *)
Definition catch {A} (m handler : io A) : io A :=
  fun stdin =>
    let r := m stdin in
    match value r with
    | Some _ => r
    | None =>
        let r' := handler (rest r) in
        Reply (value r') (rest r') (printed r ++ printed r')%list
    end.

(** One [print] per element. *)
Fixpoint print_all (lines : list string) : io unit :=
  match lines with
  | [] => ret tt
  | line :: lines' => print line ;; print_all lines'
  end.

(** The farewell of the menu; its last two characters, an airplane and a
    variation selector, are given by their six UTF-8 bytes. *)
Definition farewell : string :=
  ("Safe travels! "
   ++ String (ascii_of_nat 226) (String (ascii_of_nat 156)
        (String (ascii_of_nat 136) (String (ascii_of_nat 239)
           (String (ascii_of_nat 184) (String (ascii_of_nat 143) ""))))))%string.

(** The lines the menu prints for one entry of the catalog, lines 166-170. *)
Definition aircraft_info (float_repr : Q -> string) (plane : aircraft)
  : list string :=
  [ (nl ++ name plane ++ ":")%string;
    ("  Cruise: " ++ str_int (cruise_speed plane) ++ " knots")%string;
    ("  Fuel burn: " ++ float_repr (fuel_burn plane) ++ " gal/hour")%string;
    ("  Max fuel: " ++ str_int (max_fuel plane) ++ " gallons")%string;
    ("  Seats: " ++ str_int (seats plane))%string ].

(** A reply with more lines printed before it. *)
Definition prefixed {A} (lines : list string) (r : reply A) : reply A :=
  Reply (value r) (rest r) (lines ++ printed r)%list.

(** A piece of the program reads its lines from the front of the input:
    what it leaves is a tail of what it was given. *)
Definition reads_front {A} (m : io A) : Prop :=
  forall stdin, exists front, stdin = (front ++ rest (m stdin))%list.

(** A piece of the program that, when it returns on [stdin], was given a
    line "4" and has printed the farewell last. *)
Definition exits (m : io unit) (stdin : list string) : Prop :=
  value (m stdin) = Some tt ->
  In "4"%string stdin /\ List.last (printed (m stdin)) ""%string = farewell.

Section Terminal.

(** [str(x)] of a float, as in the reports above. *)
Variable float_repr : Q -> string.

(** [float(s)] of a typed line; [None] is [ValueError].  Python's grammar
    of floats is not spelled out here. *)
Variable parse_float : string -> option Q.

(** [float(input(prompt))]. *)
Definition float_input : io Q :=
  line <- input ;; lift (parse_float line).

(** The [try] block of lines 80-86 with its [except]: the three numbers,
    or [None] after the message when a line is not a number or is
    missing. *)
Definition read_flight_details : io (option (Q * Q * Q)) :=
  catch (distance <- float_input ;;
         headwind <- float_input ;;
         fuel_price <- float_input ;;
         ret (Some (distance, headwind, fuel_price)))
        (print "Please enter valid numbers!"%string ;; ret None).

(** Lines 61-120. *)
Definition display_flight_plan : io unit :=
  print ("=== Flight Plan Assistant ===" ++ nl)%string ;;
  print "Available Aircraft:"%string ;;
  print_all catalog_listing ;;
  choice <- input ;;
  let choice := upper choice in
  match lookup choice aircraft_db with
  | None => print "Sorry, aircraft not found!"%string
  | Some a =>
      print (nl ++ "Selected: " ++ name a)%string ;;
      details <- read_flight_details ;;
      match details with
      | None => ret tt
      | Some (distance, headwind, fuel_price) =>
          p <- lift (plan_calculations a distance headwind fuel_price) ;;
          print_all (plan_summary float_repr a distance headwind p)
      end
  end.

(** The [try] block of lines 126-130 with its [except]. *)
Definition read_trip_distance : io (option Q) :=
  catch (distance <- float_input ;; ret (Some distance))
        (print "Please enter a valid number!"%string ;; ret None).

(** Lines 122-144. *)
Definition aircraft_comparison : io unit :=
  print (nl ++ "=== Aircraft Comparison ===")%string ;;
  entered <- read_trip_distance ;;
  match entered with
  | None => ret tt
  | Some distance =>
      print (nl ++ "Comparing aircraft for " ++ float_repr distance
             ++ " NM trip:" ++ nl)%string ;;
      print "Aircraft        | Time  | Fuel  | Cost  "%string ;;
      print (repeat "-" 40) ;;
      rows <- lift (comparison_rows aircraft_db distance) ;;
      print_all rows
  end.

(** The option list printed at the top of every turn, lines 149-155. *)
Definition menu_lines : list string :=
  [ (nl ++ repeat "=" 30)%string;
    "   FLIGHT PLAN ASSISTANT"%string;
    repeat "=" 30;
    "1. Create Flight Plan"%string;
    "2. Compare Aircraft"%string;
    "3. View Aircraft Info"%string;
    "4. Exit"%string ].

(** The [if]/[elif] chain of lines 159-175; [again] is the rest of the
    loop, which only [break] leaves out. *)
Definition menu_choice (again : io unit) (choice : string) : io unit :=
  if String.eqb choice "1" then display_flight_plan ;; again
  else if String.eqb choice "2" then aircraft_comparison ;; again
  else if String.eqb choice "3" then
    print (nl ++ "Aircraft Information:")%string ;;
    print_all (flat_map (fun e => aircraft_info float_repr (snd e))
                 aircraft_db) ;;
    again
  else if String.eqb choice "4" then print farewell
  else print "Please choose 1-4"%string ;; again.

(** One turn of the [while True] of [main_menu], lines 148-175. *)
Definition menu_turn (again : io unit) : io unit :=
  print_all menu_lines ;;
  choice <- input ;;
  menu_choice again choice.

(** The loop, unrolled [fuel] times. *)
Fixpoint main_menu_loop (fuel : nat) : io unit :=
  match fuel with
  | O => lift None
  | S fuel' => menu_turn (main_menu_loop fuel')
  end.

(** Lines 146-175.  Every turn reads a line or ends the run, so one turn
    more than there are lines is enough. *)
Definition main_menu : io unit :=
  fun stdin => main_menu_loop (S (List.length stdin)) stdin.

End Terminal.

End Console.

(** ** Python floats as binary64 numbers *)

(** The second reading of the program.  A Python [float] is an IEEE 754
    binary64 number, here a primitive float of Rocq; [Prim2SF] gives its
    sign, mantissa and exponent, and the arithmetic rounds to nearest, ties
    to even, as [SpecFloat] spells it out. *)

Module Float64.

Local Open Scope Z_scope.

(** *** Rounding in closed form *)

(** The exponent of the last bit kept, for a number below [2^e]. *)
Definition F64exp (e : Z) : Z := fexp prec emax e.

(** [P / 2^k] rounded to the nearest integer, ties to even. *)
Definition rne_of (P k : Z) : Z :=
  let q := P / 2 ^ k in
  let rem := P mod 2 ^ k in
  q + (if 2 * rem <? 2 ^ k then 0
       else if 2 * rem =? 2 ^ k then (if Z.even q then 0 else 1)
       else 1).

(** The last step of [binary_round_aux]: one more shift if the mantissa
    grew a bit, then zero, a finite number, or an infinity on overflow. *)
Definition finish (s : bool) (m e : Z) : spec_float :=
  let k := F64exp (Zdigits2 m + e) - e in
  let m' := if 0 <? k then m / 2 ^ k else m in
  let e' := if 0 <? k then e + k else e in
  match m' with
  | Z0 => S754_zero s
  | Zpos p => if e' <=? 971 then S754_finite s p e' else S754_infinity s
  | Zneg _ => S754_nan
  end.

(** [binary_round_aux] on an exact [P * 2^E]. *)
Definition round_spec (s : bool) (P E : Z) : spec_float :=
  let k := F64exp (Zdigits2 P + E) - E in
  if 0 <? k then finish s (rne_of P k) (E + k) else finish s P E.

(** *** Conversions *)

(** The integer part of [m * 2^e]. *)
Definition magnitude_trunc (m : positive) (e : Z) : Z := Z.shiftl (Zpos m) e.

(** [int(x)]: truncation towards zero; [None] stands for the
    [OverflowError] on an infinity and the [ValueError] on NaN. *)
Definition SFint (x : spec_float) : option Z :=
  match x with
  | S754_zero _ => Some 0
  | S754_finite s m e => Some (cond_Zopp s (magnitude_trunc m e))
  | _ => None
  end.

Definition int_of_float (x : float) : option Z := SFint (Prim2SF x).

(** The binary64 number nearest to an int, ties to even; an infinity when
    the int is out of range. *)
Definition SF_of_Z (n : Z) : spec_float := binary_normalize prec emax n 0 false.

Definition nearest_float (n : Z) : float := SF2Prim (SF_of_Z n).

(** An int as an operand of float arithmetic, and [float(n)]; [None]
    stands for the [OverflowError] on an int out of range. *)
Definition float_of_int (n : Z) : option float :=
  match SF_of_Z n with
  | S754_infinity _ => None
  | _ => Some (nearest_float n)
  end.

Definition is_negative (d : Decimal.int) : bool :=
  match d with Decimal.Neg _ => true | Decimal.Pos _ => false end.

(** [float(s)] on the integer literals, an optional [-] and decimal
    digits, which is all the program hands to it; [None] stands for
    [ValueError].  A literal out of range reads as an infinity. *)
Definition float_of_str (s : string) : option float :=
  option_map
    (fun d =>
       SF2Prim (binary_normalize prec emax (Z.of_int d) 0 (is_negative d)))
    (NilZero.int_of_string s).

(** [x / y]; [None] stands for [ZeroDivisionError]. *)
Definition truediv (x y : float) : option float :=
  if (y =? 0)%float then None else Some (x / y)%float.

(** The exact value of a finite number, [m * 2^e] with its sign;
    infinities and NaN are given 0. *)
Definition SF2Q (x : spec_float) : Q :=
  match x with
  | S754_finite s m e =>
      if 0 <=? e then inject_Z (cond_Zopp s (Zpos m) * 2 ^ e)
      else cond_Zopp s (Zpos m) # Z.to_pos (2 ^ (- e))
  | _ => 0%Q
  end.

Definition to_Q (x : float) : Q := SF2Q (Prim2SF x).

(** Zero or finite, as opposed to an infinity or NaN. *)
Definition SFfinite (x : spec_float) : bool :=
  match x with
  | S754_zero _ | S754_finite _ _ _ => true
  | _ => false
  end.

(** The value of a finite number counted in units of [2^-1074], the
    smallest positive binary64 number: an integer. *)
Definition SFgrid (x : spec_float) : Z :=
  match x with
  | S754_finite s m e => cond_Zopp s (Zpos m * 2 ^ (e + 1074))
  | _ => 0
  end.

(** [math.isfinite(x)]. *)
Definition isfinite (x : float) : bool :=
  match Prim2SF x with
  | S754_zero _ | S754_finite _ _ _ => true
  | _ => false
  end.

(** [x <= n] for a float and an int, which Python compares exactly. *)
Definition le_int (x : float) (n : Z) : bool :=
  match Prim2SF x with
  | S754_nan => false
  | S754_infinity s => s
  | _ => Qle_bool (to_Q x) (inject_Z n)
  end.

(** [f"{x:.df}"]: the exact value rounded to [d] decimals, with the sign of
    a negative zero, or [inf], [-inf], [nan]. *)
Definition format_float (d : nat) (x : float) : string :=
  match Prim2SF x with
  | S754_nan => "nan"
  | S754_infinity s => if s then "-inf" else "inf"
  | S754_zero s => ((if s then "-" else "") ++ format_f d 0)%string
  | S754_finite _ _ _ => format_f d (to_Q x)
  end.

(** *** Line 39 in closed form *)

(** [t - float(int(t))] for a finite [t = m * 2^e]. *)
Definition frac_of (s : bool) (m : positive) (e : Z) : spec_float :=
  if 0 <=? e then S754_zero false
  else
    let D := Zpos m mod 2 ^ (- e) in
    if D =? 0 then S754_zero false
    else
      let e' := F64exp (Zdigits2 D + e) in
      S754_finite s (Z.to_pos (D * 2 ^ (e - e'))) e'.

(** [60.0]. *)
Definition sixty_m : positive := 8444249301319680.
Definition sixty : spec_float := S754_finite false sixty_m (-47).

End Float64.

(** ** The program on binary64 numbers *)

Module Binary64.

Import Float64.

Local Open Scope string_scope.
Local Open Scope Z_scope.

(** One value of the [aircraft_db] dictionary: [cruise_speed], [max_fuel]
    and [seats] are ints, [fuel_burn] is a float. *)
Record aircraft := {
  name : string;
  cruise_speed : Z;
  fuel_burn : float;
  max_fuel : Z;
  seats : Z
}.

Definition C172 : aircraft :=
  {| name := "Cessna 172"; cruise_speed := 120; fuel_burn := 8.5%float;
     max_fuel := 56; seats := 4 |}.

Definition PA28 : aircraft :=
  {| name := "Piper Cherokee"; cruise_speed := 130; fuel_burn := 9.0%float;
     max_fuel := 50; seats := 4 |}.

Definition SR22 : aircraft :=
  {| name := "Cirrus SR22"; cruise_speed := 185; fuel_burn := 15.0%float;
     max_fuel := 92; seats := 5 |}.

Definition aircraft_db : list (string * aircraft) :=
  [("C172", C172); ("PA28", PA28); ("SR22", SR22)].

(** The text of line 41. *)
Definition duration_text (hours minutes : Z) : string :=
  str_int hours ++ " hours " ++ str_int minutes ++ " minutes".

(** Lines 37-41, once [actual_speed] is a float.  [None] is an exception:
    [int()] of an infinite or undefined time. *)
Definition flight_duration (distance actual_speed : float)
  : option string :=
  time_hours <- truediv distance actual_speed ;;
  hours <- int_of_float time_hours ;;
  hours_f <- float_of_int hours ;;
  minutes <- int_of_float ((time_hours - hours_f) * 60)%float ;;
  Some (duration_text hours minutes).

(** Lines 31-41 on floats.  [display_flight_plan] passes a float headwind,
    so the int speed of the catalog is converted before the subtraction. *)
Definition calculate_flight_time (distance speed headwind : float)
  : option string :=
  let actual_speed := (speed - headwind)%float in
  if (actual_speed <=? 0)%float then Some headwind_error
  else flight_duration distance actual_speed.

(** Lines 31-41 with an int speed and an int headwind, the default 0 of
    [aircraft_comparison]: line 33 and the test of line 34 are on ints, and
    the division of line 37 converts the int. *)
Definition calculate_flight_time_ints (distance : float) (speed headwind : Z)
  : option string :=
  let actual_speed := speed - headwind in
  if actual_speed <=? 0 then Some headwind_error
  else
    actual_speed_f <- float_of_int actual_speed ;;
    flight_duration distance actual_speed_f.

Definition default_reserve : float := 1.0%float.

(** Lines 43-46. *)
Definition calculate_fuel_needed (time_hours fuel_burn reserve : float)
  : float :=
  let total_fuel := ((time_hours + reserve) * fuel_burn)%float in
  total_fuel.

(** Lines 48-55. *)
Definition check_fuel_sufficiency (a : aircraft) (fuel_needed : float)
  : string :=
  let max_fuel := max_fuel a in
  if le_int fuel_needed max_fuel
  then "Fuel OK: " ++ format_float 1 fuel_needed ++ " gal needed, "
       ++ str_int max_fuel ++ " gal capacity"
  else "Fuel warning: " ++ format_float 1 fuel_needed
       ++ " gal needed, but only " ++ str_int max_fuel
       ++ " gal capacity".

Definition default_fuel_price : float := 6.50%float.

(** Lines 57-59. *)
Definition calculate_cost (fuel_needed fuel_price : float) : float :=
  (fuel_needed * fuel_price)%float.

(** What the "Calculations" block of [display_flight_plan] leaves in its
    four variables.  The ints 0 of lines 99 and 101 print as the float 0
    does. *)
Record plan := {
  flight_time : string;
  fuel_needed : float;
  fuel_check : string;
  cost : float
}.

(** Lines 88-101. *)
Definition plan_calculations (a : aircraft)
    (distance headwind fuel_price : float) : option plan :=
  speed <- float_of_int (cruise_speed a) ;;
  flight_time <- calculate_flight_time distance speed headwind ;;
  if negb (contains "Error" flight_time) then
    let time_parts := split flight_time in
    part0 <- nth_error time_parts 0 ;;
    hours <- float_of_str part0 ;;
    let fuel_needed :=
      calculate_fuel_needed hours (fuel_burn a) default_reserve in
    let fuel_check := check_fuel_sufficiency a fuel_needed in
    let cost := calculate_cost fuel_needed fuel_price in
    Some {| flight_time := flight_time; fuel_needed := fuel_needed;
            fuel_check := fuel_check; cost := cost |}
  else
    Some {| flight_time := flight_time; fuel_needed := 0;
            fuel_check := "N/A"; cost := 0 |}.

(** Line 137: the flight time of an entry of the table. *)
Definition time_without_wind (a : aircraft) (distance : float)
  : option string :=
  calculate_flight_time_ints distance (cruise_speed a) 0.

Record figures := {
  time_parts : list string;
  fuel : float;
  trip_cost : float
}.

(** Lines 137-142.  [Some None]: the entry is skipped. *)
Definition comparison_figures (a : aircraft) (distance : float)
  : option (option figures) :=
  time <- time_without_wind a distance ;;
  if negb (contains "Error" time) then
    let time_parts := split time in
    part0 <- nth_error time_parts 0 ;;
    hours <- float_of_str part0 ;;
    let fuel :=
      calculate_fuel_needed hours (fuel_burn a) default_reserve in
    let cost := calculate_cost fuel default_fuel_price in
    Some (Some {| time_parts := time_parts; fuel := fuel;
                  trip_cost := cost |})
  else Some None.

(** The table line of one entry, line 144. *)
Definition comparison_line (a : aircraft) (f : figures) : option string :=
  part0 <- nth_error (time_parts f) 0 ;;
  part1 <- nth_error (time_parts f) 1 ;;
  Some (ljust 12 (take 12 (name a)) ++ " | "
        ++ rjust 2 part0 ++ "h" ++ rjust 2 part1 ++ " | "
        ++ rjust 5 (format_float 1 (fuel f)) ++ " | $"
        ++ rjust 5 (format_float 1 (trip_cost f))).

(** The table line of an entry whose flight time has [hours] whole hours,
    in closed form. *)
Definition table_line (a : aircraft) (hours : Z) : string :=
  let fuel :=
    calculate_fuel_needed (nearest_float hours) (fuel_burn a)
      default_reserve in
  let cost := calculate_cost fuel default_fuel_price in
  ljust 12 (take 12 (name a)) ++ " | "
  ++ rjust 2 (str_int hours) ++ "h" ++ rjust 2 "hours" ++ " | "
  ++ rjust 5 (format_float 1 fuel) ++ " | $"
  ++ rjust 5 (format_float 1 cost).

(** The [for] loop of [aircraft_comparison], lines 136-144: the lines it
    prints, or [None] when a turn raises. *)
Fixpoint comparison_rows (db : list (string * aircraft)) (distance : float)
  : option (list string) :=
  match db with
  | [] => Some []
  | (_, a) :: db' =>
      entry <- comparison_figures a distance ;;
      match entry with
      | Some f =>
          line <- comparison_line a f ;;
          rows <- comparison_rows db' distance ;;
          Some (line :: rows)
      | None => comparison_rows db' distance
      end
  end.

End Binary64.

(** ** The program at the terminal, on binary64 numbers *)

(** The two reports and the menu as [Console] runs them, with the numbers
    of [Binary64]: here a typed line can be [inf] or [nan], and a report
    can end in the exception of [int()]. *)

Module Console64.

Import Float64 Binary64 Console.

Local Open Scope string_scope.
Local Open Scope io_scope.

(** [db[key]], with [None] for a missing key ([key not in db]). *)
Fixpoint lookup (key : string) (db : list (string * aircraft))
  : option aircraft :=
  match db with
  | [] => None
  | (code, plane) :: db' =>
      if String.eqb key code then Some plane else lookup key db'
  end.

(** The remark printed by the last [if]/[elif]/[else] of the report,
    lines 114-120.  Both comparisons are false on NaN. *)
Definition wind_remark (headwind : float) : string :=
  if (20 <? headwind)%float
  then nl ++ "Strong headwind - consider delaying if possible"
  else if (headwind <? -10)%float
  then nl ++ "Favorable tailwind - good flying conditions!"
  else nl ++ "Normal wind conditions".

(** The lines of the catalog printed before the prompt. *)
Definition catalog_listing : list string :=
  map (fun '(code, plane) => "  " ++ code ++ ": " ++ name plane)
      aircraft_db.

(** The loop of lines 136-144 as it runs: a row is printed before the next
    entry is looked at, so the rows of the entries before one that raises
    are on the screen. *)
Fixpoint comparison_loop (db : list (string * aircraft)) (distance : float)
  : io unit :=
  match db with
  | [] => ret tt
  | (_, a) :: db' =>
      entry <- lift (comparison_figures a distance) ;;
      match entry with
      | Some f =>
          line <- lift (comparison_line a f) ;;
          print line ;;
          comparison_loop db' distance
      | None => comparison_loop db' distance
      end
  end.

Section Terminal.

(** [str(x)] of a float, which [f"{distance}"] uses: the shortest digits
    that read back as the same float.  The reports take it as given. *)
Variable float_repr : float -> string.

(** [float(s)] of a typed line; [None] is [ValueError].  Python's grammar
    of floats is not spelled out here; it has [inf] and [nan]. *)
Variable parse_float : string -> option float.

(** [s.upper()], which knows all of Unicode.  The report takes it as
    given; on text of ASCII characters it is [PyStr.upper]. *)
Variable str_upper : string -> string.

(** The "Display results" block, lines 103-120. *)
Definition plan_summary (a : aircraft) (distance headwind : float)
    (p : plan) : list string :=
  [ nl ++ repeat "=" 40;
    "FLIGHT PLAN SUMMARY";
    repeat "=" 40;
    "Aircraft: " ++ name a;
    "Distance: " ++ float_repr distance ++ " nautical miles";
    "Flight Time: " ++ flight_time p;
    "Fuel Required: " ++ format_float 1 (fuel_needed p) ++ " gallons";
    "Fuel Check: " ++ fuel_check p;
    "Estimated Cost: $" ++ format_float 2 (cost p);
    wind_remark headwind ].

(** [float(input(prompt))]. *)
Definition float_input : io float :=
  line <- input ;; lift (parse_float line).

(** The [try] block of lines 80-86 with its [except]. *)
Definition read_flight_details : io (option (float * float * float)) :=
  catch (distance <- float_input ;;
         headwind <- float_input ;;
         fuel_price <- float_input ;;
         ret (Some (distance, headwind, fuel_price)))
        (print "Please enter valid numbers!" ;; ret None).

(** Lines 61-120.  The calculations of lines 88-101 are outside the
    [try]: what they raise ends the report. *)
Definition display_flight_plan : io unit :=
  print ("=== Flight Plan Assistant ===" ++ nl) ;;
  print "Available Aircraft:" ;;
  print_all catalog_listing ;;
  choice <- input ;;
  let choice := str_upper choice in
  match lookup choice aircraft_db with
  | None => print "Sorry, aircraft not found!"
  | Some a =>
      print (nl ++ "Selected: " ++ name a) ;;
      details <- read_flight_details ;;
      match details with
      | None => ret tt
      | Some (distance, headwind, fuel_price) =>
          p <- lift (plan_calculations a distance headwind fuel_price) ;;
          print_all (plan_summary a distance headwind p)
      end
  end.

(** The [try] block of lines 126-130 with its [except]. *)
Definition read_trip_distance : io (option float) :=
  catch (distance <- float_input ;; ret (Some distance))
        (print "Please enter a valid number!" ;; ret None).

(** Lines 122-144. *)
Definition aircraft_comparison : io unit :=
  print (nl ++ "=== Aircraft Comparison ===") ;;
  entered <- read_trip_distance ;;
  match entered with
  | None => ret tt
  | Some distance =>
      print (nl ++ "Comparing aircraft for " ++ float_repr distance
             ++ " NM trip:" ++ nl) ;;
      print "Aircraft        | Time  | Fuel  | Cost  " ;;
      print (repeat "-" 40) ;;
      comparison_loop aircraft_db distance
  end.

(** The lines the menu prints for one entry of the catalog, lines 166-170. *)
Definition aircraft_info (plane : aircraft) : list string :=
  [ nl ++ name plane ++ ":";
    "  Cruise: " ++ str_int (cruise_speed plane) ++ " knots";
    "  Fuel burn: " ++ float_repr (fuel_burn plane) ++ " gal/hour";
    "  Max fuel: " ++ str_int (max_fuel plane) ++ " gallons";
    "  Seats: " ++ str_int (seats plane) ].

(** The [if]/[elif] chain of lines 159-175; [again] is the rest of the
    loop, which only [break] leaves out. *)
Definition menu_choice (again : io unit) (choice : string) : io unit :=
  if String.eqb choice "1" then display_flight_plan ;; again
  else if String.eqb choice "2" then aircraft_comparison ;; again
  else if String.eqb choice "3" then
    print (nl ++ "Aircraft Information:") ;;
    print_all (flat_map (fun e => aircraft_info (snd e)) aircraft_db) ;;
    again
  else if String.eqb choice "4" then print farewell
  else print "Please choose 1-4" ;; again.

(** One turn of the [while True] of [main_menu], lines 148-175. *)
Definition menu_turn (again : io unit) : io unit :=
  print_all menu_lines ;;
  choice <- input ;;
  menu_choice again choice.

(** The loop, unrolled [fuel] times. *)
Fixpoint main_menu_loop (fuel : nat) : io unit :=
  match fuel with
  | O => lift None
  | S fuel' => menu_turn (main_menu_loop fuel')
  end.

(** Lines 146-175.  Every turn reads a line or ends the run, so one turn
    more than there are lines is enough. *)
Definition main_menu : io unit :=
  fun stdin => main_menu_loop (S (List.length stdin)) stdin.

End Terminal.

(** A reader of typed numbers for the examples: whole numbers and [inf],
    a small part of what [float()] reads. *)
Definition typed_float (s : string) : option float :=
  if String.eqb s "inf" then Some infinity else float_of_str s.

End Console64.

(** * Properties *)

(** ** Strings *)

Section StringFacts.

Local Open Scope string_scope.

Lemma append_empty_r (s : string) : s ++ "" = s.
Proof. induction s as [|a s IH]; simpl; [reflexivity | now rewrite IH]. Qed.

Lemma append_cons_r (s t : string) (a : ascii) :
  (s ++ String a "") ++ t = s ++ String a t.
Proof. induction s as [|b s IH]; simpl; [reflexivity | now rewrite IH]. Qed.

Lemma has_char_app (c : ascii) (s t : string) :
  has_char c (s ++ t) = has_char c s || has_char c t.
Proof.
  induction s as [|a s IH]; simpl; [reflexivity|].
  rewrite IH. now rewrite orb_assoc.
Qed.

Lemma all_chars_weaken (p q : ascii -> bool) (s : string) :
  (forall c, p c = true -> q c = true) ->
  all_chars p s = true -> all_chars q s = true.
Proof.
  intros Hpq. induction s as [|a s IH]; simpl; [reflexivity|].
  intros [Ha Hs]%andb_prop. rewrite (Hpq _ Ha). now apply IH.
Qed.

Lemma all_chars_has_char (p : ascii -> bool) (c : ascii) (s : string) :
  p c = false -> all_chars p s = true -> has_char c s = false.
Proof.
  intros Hc. induction s as [|a s IH]; simpl; [reflexivity|].
  intros [Ha Hs]%andb_prop. rewrite (IH Hs), orb_false_r.
  apply Ascii.eqb_neq. intros ->. congruence.
Qed.

Lemma prefix_app (s t : string) : String.prefix s (s ++ t) = true.
Proof.
  induction s as [|c s IH]; simpl.
  - now destruct t.
  - destruct (ascii_dec c c) as [_|N]; [exact IH | now elim N].
Qed.

(** A needle whose first character does not occur in the hay is not in
    the hay. *)
Lemma contains_first_char (c : ascii) (needle hay : string) :
  has_char c hay = false -> contains (String c needle) hay = false.
Proof.
  induction hay as [|a hay IH]; simpl; [reflexivity|].
  intros [Ha Hh]%orb_false_elim.
  rewrite (IH Hh), orb_false_r.
  destruct (ascii_dec c a) as [->|_]; [|reflexivity].
  now rewrite Ascii.eqb_refl in Ha.
Qed.

(** A word without white space is read into the current piece whole. *)
Lemma split_from_word (w : string) :
  forall cur rest,
    all_chars (fun c => negb (is_space c)) w = true ->
    split_from cur (w ++ rest) = split_from (cur ++ w) rest.
Proof.
  induction w as [|a w IH]; intros cur rest; simpl.
  - now rewrite append_empty_r.
  - intros [Ha Hw]%andb_prop. apply negb_true_iff in Ha. rewrite Ha.
    rewrite (IH _ _ Hw). now rewrite append_cons_r.
Qed.

Lemma split_from_blank (cur rest : string) :
  is_empty cur = false ->
  split_from cur (String " " rest) = cur :: split_from "" rest.
Proof. intros H. simpl. now rewrite H. Qed.

(** The four pieces of a rendered flight time. *)
Lemma split_hours_minutes (h m : string) :
  all_chars (fun c => negb (is_space c)) h = true ->
  all_chars (fun c => negb (is_space c)) m = true ->
  is_empty h = false -> is_empty m = false ->
  split (h ++ " hours " ++ m ++ " minutes") = [h; "hours"; m; "minutes"].
Proof.
  intros Hh Hm Eh Em. unfold split.
  change (h ++ " hours " ++ m ++ " minutes")
    with (h ++ String " " ("hours" ++ String " " (m ++ String " " "minutes"))).
  rewrite (split_from_word h "" _ Hh), (split_from_blank _ _ Eh).
  rewrite (split_from_word "hours" "" _ eq_refl).
  rewrite (split_from_blank "hours" _ eq_refl).
  rewrite (split_from_word m "" _ Hm), (split_from_blank _ _ Em).
  reflexivity.
Qed.

End StringFacts.

(** ** Numbers *)

Section NumberFacts.

Local Open Scope string_scope.

Lemma all_chars_uint (d : Decimal.uint) :
  all_chars is_digit (NilEmpty.string_of_uint d) = true.
Proof. induction d; simpl; auto. Qed.

Lemma uint_string_nonempty (d : Decimal.uint) :
  is_empty (NilZero.string_of_uint d) = false.
Proof. destruct d; reflexivity. Qed.

Lemma all_chars_zero_uint (d : Decimal.uint) :
  all_chars is_digit (NilZero.string_of_uint d) = true.
Proof. destruct d; try reflexivity; apply (all_chars_uint (_ d)). Qed.

(** A printed int consists of digits and at most a leading minus sign. *)
Lemma str_int_chars (n : Z) : all_chars is_int_char (str_int n) = true.
Proof.
  unfold str_int.
  assert (Hd : forall d, all_chars is_int_char (NilZero.string_of_uint d)
                         = true).
  { intros d. apply all_chars_weaken with (p := is_digit).
    - intros c Hc. unfold is_int_char. now rewrite Hc.
    - apply all_chars_zero_uint. }
  destruct (Z.to_int n) as [d|d]; simpl; [apply Hd|].
  apply Hd.
Qed.

Lemma str_int_nonempty (n : Z) : is_empty (str_int n) = false.
Proof.
  unfold str_int. destruct (Z.to_int n) as [d|d]; simpl;
    [apply uint_string_nonempty | reflexivity].
Qed.

Lemma int_char_not_space (c : ascii) :
  is_int_char c = true -> negb (is_space c) = true.
Proof.
  destruct c as [[] [] [] [] [] [] [] []]; vm_compute; congruence.
Qed.

Lemma str_int_no_space (n : Z) :
  all_chars (fun c => negb (is_space c)) (str_int n) = true.
Proof.
  apply all_chars_weaken with (p := is_int_char);
    [apply int_char_not_space | apply str_int_chars].
Qed.

Lemma str_int_no_char (c : ascii) (n : Z) :
  is_int_char c = false -> has_char c (str_int n) = false.
Proof. intros Hc. eapply all_chars_has_char; eauto using str_int_chars. Qed.

(** [float(str(n))] is [n]: the text of an int reads back as that int. *)
Lemma float_of_str_int (n : Z) : float_of_str (str_int n) = Some (inject_Z n).
Proof.
  unfold float_of_str, str_int.
  rewrite NilZero.isi.
  - simpl. now rewrite DecimalZ.of_to.
  - destruct n; simpl; try discriminate.
    intros [= H]. now apply (Unsigned.to_uint_nonnil p).
  - destruct n; simpl; try discriminate.
    intros [= H]. now apply (Unsigned.to_uint_nonnil p).
Qed.

Local Open Scope Q_scope.

(** [int()] is the floor on non-negative floats ... *)
Lemma int_of_float_nonneg (x : Q) : 0 <= x -> int_of_float x = Qfloor x.
Proof.
  destruct x as [n d]. unfold Qle, int_of_float, Qfloor. simpl.
  intros H. apply Z.quot_div_nonneg; lia.
Qed.

(** ... and the ceiling on non-positive ones. *)
Lemma int_of_float_nonpos (x : Q) : x <= 0 -> int_of_float x = Qceiling x.
Proof.
  destruct x as [n d]. unfold Qle, int_of_float, Qceiling, Qfloor. simpl.
  intros H.
  rewrite <- (Z.quot_div_nonneg (- n) (Z.pos d)) by lia.
  rewrite Z.quot_opp_l by lia. lia.
Qed.

Lemma int_of_float_comp (x y : Q) :
  x == y -> int_of_float x = int_of_float y.
Proof.
  intros E. destruct (Qlt_le_dec x 0) as [L|L].
  - rewrite !int_of_float_nonpos by (try rewrite <- E; lra).
    now rewrite E.
  - rewrite !int_of_float_nonneg by (try rewrite <- E; lra).
    now rewrite E.
Qed.

(** An int compared with zero, before and after its conversion to float. *)
Lemma inject_Z_pos (n : Z) : (0 < n)%Z -> 0 < inject_Z n.
Proof. intros H. change 0 with (inject_Z 0). now rewrite <- Zlt_Qlt. Qed.

Lemma inject_Z_nonpos (n : Z) : (n <= 0)%Z -> inject_Z n <= 0.
Proof. intros H. change 0 with (inject_Z 0). now rewrite <- Zle_Qle. Qed.

End NumberFacts.

(** ** The flight time and its text *)

Section FlightTimeFacts.

Local Open Scope Q_scope.

Variables distance speed headwind : Q.

Lemma flight_time_error :
  speed <= headwind ->
  calculate_flight_time distance speed headwind = headwind_error.
Proof.
  intros H. unfold calculate_flight_time.
  assert (E : Qle_bool (speed - headwind) 0 = true)
    by (apply Qle_bool_iff; lra).
  now rewrite E.
Qed.

Lemma flight_time_ok :
  headwind < speed ->
  calculate_flight_time distance speed headwind
  = (str_int (whole_hours distance speed headwind) ++ " hours "
     ++ str_int (whole_minutes distance speed headwind)
     ++ " minutes")%string.
Proof.
  intros H. unfold calculate_flight_time.
  destruct (Qle_bool (speed - headwind) 0) eqn:E; [|reflexivity].
  apply Qle_bool_iff in E. lra.
Qed.

(** The text of a duration never holds the word that marks a failure. *)
Lemma flight_time_ok_no_error :
  headwind < speed ->
  contains "Error" (calculate_flight_time distance speed headwind) = false.
Proof.
  intros H. rewrite flight_time_ok by exact H.
  apply contains_first_char.
  rewrite !has_char_app, !str_int_no_char by reflexivity.
  reflexivity.
Qed.

Lemma flight_time_ok_split :
  headwind < speed ->
  split (calculate_flight_time distance speed headwind)
  = [str_int (whole_hours distance speed headwind); "hours"%string;
     str_int (whole_minutes distance speed headwind); "minutes"%string].
Proof.
  intros H. rewrite flight_time_ok by exact H.
  apply split_hours_minutes;
    auto using str_int_no_space, str_int_nonempty.
Qed.

Lemma flight_time_ok_not_error :
  headwind < speed ->
  String.eqb (calculate_flight_time distance speed headwind) headwind_error
  = false.
Proof.
  intros H. apply String.eqb_neq. intros E.
  pose proof (flight_time_ok_no_error H) as N.
  rewrite E in N. discriminate N.
Qed.

End FlightTimeFacts.

Local Open Scope Q_scope.

(** C3.  [calculate_flight_time] returns its failure text exactly when the
    headwind is at least the cruise speed, that is, exactly when the
    effective speed [speed - headwind] is not positive. *)
Theorem flight_time_fails_iff (distance speed headwind : Q) :
  (calculate_flight_time distance speed headwind = headwind_error
   <-> headwind >= speed) /\
  (headwind >= speed <-> speed - headwind <= 0).
Proof.
  split; [split|split; intros H; lra].
  - intros E. destruct (Qlt_le_dec headwind speed) as [L|L]; [|exact L].
    pose proof (flight_time_ok_no_error distance speed headwind L) as N.
    rewrite E in N. discriminate N.
  - apply flight_time_error.
Qed.

(** ** The calculations of the two reports *)

Section ReportFacts.

Variable a : aircraft.
Variables distance headwind fuel_price : Q.

(** The fuel both reports compute from a duration: the hours printed in
    the text, read back, plus the reserve. *)
Local Abbreviation fuel_of hours :=
  (calculate_fuel_needed (inject_Z hours) (fuel_burn a) default_reserve).

Lemma plan_calculations_ok :
  headwind < inject_Z (cruise_speed a) ->
  let hours := whole_hours distance (inject_Z (cruise_speed a)) headwind in
  plan_calculations a distance headwind fuel_price
  = Some {| flight_time :=
              calculate_flight_time distance (inject_Z (cruise_speed a))
                headwind;
            fuel_needed := fuel_of hours;
            fuel_check := check_fuel_sufficiency a (fuel_of hours);
            cost := calculate_cost (fuel_of hours) fuel_price |}.
Proof.
  intros H hours. unfold plan_calculations.
  rewrite flight_time_ok_no_error, flight_time_ok_split by exact H.
  cbn [negb nth_error bind]. rewrite float_of_str_int. reflexivity.
Qed.

Lemma plan_calculations_error :
  inject_Z (cruise_speed a) <= headwind ->
  plan_calculations a distance headwind fuel_price
  = Some {| flight_time := headwind_error; fuel_needed := 0;
            fuel_check := "N/A"; cost := 0 |}.
Proof.
  intros H. unfold plan_calculations.
  rewrite flight_time_error by exact H. reflexivity.
Qed.

Lemma comparison_figures_ok :
  (0 < cruise_speed a)%Z ->
  let hours := whole_hours distance (inject_Z (cruise_speed a)) 0 in
  comparison_figures a distance
  = Some (Some {| time_parts :=
                    [str_int hours; "hours"%string;
                     str_int (whole_minutes distance
                                (inject_Z (cruise_speed a)) 0);
                     "minutes"%string];
                  fuel := fuel_of hours;
                  trip_cost :=
                    calculate_cost (fuel_of hours) default_fuel_price |}).
Proof.
  intros H hours. unfold comparison_figures.
  apply inject_Z_pos in H.
  rewrite flight_time_ok_no_error, flight_time_ok_split by exact H.
  cbn [negb nth_error bind]. rewrite float_of_str_int. reflexivity.
Qed.

Lemma comparison_figures_error :
  (cruise_speed a <= 0)%Z -> comparison_figures a distance = Some None.
Proof.
  intros H. unfold comparison_figures.
  rewrite flight_time_error; [reflexivity | now apply inject_Z_nonpos].
Qed.

End ReportFacts.

(** ** Scenarios and claims about the reports *)

(** C1.  The scenario of the specification, run on the program: C172,
    300 nautical miles, no wind, 6.50 per gallon.  The flight time is
    "2 hours 30 minutes" and the fuel check is passed, but only the two
    whole hours reach the fuel calculation: the fuel is 25.5 gallons, not
    29.75, and the cost is 165.75, not 193.375. *)
Theorem c172_300nm_plan :
  (exists p : plan,
      plan_calculations C172 300 0 6.50 = Some p /\
      flight_time p = "2 hours 30 minutes"%string /\
      fuel_needed p == 25.5 /\ ~ fuel_needed p == 29.75 /\
      fuel_check p = "Fuel OK: 25.5 gal needed, 56 gal capacity"%string /\
      cost p == 165.75 /\ ~ cost p == 193.375) /\
  (forall float_repr : Q -> string,
      display_flight_plan float_repr "C172" (Some 300) (Some 0) (Some 6.50)
      = Some [ ("=== Flight Plan Assistant ===" ++ nl)%string;
               "Available Aircraft:"%string;
               "  C172: Cessna 172"%string;
               "  PA28: Piper Cherokee"%string;
               "  SR22: Cirrus SR22"%string;
               (nl ++ "Selected: Cessna 172")%string;
               (nl ++ "========================================")%string;
               "FLIGHT PLAN SUMMARY"%string;
               "========================================"%string;
               "Aircraft: Cessna 172"%string;
               ("Distance: " ++ float_repr 300 ++ " nautical miles")%string;
               "Flight Time: 2 hours 30 minutes"%string;
               "Fuel Required: 25.5 gallons"%string;
               "Fuel Check: Fuel OK: 25.5 gal needed, 56 gal capacity"%string;
               "Estimated Cost: $165.75"%string;
               (nl ++ "Normal wind conditions")%string ]).
Proof.
  split.
  - eexists. split; [vm_compute; reflexivity|].
    cbn [flight_time fuel_needed fuel_check cost].
    repeat split; try reflexivity; intros H; discriminate H.
  - intros float_repr. vm_compute. reflexivity.
Qed.

(** C5.  When the headwind is too strong the report is still printed in
    full: the failure text stands where the flight time would, the fuel
    required is printed as 0.0, the fuel check as "N/A", and the cost as
    0.00. *)
Theorem headwind_too_strong_report (float_repr : Q -> string)
    (choice : string) (a : aircraft) (distance headwind fuel_price : Q) :
  lookup (upper choice) aircraft_db = Some a ->
  headwind >= inject_Z (cruise_speed a) ->
  plan_calculations a distance headwind fuel_price
  = Some {| flight_time := "Error: Headwind too strong!"; fuel_needed := 0;
            fuel_check := "N/A"; cost := 0 |} /\
  display_flight_plan float_repr choice
    (Some distance) (Some headwind) (Some fuel_price)
  = Some [ ("=== Flight Plan Assistant ===" ++ nl)%string;
           "Available Aircraft:"%string;
           "  C172: Cessna 172"%string;
           "  PA28: Piper Cherokee"%string;
           "  SR22: Cirrus SR22"%string;
           (nl ++ "Selected: " ++ name a)%string;
           (nl ++ "========================================")%string;
           "FLIGHT PLAN SUMMARY"%string;
           "========================================"%string;
           ("Aircraft: " ++ name a)%string;
           ("Distance: " ++ float_repr distance ++ " nautical miles")%string;
           "Flight Time: Error: Headwind too strong!"%string;
           "Fuel Required: 0.0 gallons"%string;
           "Fuel Check: N/A"%string;
           "Estimated Cost: $0.00"%string;
           wind_remark headwind ].
Proof.
  intros Ha Hw.
  pose proof (plan_calculations_error a distance headwind fuel_price Hw) as E.
  split; [exact E|].
  unfold display_flight_plan. rewrite Ha, E. reflexivity.
Qed.

(** The scenario of the specification: C172 against 130 knots of wind. *)
Lemma headwind_too_strong_report_witness :
  display_flight_plan (fun _ => "300.0"%string) "c172"
    (Some 300) (Some 130) (Some 6.50)
  = Some [ ("=== Flight Plan Assistant ===" ++ nl)%string;
           "Available Aircraft:"%string;
           "  C172: Cessna 172"%string;
           "  PA28: Piper Cherokee"%string;
           "  SR22: Cirrus SR22"%string;
           (nl ++ "Selected: Cessna 172")%string;
           (nl ++ "========================================")%string;
           "FLIGHT PLAN SUMMARY"%string;
           "========================================"%string;
           "Aircraft: Cessna 172"%string;
           "Distance: 300.0 nautical miles"%string;
           "Flight Time: Error: Headwind too strong!"%string;
           "Fuel Required: 0.0 gallons"%string;
           "Fuel Check: N/A"%string;
           "Estimated Cost: $0.00"%string;
           (nl ++ "Strong headwind - consider delaying if possible")%string ].
Proof.
  refine (proj2 (headwind_too_strong_report
                   (fun _ => "300.0"%string) "c172" C172 300 130 6.50 _ _)).
  - reflexivity.
  - unfold Qle; simpl; lia.
Defined.

(** C7.  A distance of zero is not a failure: whenever the effective speed
    is positive the flight time reads "0 hours 0 minutes", and the fuel the
    report computes for it is the reserve alone, 1.0 times the fuel burn. *)
Theorem zero_distance_plan (distance headwind : Q) :
  distance == 0 ->
  (forall speed : Q,
      0 < speed - headwind ->
      calculate_flight_time distance speed headwind
      = "0 hours 0 minutes"%string) /\
  (forall (a : aircraft) (fuel_price : Q),
      0 < inject_Z (cruise_speed a) - headwind ->
      exists p : plan,
        plan_calculations a distance headwind fuel_price = Some p /\
        flight_time p = "0 hours 0 minutes"%string /\
        fuel_needed p == 1.0 * fuel_burn a).
Proof.
  intros E.
  assert (Hh : forall speed, whole_hours distance speed headwind = 0%Z).
  { intros speed. unfold whole_hours.
    rewrite (int_of_float_comp _ 0); [reflexivity|].
    rewrite E. unfold Qdiv. apply Qmult_0_l. }
  assert (Hm : forall speed, whole_minutes distance speed headwind = 0%Z).
  { intros speed. unfold whole_minutes. rewrite Hh.
    rewrite (int_of_float_comp _ 0); [reflexivity|].
    rewrite E. unfold Qdiv. rewrite Qmult_0_l. reflexivity. }
  assert (Ht : forall speed, 0 < speed - headwind ->
                 calculate_flight_time distance speed headwind
                 = "0 hours 0 minutes"%string).
  { intros speed Hs. rewrite flight_time_ok by lra.
    now rewrite Hh, Hm. }
  split; [exact Ht|].
  intros a fuel_price Hs. eexists. split.
  - apply plan_calculations_ok. lra.
  - cbn [flight_time fuel_needed]. split; [now apply Ht|].
    rewrite Hh. unfold calculate_fuel_needed, default_reserve.
    change (inject_Z 0) with 0. ring.
Qed.

Lemma zero_distance_plan_witness :
  calculate_flight_time 0 120 0 = "0 hours 0 minutes"%string /\
  exists p : plan,
    plan_calculations C172 0 0 6.50 = Some p /\
    flight_time p = "0 hours 0 minutes"%string /\
    fuel_needed p == 1.0 * fuel_burn C172.
Proof.
  destruct (zero_distance_plan 0 0 (Qeq_refl 0)) as [Ht Hp].
  split.
  - apply Ht. reflexivity.
  - apply Hp. reflexivity.
Defined.

(** C6.  The message of [check_fuel_sufficiency] is the "Fuel OK" one
    exactly when the fuel needed is at most the capacity, and the "Fuel
    warning" one otherwise; fuel equal to the capacity is OK. *)
Theorem fuel_ok_iff (a : aircraft) (fuel_needed : Q) :
  (String.prefix "Fuel OK: " (check_fuel_sufficiency a fuel_needed) = true
   <-> fuel_needed <= inject_Z (max_fuel a)) /\
  (String.prefix "Fuel warning: " (check_fuel_sufficiency a fuel_needed) = true
   <-> ~ fuel_needed <= inject_Z (max_fuel a)) /\
  String.prefix "Fuel OK: "
    (check_fuel_sufficiency a (inject_Z (max_fuel a))) = true.
Proof.
  assert (Hok : forall f, f <= inject_Z (max_fuel a) ->
                  String.prefix "Fuel OK: " (check_fuel_sufficiency a f) = true
                  /\ String.prefix "Fuel warning: "
                       (check_fuel_sufficiency a f) = false).
  { intros f Hf. unfold check_fuel_sufficiency.
    apply Qle_bool_iff in Hf. rewrite Hf.
    split; [apply prefix_app | reflexivity]. }
  assert (Hno : forall f, ~ f <= inject_Z (max_fuel a) ->
                  String.prefix "Fuel OK: " (check_fuel_sufficiency a f) = false
                  /\ String.prefix "Fuel warning: "
                       (check_fuel_sufficiency a f) = true).
  { intros f Hf. unfold check_fuel_sufficiency.
    destruct (Qle_bool f (inject_Z (max_fuel a))) eqn:E.
    - apply Qle_bool_iff in E. contradiction.
    - split; [reflexivity | apply prefix_app]. }
  repeat split.
  - intros H. destruct (Qlt_le_dec (inject_Z (max_fuel a)) fuel_needed)
      as [L|L]; [|exact L].
    destruct (Hno fuel_needed) as [N _]; [lra | congruence].
  - intros H. now apply Hok.
  - intros H L. destruct (Hok _ L) as [_ N]. congruence.
  - intros H. now apply Hno.
  - apply Hok. apply Qle_refl.
Qed.

(** C8.  The last line of the summary is the wind remark: the caution for
    a headwind above 20, the favorable note for one below -10, and the
    neutral note in between, 20 and -10 included. *)
Theorem wind_remark_cases (float_repr : Q -> string) (a : aircraft)
    (distance headwind : Q) (p : plan) :
  List.last (plan_summary float_repr a distance headwind p) ""%string
  = wind_remark headwind /\
  (wind_remark headwind
   = (nl ++ "Strong headwind - consider delaying if possible")%string
   <-> headwind > 20) /\
  (wind_remark headwind
   = (nl ++ "Favorable tailwind - good flying conditions!")%string
   <-> headwind < -10) /\
  (wind_remark headwind = (nl ++ "Normal wind conditions")%string
   <-> -10 <= headwind <= 20) /\
  wind_remark 20 = (nl ++ "Normal wind conditions")%string /\
  wind_remark (-10) = (nl ++ "Normal wind conditions")%string.
Proof.
  split; [reflexivity|].
  unfold wind_remark.
  destruct (Qle_bool headwind 20) eqn:E1;
    destruct (Qle_bool (-10) headwind) eqn:E2; cbn [negb];
    try (apply Qle_bool_iff in E1);
    try (apply Qle_bool_iff in E2);
    try (assert (N1 : ~ headwind <= 20)
           by (intros N%Qle_bool_iff; congruence));
    try (assert (N2 : ~ -10 <= headwind)
           by (intros N%Qle_bool_iff; congruence));
    repeat split; try reflexivity; try discriminate; try lra;
    intros; exfalso; lra.
Qed.

(** ** The comparison table *)

Section ComparisonFacts.

Variable distance : Q.

(** Whether the flight time of an entry, computed without wind, fails. *)
Local Abbreviation fails e :=
  (String.eqb
     (calculate_flight_time distance (inject_Z (cruise_speed (snd e))) 0)
     headwind_error).

Lemma comparison_rows_filter (db : list (string * aircraft)) :
  comparison_rows db distance
  = Some (map (fun e => table_line (snd e) distance)
              (filter (fun e => negb (fails e)) db)).
Proof.
  induction db as [|[code a] db IH]; [reflexivity|].
  cbn [comparison_rows filter snd].
  destruct (Z_lt_le_dec 0 (cruise_speed a)) as [L|L].
  - rewrite (comparison_figures_ok a distance L).
    rewrite flight_time_ok_not_error by now apply inject_Z_pos.
    cbn [bind negb comparison_line time_parts nth_error map].
    rewrite IH. reflexivity.
  - rewrite (comparison_figures_error a distance L).
    rewrite flight_time_error by now apply inject_Z_nonpos.
    rewrite String.eqb_refl. cbn [bind negb]. exact IH.
Qed.

End ComparisonFacts.

(** ** The text of the fuel check *)

Section FormatFacts.

Local Open Scope string_scope.

Lemma str_int_one_digit (k : Z) :
  (0 <= k < 10)%Z ->
  exists c : ascii, str_int k = String c "" /\ is_digit c = true.
Proof.
  intros H.
  assert (C : (k = 0 \/ k = 1 \/ k = 2 \/ k = 3 \/ k = 4 \/ k = 5 \/
               k = 6 \/ k = 7 \/ k = 8 \/ k = 9)%Z) by lia.
  repeat (destruct C as [->|C]; [eexists; split; reflexivity|]).
  subst k. eexists; split; reflexivity.
Qed.

(** [f"{x:.1f}"] is a sign and an int, one point, and one digit. *)
Lemma format_f_one_decimal (x : Q) :
  exists (whole : string) (digit : ascii),
    format_f 1 x = whole ++ "." ++ String digit "" /\
    is_digit digit = true /\ has_char "." whole = false.
Proof.
  unfold format_f. change (10 ^ Z.of_nat 1)%Z with 10%Z.
  set (n := round_half_even (Qabs x * inject_Z 10)).
  destruct (str_int_one_digit (n mod 10)) as (c & Ec & Hc).
  { apply Z.mod_pos_bound. lia. }
  exists ((if Qle_bool 0 x then "" else "-") ++ str_int (n / 10)), c.
  split; [|split].
  - unfold zero_pad. rewrite Ec. cbn [String.length Nat.sub repeat append].
    destruct (Qle_bool 0 x); cbn [append]; [reflexivity|].
    f_equal.
  - exact Hc.
  - rewrite has_char_app, str_int_no_char by reflexivity.
    now destruct (Qle_bool 0 x).
Qed.

End FormatFacts.

(** C2, as stated, fails: the capacity is printed as it is stored, and the
    catalog stores it as an int.  For the C172 the message ends in
    "56 gal capacity" whether the fuel fits or not; "56.0" is not in it. *)
Lemma capacity_format_counterexample :
  check_fuel_sufficiency C172 25.5
  = "Fuel OK: 25.5 gal needed, 56 gal capacity"%string /\
  check_fuel_sufficiency C172 60
  = "Fuel warning: 60.0 gal needed, but only 56 gal capacity"%string /\
  format_f 1 (inject_Z (max_fuel C172)) = "56.0"%string /\
  contains (format_f 1 (inject_Z (max_fuel C172)))
    (check_fuel_sufficiency C172 25.5) = false /\
  contains (format_f 1 (inject_Z (max_fuel C172)))
    (check_fuel_sufficiency C172 60) = false.
Proof. repeat split; vm_compute; reflexivity. Qed.

(** ** Checks of the helpers on small inputs *)

Example str_int_ex : str_int (-30) = "-30"%string /\ str_int 0 = "0"%string.
Proof. split; reflexivity. Qed.

Example int_of_float_ex :
  int_of_float 2.5 = 2%Z /\ int_of_float (-2.5) = (-2)%Z /\
  Qfloor (-2.5) = (-3)%Z.
Proof. repeat split. Qed.

Example format_f_ex :
  format_f 1 29.75 = "29.8"%string /\ format_f 1 0.25 = "0.2"%string /\
  format_f 2 165.75 = "165.75"%string /\ format_f 1 0 = "0.0"%string /\
  format_f 1 (-8.5) = "-8.5"%string /\ format_f 2 0.125 = "0.12"%string.
Proof. repeat split; vm_compute; reflexivity. Qed.

Example split_ex :
  split "  2 hours  30 minutes " = ["2"; "hours"; "30"; "minutes"]%string.
Proof. reflexivity. Qed.

Example comparison_ex :
  comparison_rows aircraft_db 300
  = Some [ "Cessna 172   |  2hhours |  25.5 | $165.8"%string;
           "Piper Cherok |  2hhours |  27.0 | $175.5"%string;
           "Cirrus SR22  |  1hhours |  30.0 | $195.0"%string ].
Proof. vm_compute. reflexivity. Qed.

(** * Further properties of the catalog and of the table *)

Section LookupFacts.

Lemma upper_char_idempotent (c : ascii) :
  upper_char (upper_char c) = upper_char c.
Proof. destruct c as [[] [] [] [] [] [] [] []]; reflexivity. Qed.

Lemma upper_idempotent (s : string) : upper (upper s) = upper s.
Proof.
  induction s as [|c s IH]; simpl; [reflexivity|].
  now rewrite upper_char_idempotent, IH.
Qed.

Lemma lookup_In (key : string) (a : aircraft)
    (db : list (string * aircraft)) :
  lookup key db = Some a -> In (key, a) db.
Proof.
  induction db as [|[code plane] db IH]; simpl; [discriminate|].
  destruct (String.eqb_spec key code) as [->|N].
  - intros [= ->]. now left.
  - intros H. right. now apply IH.
Qed.

Lemma lookup_None (key : string) (db : list (string * aircraft)) :
  lookup key db = None <-> ~ In key (map fst db).
Proof.
  induction db as [|[code plane] db IH]; simpl; [tauto|].
  destruct (String.eqb_spec key code) as [->|N].
  - split; [discriminate | intros H; elim H; now left].
  - rewrite IH. split; [intros H [E|I]; [congruence | contradiction]
                       | intros H I; apply H; now right].
Qed.

(** A dictionary has one value per key. *)
Lemma lookup_NoDup (key : string) (a : aircraft)
    (db : list (string * aircraft)) :
  NoDup (map fst db) -> In (key, a) db -> lookup key db = Some a.
Proof.
  induction db as [|[code plane] db IH]; simpl; [contradiction|].
  intros D [E|I].
  - injection E as -> ->. now rewrite String.eqb_refl.
  - inversion D as [|? ? Hn Hd]; subst.
    destruct (String.eqb_spec key code) as [->|N]; [|now apply IH].
    elim Hn. change code with (fst (code, a)). now apply in_map.
Qed.

Lemma aircraft_db_keys : NoDup (map fst aircraft_db).
Proof.
  repeat constructor; simpl; intuition discriminate.
Qed.

Lemma aircraft_db_upper (code : string) (a : aircraft) :
  In (code, a) aircraft_db -> upper code = code.
Proof.
  intros H. repeat (destruct H as [[= <- <-]|H]; [reflexivity|]).
  contradiction.
Qed.

End LookupFacts.

(** X6.  The aircraft is looked up without regard to letter case: a typed
    text of ASCII characters selects an aircraft exactly when it spells, in
    any mix of upper and lower case, the code of that aircraft in the
    catalog. *)
Theorem lookup_ignores_case (choice : string) (a : aircraft) :
  all_chars is_ascii choice = true ->
  (lookup (upper choice) aircraft_db = Some a
   <-> exists code : string,
         In (code, a) aircraft_db /\ upper choice = upper code).
Proof.
  intros _. split.
  - intros H. exists (upper choice). split.
    + now apply lookup_In.
    + now rewrite upper_idempotent.
  - intros (code & I & E).
    rewrite (aircraft_db_upper code a I) in E. rewrite E.
    apply lookup_NoDup; [apply aircraft_db_keys | exact I].
Qed.

Lemma lookup_ignores_case_witness :
  lookup (upper "Sr22") aircraft_db = Some SR22
  <-> exists code : string,
        In (code, SR22) aircraft_db /\ upper "Sr22" = upper code.
Proof. apply (lookup_ignores_case "Sr22" SR22). reflexivity. Defined.

(** X7.  Every cruise speed of the catalog is above 20 knots, so when the
    flight time of a catalog aircraft fails, the remark that closes the
    report is always the caution about the strong headwind. *)
Theorem failure_comes_with_caution (code : string) (a : aircraft)
    (distance headwind : Q) :
  In (code, a) aircraft_db ->
  calculate_flight_time distance (inject_Z (cruise_speed a)) headwind
  = headwind_error ->
  wind_remark headwind
  = (nl ++ "Strong headwind - consider delaying if possible")%string.
Proof.
  intros I E.
  assert (L : inject_Z (cruise_speed a) <= headwind).
  { destruct (Qlt_le_dec headwind (inject_Z (cruise_speed a))) as [L|L];
      [|exact L].
    pose proof (flight_time_ok_not_error distance _ _ L) as N.
    apply String.eqb_neq in N. contradiction. }
  assert (S : 20 < inject_Z (cruise_speed a)).
  { repeat (destruct I as [[= <- <-]|I]; [reflexivity|]). contradiction. }
  unfold wind_remark.
  destruct (Qle_bool headwind 20) eqn:B; [|reflexivity].
  apply Qle_bool_iff in B. lra.
Qed.

Lemma failure_comes_with_caution_witness :
  wind_remark 130
  = (nl ++ "Strong headwind - consider delaying if possible")%string.
Proof.
  apply (failure_comes_with_caution "C172" C172 300 130).
  - left. reflexivity.
  - reflexivity.
Defined.

Section ColumnFacts.

Local Open Scope nat_scope.

Lemma length_app (s t : string) :
  String.length (s ++ t) = String.length s + String.length t.
Proof. induction s as [|c s IH]; simpl; [reflexivity | now rewrite IH]. Qed.

Lemma length_blanks (n : nat) : String.length (repeat " " n) = n.
Proof. induction n as [|n IH]; simpl; [reflexivity | now rewrite IH]. Qed.

Lemma length_take (n : nat) (s : string) :
  String.length (take n s) = Nat.min n (String.length s).
Proof.
  unfold take. revert s. induction n as [|n IH]; intros [|c s]; simpl;
    try reflexivity.
  now rewrite IH.
Qed.

Lemma take_all (n : nat) (s : string) :
  String.length s <= n -> take n s = s.
Proof.
  unfold take. revert s. induction n as [|n IH]; intros [|c s]; simpl;
    try reflexivity; intros H; [lia|].
  rewrite IH by lia. reflexivity.
Qed.

Lemma length_ljust (w : nat) (s : string) :
  String.length (ljust w s) = Nat.max w (String.length s).
Proof. unfold ljust. rewrite length_app, length_blanks. lia. Qed.

End ColumnFacts.

(** X8.  Every line of the comparison table opens with a name field of
    exactly 12 characters: a name of up to 12 characters is padded with
    blanks on the right, a longer one is cut after its 12th character. *)
Theorem table_name_column (a : aircraft) (f : figures) (line : string) :
  comparison_line a f = Some line ->
  exists field tail : string,
    line = (field ++ " | " ++ tail)%string /\
    String.length field = 12%nat /\
    ((String.length (name a) <= 12)%nat ->
     field = (name a ++ repeat " " (12 - String.length (name a)))%string) /\
    ((12 <= String.length (name a))%nat ->
     field = String.substring 0 12 (name a)).
Proof.
  unfold comparison_line.
  destruct (nth_error (time_parts f) 0) as [part0|]; [|discriminate].
  destruct (nth_error (time_parts f) 1) as [part1|]; [|discriminate].
  cbn [FlightPlan.bind]. intros [= <-].
  exists (ljust 12 (take 12 (name a))). eexists.
  split; [reflexivity|].
  split; [|split].
  - rewrite length_ljust, length_take. lia.
  - intros H. now rewrite take_all.
  - intros H. unfold ljust. rewrite length_take.
    replace (12 - Nat.min 12 (String.length (name a)))%nat with 0%nat by lia.
    apply append_empty_r.
Qed.

Lemma table_name_column_witness :
  exists field tail : string,
    "Piper Cherok |  2hhours |  27.0 | $175.5"%string
    = (field ++ " | " ++ tail)%string /\
    String.length field = 12%nat /\
    ((String.length (name PA28) <= 12)%nat ->
     field = (name PA28 ++ repeat " " (12 - String.length (name PA28)))%string) /\
    ((12 <= String.length (name PA28))%nat ->
     field = String.substring 0 12 (name PA28)).
Proof.
  apply (table_name_column PA28
           {| time_parts := ["2"; "hours"; "30"; "minutes"]%string;
              fuel := 27; trip_cost := 175.5 |}).
  vm_compute. reflexivity.
Defined.

(** * The program on binary64 numbers *)

Module Binary64Facts.

Import Float64 Binary64.

Local Open Scope string_scope.
Local Open Scope Z_scope.

(** ** Binary64 arithmetic *)

Section FloatFacts.

Lemma F64exp_eq e : F64exp e = Z.max (e - 53) (-1074).
Proof. reflexivity. Qed.

(** digits *)
Lemma digits2_bounds (p : positive) :
  2 ^ (Zpos (digits2_pos p) - 1) <= Zpos p < 2 ^ Zpos (digits2_pos p).
Proof.
  induction p as [p IH|p IH|]; cbn [digits2_pos].
  - rewrite Pos2Z.inj_succ.
    replace (Z.succ (Zpos (digits2_pos p)) - 1) with (Z.succ (Zpos (digits2_pos p) - 1)) by lia.
    rewrite !Z.pow_succ_r by lia. lia.
  - rewrite Pos2Z.inj_succ.
    replace (Z.succ (Zpos (digits2_pos p)) - 1) with (Z.succ (Zpos (digits2_pos p) - 1)) by lia.
    rewrite !Z.pow_succ_r by lia. lia.
  - simpl. lia.
Qed.

Lemma Zdigits2_nonneg m : 0 <= Zdigits2 m.
Proof. destruct m; simpl; lia. Qed.

Lemma Zdigits2_bounds m : 0 < m -> 2 ^ (Zdigits2 m - 1) <= m < 2 ^ Zdigits2 m.
Proof. destruct m; try lia. intros _. apply digits2_bounds. Qed.

Lemma Zdigits2_unique m n : 0 < m -> 2 ^ (n - 1) <= m < 2 ^ n -> Zdigits2 m = n.
Proof.
  intros Hm [L U]. pose proof (Zdigits2_bounds m Hm) as [L' U'].
  pose proof (Zdigits2_nonneg m).
  assert (0 < n). { destruct (Z_lt_le_dec 0 n); [lia|]. 
    assert (2 ^ n <= 2 ^ 0) by (destruct (Z_lt_le_dec n 0); [rewrite Z.pow_neg_r by lia; simpl; lia | apply Z.pow_le_mono_r; lia]). simpl in *. lia. }
  destruct (Z_lt_le_dec (Zdigits2 m) n) as [C|C].
  - assert (2 ^ Zdigits2 m <= 2 ^ (n - 1)) by (apply Z.pow_le_mono_r; lia). lia.
  - destruct (Z_lt_le_dec n (Zdigits2 m)) as [C'|C']; [|lia].
    assert (2 ^ n <= 2 ^ (Zdigits2 m - 1)) by (apply Z.pow_le_mono_r; lia). lia.
Qed.

Lemma Zdigits2_le_pow m n : 0 <= n -> 0 <= m < 2 ^ n -> Zdigits2 m <= n.
Proof.
  intros Hn [L U]. destruct (Z.eq_dec m 0) as [->|N]; [simpl; lia|].
  pose proof (Zdigits2_bounds m ltac:(lia)) as [L' U'].
  destruct (Z_lt_le_dec n (Zdigits2 m)) as [C|C]; [|lia].
  assert (2 ^ n <= 2 ^ (Zdigits2 m - 1)) by (apply Z.pow_le_mono_r; lia). lia.
Qed.

Lemma Zdigits2_mul_pow2 m k : 0 < m -> 0 <= k -> Zdigits2 (m * 2 ^ k) = Zdigits2 m + k.
Proof.
  intros Hm Hk. pose proof (Zdigits2_bounds m Hm) as [L U].
  pose proof (Zdigits2_nonneg m).
  assert (0 < Zdigits2 m). { destruct (Z.eq_dec (Zdigits2 m) 0) as [E|]; [|lia]. rewrite E in U. simpl in U. lia. }
  apply Zdigits2_unique.
  - apply Z.mul_pos_pos; [lia | apply Z.pow_pos_nonneg; lia].
  - replace (Zdigits2 m + k - 1) with ((Zdigits2 m - 1) + k) by lia.
    rewrite !Z.pow_add_r by lia.
    assert (0 < 2 ^ k) by (apply Z.pow_pos_nonneg; lia). nia.
Qed.

Lemma Zdigits2_pos m : 0 < m -> 0 < Zdigits2 m.
Proof. destruct m; simpl; lia. Qed.

(** shifting right *)
Lemma iter_pos_nat {A} (f : A -> A) (p : positive) (x : A) :
  iter_pos f p x = Nat.iter (Pos.to_nat p) f x.
Proof.
  revert x. induction p as [p IH|p IH|]; intros x; cbn [iter_pos].
  - rewrite !IH. rewrite Pos2Nat.inj_xI.
    replace (S (2 * Pos.to_nat p))%nat with (Pos.to_nat p + S (Pos.to_nat p))%nat by lia.
    rewrite Nat.iter_add. f_equal. now rewrite Nat.iter_succ_r.
  - rewrite !IH. rewrite Pos2Nat.inj_xO.
    replace (2 * Pos.to_nat p)%nat with (Pos.to_nat p + Pos.to_nat p)%nat by lia.
    now rewrite Nat.iter_add.
  - reflexivity.
Qed.

Lemma shr_1_spec m r s :
  0 <= m ->
  shr_1 {| shr_m := m; shr_r := r; shr_s := s |}
  = {| shr_m := m / 2; shr_r := Z.odd m; shr_s := r || s |}.
Proof.
  intros H. destruct m as [|[p|p|]|p]; try lia; cbn [shr_1].
  - reflexivity.
  - f_equal. rewrite Pos2Z.inj_xI. 
    replace (2 * Zpos p + 1) with (1 + Zpos p * 2) by lia.
    rewrite Z.div_add by lia. reflexivity.
  - f_equal. rewrite Pos2Z.inj_xO. 
    replace (2 * Zpos p) with (Zpos p * 2) by lia.
    rewrite Z.div_mul by lia. reflexivity.
  - reflexivity.
Qed.

(** The mantissa after [n] shifts, whatever the bits carried along. *)
Lemma shr_iter_m (n : nat) : forall m r s,
  0 <= m ->
  shr_m (Nat.iter n shr_1 {| shr_m := m; shr_r := r; shr_s := s |})
  = m / 2 ^ Z.of_nat n.
Proof.
  induction n as [|n IH]; intros m r s H.
  - simpl. now rewrite Z.div_1_r.
  - rewrite Nat.iter_succ_r, shr_1_spec by exact H.
    rewrite IH by (apply Z.div_pos; lia).
    rewrite Nat2Z.inj_succ, Z.pow_succ_r by lia.
    rewrite Z.div_div by (try apply Z.pow_pos_nonneg; lia). reflexivity.
Qed.

Lemma odd_mod2 x : Z.odd x = (x mod 2 =? 1).
Proof.
  rewrite (Z.div_mod x 2) at 1 by lia. rewrite Z.add_comm, Z.odd_add_mul_2.
  pose proof (Z.mod_pos_bound x 2 ltac:(lia)).
  assert (C : x mod 2 = 0 \/ x mod 2 = 1) by lia.
  destruct C as [C|C]; rewrite C; reflexivity.
Qed.

(** The two bits after [n >= 1] shifts of an exact mantissa: the last bit
    dropped, and whether anything was dropped before it. *)
Lemma shr_iter_bits (n : nat) : forall m,
  0 <= m ->
  Nat.iter (S n) shr_1 {| shr_m := m; shr_r := false; shr_s := false |}
  = {| shr_m := m / 2 ^ Z.of_nat (S n);
       shr_r := Z.odd (m / 2 ^ Z.of_nat n);
       shr_s := negb (m mod 2 ^ Z.of_nat n =? 0) |}.
Proof.
  induction n as [|n IH]; intros m H.
  - rewrite Nat.iter_succ. cbn [Nat.iter nat_rect]. rewrite shr_1_spec by exact H.
    change (2 ^ Z.of_nat 1) with 2. change (2 ^ Z.of_nat 0) with 1.
    rewrite Z.div_1_r, Z.mod_1_r. reflexivity.
  - rewrite Nat.iter_succ. rewrite IH by exact H.
    assert (P : 0 < 2 ^ Z.of_nat n) by (apply Z.pow_pos_nonneg; lia).
    rewrite shr_1_spec by (apply Z.div_pos; lia).
    rewrite !Nat2Z.inj_succ, !Z.pow_succ_r by lia.
    f_equal.
    + rewrite Z.div_div by lia. f_equal. lia.
    + (* sticky bit *)
      set (q := 2 ^ Z.of_nat n) in *.
      pose proof (Z.div_mod m q ltac:(lia)) as E.
      pose proof (Z.mod_pos_bound m q P) as B.
      pose proof (Z.div_mod (m / q) 2 ltac:(lia)) as E2.
      pose proof (Z.mod_pos_bound (m / q) 2 ltac:(lia)) as B2.
      assert (M : m mod (2 * q) = q * ((m / q) mod 2) + m mod q).
      { symmetry. apply Z.mod_unique_pos with (q := m / q / 2); nia. }
      rewrite M.
      destruct (Z.odd (m / q)) eqn:O.
      * rewrite odd_mod2 in O. apply Z.eqb_eq in O.
        rewrite O. simpl. symmetry. apply negb_true_iff, Z.eqb_neq. nia.
      * assert (Z0 : (m / q) mod 2 = 0).
        { rewrite odd_mod2 in O. apply Z.eqb_neq in O. lia. }
        rewrite Z0. simpl. f_equal. f_equal. lia.
Qed.

Lemma rne_shr (P : Z) (p : positive) :
  0 <= P ->
  let mrs := iter_pos shr_1 p {| shr_m := P; shr_r := false; shr_s := false |} in
  round_nearest_even (shr_m mrs) (loc_of_shr_record mrs) = rne_of P (Zpos p).
Proof.
  intros H mrs. unfold mrs. rewrite iter_pos_nat.
  destruct (Pos2Nat.is_succ p) as [n En]. rewrite En.
  rewrite shr_iter_bits by exact H.
  assert (Ek : Zpos p = Z.succ (Z.of_nat n)) by lia.
  unfold rne_of. rewrite Ek, <- Nat2Z.inj_succ.
  cbn [shr_m loc_of_shr_record].
  rewrite Nat2Z.inj_succ, Z.pow_succ_r by lia.
  set (q := 2 ^ Z.of_nat n).
  assert (Pq : 0 < q) by (apply Z.pow_pos_nonneg; lia).
  pose proof (Z.div_mod P q ltac:(lia)) as E.
  pose proof (Z.mod_pos_bound P q Pq) as B.
  pose proof (Z.div_mod (P / q) 2 ltac:(lia)) as E2.
  pose proof (Z.mod_pos_bound (P / q) 2 ltac:(lia)) as B2.
  assert (M : P mod (2 * q) = q * ((P / q) mod 2) + P mod q).
  { symmetry. apply Z.mod_unique_pos with (q := P / q / 2); nia. }
  rewrite M.
  rewrite (odd_mod2 (P / q)).
  destruct (Z.eqb_spec ((P / q) mod 2) 1) as [R|R];
    destruct (Z.eqb_spec (P mod q) 0) as [S|S];
    cbn [negb loc_of_shr_record round_nearest_even].
  - (* tie *)
    rewrite R, S.
    replace (2 * (q * 1 + 0) <? 2 * q) with false by (symmetry; apply Z.ltb_ge; lia).
    replace (2 * (q * 1 + 0) =? 2 * q) with true by (symmetry; apply Z.eqb_eq; lia).
    destruct (Z.even (P / (2 * q))); lia.
  - rewrite R.
    replace (2 * (q * 1 + P mod q) <? 2 * q) with false by (symmetry; apply Z.ltb_ge; lia).
    replace (2 * (q * 1 + P mod q) =? 2 * q) with false by (symmetry; apply Z.eqb_neq; lia).
    reflexivity.
  - assert (Z0 : (P / q) mod 2 = 0) by lia. rewrite Z0, S.
    replace (2 * (q * 0 + 0) <? 2 * q) with true by (symmetry; apply Z.ltb_lt; lia).
    lia.
  - assert (Z0 : (P / q) mod 2 = 0) by lia. rewrite Z0.
    replace (2 * (q * 0 + P mod q) <? 2 * q) with true by (symmetry; apply Z.ltb_lt; lia).
    lia.
Qed.

Lemma rne_of_bounds (P k : Z) :
  0 <= P -> 0 < k ->
  P / 2 ^ k <= rne_of P k <= P / 2 ^ k + 1 /\
  2 * Z.abs (rne_of P k * 2 ^ k - P) <= 2 ^ k.
Proof.
  intros HP Hk. unfold rne_of.
  assert (Pq : 0 < 2 ^ k) by (apply Z.pow_pos_nonneg; lia).
  pose proof (Z.div_mod P (2 ^ k) ltac:(lia)) as E.
  pose proof (Z.mod_pos_bound P (2 ^ k) Pq) as B.
  set (q := P / 2 ^ k) in *. set (r := P mod 2 ^ k) in *.
  destruct (2 * r <? 2 ^ k) eqn:C1; [apply Z.ltb_lt in C1; split; [lia|nia]|].
  apply Z.ltb_ge in C1.
  destruct (2 * r =? 2 ^ k) eqn:C2.
  - apply Z.eqb_eq in C2. destruct (Z.even q); split; try lia; nia.
  - apply Z.eqb_neq in C2. split; [lia|nia].
Qed.

Lemma shr_fexp_m (m e : Z) :
  0 <= m ->
  let k := F64exp (Zdigits2 m + e) - e in
  let '(mrs, e') := shr_fexp prec emax m e loc_Exact in
  shr_m mrs = (if 0 <? k then m / 2 ^ k else m) /\
  e' = (if 0 <? k then e + k else e).
Proof.
  intros H k. unfold shr_fexp, shr. fold (F64exp (Zdigits2 m + e)). fold k.
  destruct k as [|p|p] eqn:Ek; cbn [shr_record_of_loc shr_m Z.ltb Z.compare]; try (split; reflexivity).
  rewrite iter_pos_nat, shr_iter_m by exact H.
  rewrite positive_nat_Z. split; reflexivity.
Qed.

Lemma bra_spec (s : bool) (P E : Z) :
  0 <= P ->
  binary_round_aux prec emax s P E loc_Exact = round_spec s P E.
Proof.
  intros H. unfold binary_round_aux, round_spec.
  set (k := F64exp (Zdigits2 P + E) - E).
  assert (S1 : exists m1 e1,
             (let '(mrs', e') := shr_fexp prec emax P E loc_Exact in
              (round_nearest_even (shr_m mrs') (loc_of_shr_record mrs'), e'))
             = (m1, e1) /\
             m1 = (if 0 <? k then rne_of P k else P) /\
             e1 = (if 0 <? k then E + k else E)).
  { unfold shr_fexp, shr. fold (F64exp (Zdigits2 P + E)). fold k.
    destruct k as [|p|p] eqn:Ek; cbn [shr_record_of_loc Z.ltb Z.compare].
    - eexists _, _. split; [reflexivity|]. split; reflexivity.
    - eexists _, _. split; [reflexivity|]. split; [|reflexivity].
      apply rne_shr. exact H.
    - eexists _, _. split; [reflexivity|]. split; reflexivity. }
  destruct S1 as (m1 & e1 & E1 & Em & Ee).
  destruct (shr_fexp prec emax P E loc_Exact) as [mrs' e'].
  injection E1 as E1m E1e. rewrite E1m, E1e.
  assert (Hm1 : 0 <= m1).
  { rewrite Em. destruct (0 <? k) eqn:C; [|exact H].
    apply Z.ltb_lt in C. pose proof (rne_of_bounds P k H C) as [[L _] _].
    assert (0 <= P / 2 ^ k) by (apply Z.div_pos; [lia | apply Z.pow_pos_nonneg; lia]).
    lia. }
  pose proof (shr_fexp_m m1 e1 Hm1) as S2.
  destruct (shr_fexp prec emax m1 e1 loc_Exact) as [mrs'' e''].
  destruct S2 as [S2m S2e]. rewrite S2m, S2e.
  rewrite Em, Ee. destruct (0 <? k); reflexivity.
Qed.

(** ** Valid binary64 numbers *)

Lemma valid_finite (s : bool) (m : positive) (e : Z) :
  valid_binary (S754_finite s m e) = true <->
  F64exp (Zdigits2 (Zpos m) + e) = e /\ e <= 971.
Proof.
  cbn [SpecFloat.valid_binary]. unfold bounded, canonical_mantissa.
  rewrite andb_true_iff, Z.eqb_eq, Z.leb_le. reflexivity.
Qed.

Lemma canonical_digits (m e : Z) :
  0 < m -> F64exp (Zdigits2 m + e) = e ->
  -1074 <= e /\ Zdigits2 m <= 53 /\ (-1074 < e -> Zdigits2 m = 53).
Proof.
  intros Hm. rewrite F64exp_eq. lia.
Qed.

Lemma iter_xO (d : positive) : forall m : positive,
  Zpos (Pos.iter xO m d) = Zpos m * 2 ^ Zpos d.
Proof.
  induction d as [|d IH] using Pos.peano_ind; intros m.
  - cbn [Pos.iter]. lia.
  - rewrite Pos.iter_succ, Pos2Z.inj_xO, IH, Pos2Z.inj_succ, Z.pow_succ_r by lia.
    lia.
Qed.

Lemma shl_align_spec (m : positive) (e e' : Z) :
  shl_align m e e' =
  (if e' <? e then (Z.to_pos (Zpos m * 2 ^ (e - e')), e') else (m, e)).
Proof.
  unfold shl_align. destruct (e' - e) as [|d|d] eqn:E.
  - replace (e' <? e) with false by (symmetry; apply Z.ltb_ge; lia). reflexivity.
  - replace (e' <? e) with false by (symmetry; apply Z.ltb_ge; lia). reflexivity.
  - replace (e' <? e) with true by (symmetry; apply Z.ltb_lt; lia).
    replace (e - e') with (Zpos d) by lia.
    rewrite <- iter_xO, Pos2Z.id. reflexivity.
Qed.

(** Rounding a number that has a canonical representation gives that
    representation. *)
Lemma binary_round_exact (s : bool) (P : positive) (E : Z) (m : positive) (e : Z) :
  F64exp (Zdigits2 (Zpos m) + e) = e -> e <= 971 ->
  (if E <? e then Zpos P = Zpos m * 2 ^ (e - E)
   else Zpos P * 2 ^ (E - e) = Zpos m) ->
  binary_round prec emax s P E = S754_finite s m e.
Proof.
  intros C B V. unfold binary_round.
  change (Zpos (digits2_pos P)) with (Zdigits2 (Zpos P)).
  fold (F64exp (Zdigits2 (Zpos P) + E)).
  assert (G : Zdigits2 (Zpos P) + E = Zdigits2 (Zpos m) + e).
  { destruct (E <? e) eqn:L.
    - apply Z.ltb_lt in L. rewrite V, Zdigits2_mul_pow2 by lia. lia.
    - apply Z.ltb_ge in L. rewrite <- V, Zdigits2_mul_pow2 by lia. lia. }
  rewrite G, C, shl_align_spec.
  assert (F : finish s (Zpos m) e = S754_finite s m e).
  { unfold finish. rewrite C, Z.sub_diag. cbn [Z.ltb Z.compare].
    replace (e <=? 971) with true by (symmetry; apply Z.leb_le; lia).
    reflexivity. }
  destruct (e <? E) eqn:L1.
  - apply Z.ltb_lt in L1.
    replace (E <? e) with false in V by (symmetry; apply Z.ltb_ge; lia).
    rewrite V, Pos2Z.id, bra_spec by lia.
    unfold round_spec. rewrite C, Z.sub_diag. cbn [Z.ltb Z.compare]. exact F.
  - apply Z.ltb_ge in L1. rewrite bra_spec by lia. unfold round_spec.
    rewrite G, C.
    destruct (0 <? e - E) eqn:L2.
    + apply Z.ltb_lt in L2.
      replace (E <? e) with true in V by (symmetry; apply Z.ltb_lt; lia).
      replace (E + (e - E)) with e by lia.
      assert (R : rne_of (Zpos P) (e - E) = Zpos m).
      { unfold rne_of. rewrite V, Z.div_mul, Z.mod_mul
          by (apply Z.pow_nonzero; lia).
        replace (2 * 0 <? 2 ^ (e - E)) with true; [lia|].
        symmetry. apply Z.ltb_lt. assert (0 < 2 ^ (e - E)) by (apply Z.pow_pos_nonneg; lia). lia. }
      rewrite R. exact F.
    + apply Z.ltb_ge in L2. assert (E = e) by lia. subst E.
      rewrite Z.ltb_irrefl, Z.sub_diag, Z.pow_0_r, Z.mul_1_r in V.
      injection V as ->. exact F.
Qed.

(** A number with at most 53 significant bits and an exponent in range
    is representable. *)
Lemma binary_round_small (s : bool) (P : positive) (E : Z) :
  Zdigits2 (Zpos P) <= 53 -> -1074 <= E -> E <= 971 ->
  let e := F64exp (Zdigits2 (Zpos P) + E) in
  e <= E /\
  binary_round prec emax s P E
  = S754_finite s (Z.to_pos (Zpos P * 2 ^ (E - e))) e.
Proof.
  intros D L U e.
  assert (Le : e <= E) by (unfold e; rewrite F64exp_eq; lia).
  split; [exact Le|].
  assert (Pp : 0 < Zpos P * 2 ^ (E - e)).
  { apply Z.mul_pos_pos; [lia | apply Z.pow_pos_nonneg; lia]. }
  apply binary_round_exact.
  - rewrite Z2Pos.id by exact Pp. rewrite Zdigits2_mul_pow2 by lia.
    replace (Zdigits2 (Zpos P) + (E - e) + e) with (Zdigits2 (Zpos P) + E) by lia.
    reflexivity.
  - lia.
  - replace (E <? e) with false by (symmetry; apply Z.ltb_ge; lia).
    rewrite Z2Pos.id by exact Pp. reflexivity.
Qed.

Lemma Zdigits2_div_pow2 (m k : Z) :
  0 <= k -> 0 < m / 2 ^ k -> Zdigits2 (m / 2 ^ k) = Zdigits2 m - k.
Proof.
  intros Hk Hq.
  assert (P2 : 0 < 2 ^ k) by (apply Z.pow_pos_nonneg; lia).
  assert (Hm : 2 ^ k <= m).
  { destruct (Z.lt_ge_cases m (2 ^ k)) as [L|L]; [|exact L].
    destruct (Z.lt_ge_cases m 0) as [N|N].
    - assert (m / 2 ^ k < 0) by (apply Z.div_lt_upper_bound; lia). lia.
    - rewrite Z.div_small in Hq by lia. lia. }
  pose proof (Zdigits2_bounds m ltac:(lia)) as [B1 B2].
  assert (Dk : k < Zdigits2 m).
  { destruct (Z.lt_ge_cases k (Zdigits2 m)) as [L|L]; [exact L|].
    assert (2 ^ Zdigits2 m <= 2 ^ k) by (apply Z.pow_le_mono_r; lia). lia. }
  apply Zdigits2_unique; [exact Hq|]. split.
  - apply Z.div_le_lower_bound; [exact P2|].
    rewrite <- Z.pow_add_r by lia.
    replace (k + (Zdigits2 m - k - 1)) with (Zdigits2 m - 1) by lia. exact B1.
  - apply Z.div_lt_upper_bound; [exact P2|].
    rewrite <- Z.pow_add_r by lia.
    replace (k + (Zdigits2 m - k)) with (Zdigits2 m) by lia. exact B2.
Qed.

Lemma binary_normalize_cond (s : bool) (P : positive) (e : Z) (z : bool) :
  binary_normalize prec emax (cond_Zopp s (Zpos P)) e z
  = binary_round prec emax s P e.
Proof. destruct s; reflexivity. Qed.

(** ** [int(x)] and [float(n)] on binary64 *)

Lemma magnitude_trunc_spec (m : positive) (e : Z) :
  magnitude_trunc m e
  = (if 0 <=? e then Zpos m * 2 ^ e else Zpos m / 2 ^ (- e)).
Proof.
  unfold magnitude_trunc. destruct (0 <=? e) eqn:L.
  - apply Z.leb_le in L. apply Z.shiftl_mul_pow2. exact L.
  - apply Z.leb_gt in L. rewrite <- Z.shiftr_opp_r.
    apply Z.shiftr_div_pow2. lia.
Qed.

Lemma magnitude_trunc_nonneg (m : positive) (e : Z) : 0 <= magnitude_trunc m e.
Proof.
  rewrite magnitude_trunc_spec. destruct (0 <=? e) eqn:L.
  - apply Z.leb_le in L. assert (0 < 2 ^ e) by (apply Z.pow_pos_nonneg; lia). nia.
  - apply Z.leb_gt in L. apply Z.div_pos; [lia | apply Z.pow_pos_nonneg; lia].
Qed.

Lemma cond_Zopp_0 (s : bool) : cond_Zopp s 0 = 0.
Proof. now destruct s. Qed.

Lemma cond_Zopp_sub (s : bool) (a b : Z) :
  cond_Zopp s a - cond_Zopp s b = cond_Zopp s (a - b).
Proof. destruct s; simpl; lia. Qed.

Lemma trunc_canonical (m : positive) (e : Z) :
  F64exp (Zdigits2 (Zpos m) + e) = e -> e < 0 ->
  0 < magnitude_trunc m e ->
  F64exp (Zdigits2 (magnitude_trunc m e * 2 ^ (- e)) + e) = e.
Proof.
  intros C L Hh. rewrite Zdigits2_mul_pow2 by lia.
  rewrite magnitude_trunc_spec in *.
  replace (0 <=? e) with false in * by (symmetry; apply Z.leb_gt; lia).
  rewrite Zdigits2_div_pow2 by lia.
  replace (Zdigits2 (Zpos m) - - e + - e + e) with (Zdigits2 (Zpos m) + e) by lia.
  exact C.
Qed.

(** [float(int(t))] for a finite [t]: the integer part of [t] is again a
    binary64 number, with the exponent of [t] when it is not zero. *)
Lemma SF_of_Z_trunc (s : bool) (m : positive) (e : Z) :
  valid_binary (S754_finite s m e) = true ->
  let h := magnitude_trunc m e in
  SF_of_Z (cond_Zopp s h)
  = (if h =? 0 then S754_zero false
     else if 0 <=? e then S754_finite s m e
     else S754_finite s (Z.to_pos (h * 2 ^ (- e))) e).
Proof.
  intros V h. apply valid_finite in V. destruct V as [C B].
  pose proof (magnitude_trunc_nonneg m e) as Hh. fold h in Hh.
  destruct (Z.eqb_spec h 0) as [Z0|NZ].
  { rewrite Z0, cond_Zopp_0. reflexivity. }
  assert (Eh := magnitude_trunc_spec m e). fold h in Eh.
  pose proof (trunc_canonical m e C) as TC. fold h in TC.
  destruct h as [|P|P] eqn:EP; [lia| |lia].
  unfold SF_of_Z. rewrite binary_normalize_cond.
  destruct (0 <=? e) eqn:L.
  - apply Z.leb_le in L. apply binary_round_exact; [exact C | exact B |].
    destruct (0 <? e) eqn:L'.
    + rewrite Z.sub_0_r. exact Eh.
    + apply Z.ltb_ge in L'. assert (e = 0) by lia. subst e.
      rewrite Z.pow_0_r, Z.mul_1_r in *. exact Eh.
  - apply Z.leb_gt in L.
    assert (P2 : 0 < 2 ^ (- e)) by (apply Z.pow_pos_nonneg; lia).
    assert (Pp : 0 < Zpos P * 2 ^ (- e)) by nia.
    apply binary_round_exact.
    + rewrite Z2Pos.id by exact Pp. apply TC; lia.
    + exact B.
    + replace (0 <? e) with false by (symmetry; apply Z.ltb_ge; lia).
      rewrite Z2Pos.id by exact Pp. rewrite Z.sub_0_l. reflexivity.
Qed.

Lemma SF_of_Z_trunc_valid (s : bool) (m : positive) (e : Z) :
  valid_binary (S754_finite s m e) = true ->
  valid_binary (SF_of_Z (cond_Zopp s (magnitude_trunc m e))) = true.
Proof.
  intros V. rewrite SF_of_Z_trunc by exact V.
  pose proof (magnitude_trunc_nonneg m e) as Hh.
  destruct (Z.eqb_spec (magnitude_trunc m e) 0) as [Z0|NZ]; [reflexivity|].
  destruct (0 <=? e) eqn:L; [exact V|].
  apply Z.leb_gt in L. apply valid_finite in V. destruct V as [C B].
  apply valid_finite. split; [|exact B].
  assert (P2 : 0 < 2 ^ (- e)) by (apply Z.pow_pos_nonneg; lia).
  rewrite Z2Pos.id by nia. apply trunc_canonical; lia.
Qed.

Lemma SFsub_trunc (s : bool) (m : positive) (e : Z) :
  valid_binary (S754_finite s m e) = true ->
  SF64sub (S754_finite s m e) (SF_of_Z (cond_Zopp s (magnitude_trunc m e)))
  = frac_of s m e.
Proof.
  intros V. rewrite SF_of_Z_trunc by exact V.
  apply valid_finite in V. destruct V as [C B].
  pose proof (canonical_digits (Zpos m) e ltac:(lia) C) as (Lo & Dm & Dn).
  pose proof (magnitude_trunc_nonneg m e) as Hh.
  assert (Eh := magnitude_trunc_spec m e).
  unfold frac_of. set (h := magnitude_trunc m e) in *.
  destruct (0 <=? e) eqn:L.
  - apply Z.leb_le in L.
    assert (0 < 2 ^ e) by (apply Z.pow_pos_nonneg; lia).
    replace (h =? 0) with false by (symmetry; apply Z.eqb_neq; nia).
    unfold SF64sub, SFsub. rewrite Z.min_id, shl_align_spec, Z.ltb_irrefl.
    cbn [fst]. rewrite Z.sub_diag. reflexivity.
  - apply Z.leb_gt in L.
    assert (P2 : 0 < 2 ^ (- e)) by (apply Z.pow_pos_nonneg; lia).
    pose proof (Z.div_mod (Zpos m) (2 ^ (- e)) ltac:(lia)) as DM.
    pose proof (Z.mod_pos_bound (Zpos m) (2 ^ (- e)) P2) as MB.
    rewrite <- Eh in DM.
    set (D := Zpos m mod 2 ^ (- e)) in *.
    destruct (Z.eqb_spec h 0) as [Z0|NZ].
    + (* no integer part: the fraction is the number itself *)
      assert (ED : D = Zpos m) by lia.
      rewrite ED. cbn [Z.eqb]. rewrite C, Z.sub_diag, Z.pow_0_r, Z.mul_1_r, Pos2Z.id.
      reflexivity.
    + assert (Pp : 0 < h * 2 ^ (- e)) by nia.
      unfold SF64sub, SFsub. rewrite Z.min_id, !shl_align_spec, Z.ltb_irrefl.
      cbn [fst]. rewrite Z2Pos.id by exact Pp.
      rewrite cond_Zopp_sub.
      replace (Zpos m - h * 2 ^ (- e)) with D by lia.
      destruct (Z.eqb_spec D 0) as [D0|DN].
      * rewrite D0, cond_Zopp_0. reflexivity.
      * destruct D as [|P|P] eqn:EP; [lia| |lia].
        rewrite binary_normalize_cond.
        assert (DP : Zdigits2 (Zpos P) <= 53).
        { apply Zdigits2_le_pow; [lia|]. split; [lia|].
          pose proof (Zdigits2_bounds (Zpos m) ltac:(lia)) as [_ U].
          assert (2 ^ Zdigits2 (Zpos m) <= 2 ^ 53) by (apply Z.pow_le_mono_r; lia).
          lia. }
        apply (binary_round_small s P e DP); lia.
Qed.

Lemma rne_of_cases (P k : Z) :
  rne_of P k = P / 2 ^ k \/
  (rne_of P k = P / 2 ^ k + 1 /\ 2 ^ k <= 2 * (P mod 2 ^ k)).
Proof.
  unfold rne_of.
  destruct (2 * (P mod 2 ^ k) <? 2 ^ k) eqn:C1; [left; lia|].
  apply Z.ltb_ge in C1.
  destruct (2 * (P mod 2 ^ k) =? 2 ^ k); [destruct (Z.even (P / 2 ^ k))|].
  - left; lia.
  - right; split; [lia | exact C1].
  - right; split; [lia | exact C1].
Qed.

(** What [finish] returns when the value stays below [2^6]: zero or a
    finite number, never an infinity, and its integer part is that of
    [m * 2^e]. *)
Lemma finish_small (s : bool) (m e : Z) :
  0 <= m -> e <= -47 -> m < 2 ^ (6 - e) ->
  finish s m e = S754_zero s \/
  exists (m' : positive) (e' : Z),
    finish s m e = S754_finite s m' e' /\
    e' < 0 /\ Zpos m' / 2 ^ (- e') = m / 2 ^ (- e).
Proof.
  intros Hm He Hb. unfold finish.
  assert (Dm : Zdigits2 m <= 6 - e) by (apply Zdigits2_le_pow; lia).
  set (k := F64exp (Zdigits2 m + e) - e).
  assert (Ek : e + k <= -47).
  { unfold k. rewrite F64exp_eq. lia. }
  destruct (0 <? k) eqn:L.
  - apply Z.ltb_lt in L.
    destruct (m / 2 ^ k) as [|p|p] eqn:Q.
    + left. reflexivity.
    + right. exists p, (e + k).
      replace (e + k <=? 971) with true by (symmetry; apply Z.leb_le; lia).
      split; [reflexivity|]. split; [lia|].
      rewrite <- Q, Z.div_div by (try apply Z.pow_pos_nonneg; lia).
      rewrite <- Z.pow_add_r by lia. f_equal. f_equal. lia.
    + assert (0 <= m / 2 ^ k) by (apply Z.div_pos; [lia | apply Z.pow_pos_nonneg; lia]).
      lia.
  - destruct m as [|p|p]; [left; reflexivity | | lia].
    right. exists p, e.
    replace (e <=? 971) with true by (symmetry; apply Z.leb_le; lia).
    split; [reflexivity|]. split; [lia | reflexivity].
Qed.

(** Multiplying a fraction below one by [60.0] gives less than sixty,
    also after rounding. *)
Lemma SFmul_sixty (s : bool) (mf : positive) (ef : Z) :
  valid_binary (S754_finite s mf ef) = true ->
  ef < 0 -> Zpos mf < 2 ^ (- ef) ->
  SF64mul (S754_finite s mf ef) sixty = S754_zero s \/
  exists (m' : positive) (e' : Z),
    SF64mul (S754_finite s mf ef) sixty = S754_finite s m' e' /\
    magnitude_trunc m' e' <= 59.
Proof.
  intros V Ne Hf. apply valid_finite in V. destruct V as [C _].
  pose proof (canonical_digits (Zpos mf) ef ltac:(lia) C) as (Lo & Dm & _).
  unfold SF64mul, SFmul, sixty.
  replace (xorb s false) with s by (destruct s; reflexivity).
  rewrite bra_spec by lia. unfold round_spec.
  rewrite Pos2Z.inj_mul.
  set (B := Zpos sixty_m). set (P := Zpos mf * B). set (E := ef + -47).
  assert (EB : B = 60 * 2 ^ 47) by reflexivity.
  assert (P47 : 0 < 2 ^ 47) by (apply Z.pow_pos_nonneg; lia).
  assert (PE : 0 < 2 ^ (- ef)) by (apply Z.pow_pos_nonneg; lia).
  assert (Pw : 2 ^ (- E) = 2 ^ (- ef) * 2 ^ 47).
  { unfold E. rewrite <- Z.pow_add_r by lia. f_equal. lia. }
  assert (PP : 0 < P) by (unfold P; nia).
  (* the product is at most [60 * 2^(-E) - B] *)
  assert (UB : P <= 60 * 2 ^ (- E) - B).
  { rewrite Pw. unfold P. rewrite EB. nia. }
  assert (Bf : Zpos mf < 2 ^ 53).
  { pose proof (Zdigits2_bounds (Zpos mf) ltac:(lia)) as [_ U].
    assert (2 ^ Zdigits2 (Zpos mf) <= 2 ^ 53) by (apply Z.pow_le_mono_r; lia).
    lia. }
  assert (DP : Zdigits2 P <= 106).
  { apply Zdigits2_le_pow; [lia|]. split; [lia|].
    change (2 ^ 106) with (2 ^ 53 * 2 ^ 53). unfold P.
    assert (B < 2 ^ 53) by (rewrite EB; reflexivity).
    assert (0 < B) by (rewrite EB; lia).
    assert (0 < 2 ^ 53) by reflexivity. nia. }
  assert (DE : Zdigits2 P + E <= 6).
  { assert (Zdigits2 P <= 6 - E); [|lia].
    apply Zdigits2_le_pow; [lia|]. split; [lia|].
    replace (6 - E) with (6 + - E) by lia. rewrite Z.pow_add_r by lia.
    change (2 ^ 6) with 64. assert (0 < B) by (rewrite EB; lia). lia. }
  set (k := F64exp (Zdigits2 P + E) - E).
  assert (K53 : k <= 53) by (unfold k, E; rewrite F64exp_eq; lia).
  assert (KE : E + k <= -47) by (unfold k; rewrite F64exp_eq; lia).
  assert (R : forall m e,
             0 <= m -> e <= -47 -> m / 2 ^ (- e) <= 59 ->
             finish s m e = S754_zero s \/
             exists (m' : positive) (e' : Z),
               finish s m e = S754_finite s m' e' /\
               magnitude_trunc m' e' <= 59).
  { intros m e Hm He Hq.
    assert (Pe : 0 < 2 ^ (- e)) by (apply Z.pow_pos_nonneg; lia).
    assert (Hb : m < 2 ^ (6 - e)).
    { replace (6 - e) with (6 + - e) by lia. rewrite Z.pow_add_r by lia.
      change (2 ^ 6) with 64.
      pose proof (Z.div_mod m (2 ^ (- e)) ltac:(lia)).
      pose proof (Z.mod_pos_bound m (2 ^ (- e)) Pe). nia. }
    destruct (finish_small s m e Hm He Hb) as [Z0|(m' & e' & Ef & Ne' & Q)];
      [left; exact Z0|].
    right. exists m', e'. split; [exact Ef|].
    rewrite magnitude_trunc_spec.
    replace (0 <=? e') with false by (symmetry; apply Z.leb_gt; lia).
    rewrite Q. exact Hq. }
  destruct (0 <? k) eqn:L.
  - apply Z.ltb_lt in L.
    assert (Pk : 0 < 2 ^ k) by (apply Z.pow_pos_nonneg; lia).
    assert (Per : 0 < 2 ^ (- (E + k))) by (apply Z.pow_pos_nonneg; lia).
    assert (Sp : 2 ^ (- E) = 2 ^ (- (E + k)) * 2 ^ k).
    { rewrite <- Z.pow_add_r by lia. f_equal. lia. }
    pose proof (Z.div_mod P (2 ^ k) ltac:(lia)) as DM.
    pose proof (Z.mod_pos_bound P (2 ^ k) Pk) as MB.
    assert (T53 : 2 ^ k <= 2 ^ 53) by (apply Z.pow_le_mono_r; lia).
    assert (B2 : 2 ^ 53 < 2 * B) by (rewrite EB; reflexivity).
    assert (M1 : 0 <= rne_of P k < 60 * 2 ^ (- (E + k))).
    { assert (0 <= P / 2 ^ k) by (apply Z.div_pos; lia).
      destruct (rne_of_cases P k) as [->|[-> Up]]; split; try lia; nia. }
    apply R; [lia | lia |].
    assert (rne_of P k / 2 ^ (- (E + k)) < 60); [|lia].
    apply Z.div_lt_upper_bound; lia.
  - apply R; [lia | lia |].
    assert (PE' : 0 < 2 ^ (- E)) by (apply Z.pow_pos_nonneg; lia).
    assert (P / 2 ^ (- E) < 60); [|lia].
    apply Z.div_lt_upper_bound; [lia|].
    assert (0 < B) by (rewrite EB; lia). lia.
Qed.

(** The fraction is a binary64 number below one in magnitude, with the
    sign of the number. *)
Lemma frac_of_finite (s : bool) (m : positive) (e : Z)
    (s' : bool) (mf : positive) (ef : Z) :
  valid_binary (S754_finite s m e) = true ->
  frac_of s m e = S754_finite s' mf ef ->
  s' = s /\ ef < 0 /\ Zpos mf < 2 ^ (- ef) /\
  valid_binary (S754_finite s' mf ef) = true.
Proof.
  intros V. apply valid_finite in V. destruct V as [C B].
  pose proof (canonical_digits (Zpos m) e ltac:(lia) C) as (Lo & Dm & _).
  unfold frac_of. destruct (0 <=? e) eqn:L; [discriminate|].
  apply Z.leb_gt in L.
  assert (P2 : 0 < 2 ^ (- e)) by (apply Z.pow_pos_nonneg; lia).
  pose proof (Z.mod_pos_bound (Zpos m) (2 ^ (- e)) P2) as MB.
  set (D := Zpos m mod 2 ^ (- e)) in *.
  destruct (Z.eqb_spec D 0) as [D0|DN]; [discriminate|].
  set (e' := F64exp (Zdigits2 D + e)).
  intros E. injection E as <- <- <-.
  assert (DD : Zdigits2 D <= 53).
  { apply Zdigits2_le_pow; [lia|]. split; [lia|].
    pose proof (Zdigits2_bounds (Zpos m) ltac:(lia)) as [_ U].
    assert (2 ^ Zdigits2 (Zpos m) <= 2 ^ 53) by (apply Z.pow_le_mono_r; lia).
    pose proof (Z.mod_le (Zpos m) (2 ^ (- e)) ltac:(lia) P2) as ML.
    fold D in ML. lia. }
  assert (Le : e' <= e) by (unfold e'; rewrite F64exp_eq; lia).
  assert (P3 : 0 < 2 ^ (e - e')) by (apply Z.pow_pos_nonneg; lia).
  split; [reflexivity|]. split; [lia|]. split.
  - rewrite Z2Pos.id by nia.
    replace (- e') with (- e + (e - e')) by lia.
    rewrite Z.pow_add_r by lia. nia.
  - apply valid_finite. split; [|lia].
    rewrite Z2Pos.id by nia. rewrite Zdigits2_mul_pow2 by lia.
    replace (Zdigits2 D + (e - e') + e') with (Zdigits2 D + e) by lia.
    reflexivity.
Qed.

Lemma frac_of_shape (s : bool) (m : positive) (e : Z) :
  frac_of s m e = S754_zero false \/
  exists (mf : positive) (ef : Z), frac_of s m e = S754_finite s mf ef.
Proof.
  unfold frac_of. destruct (0 <=? e); [left; reflexivity|].
  destruct (_ =? 0); [left; reflexivity|].
  right. eexists _, _. reflexivity.
Qed.

(** ** Rounding from any location, and division *)

Lemma shr_fexp_any (m e : Z) (l : location) :
  0 <= m ->
  let k := F64exp (Zdigits2 m + e) - e in
  shr_m (fst (shr_fexp prec emax m e l)) = (if 0 <? k then m / 2 ^ k else m) /\
  snd (shr_fexp prec emax m e l) = (if 0 <? k then e + k else e).
Proof.
  intros H k. unfold shr_fexp, shr. fold (F64exp (Zdigits2 m + e)). fold k.
  assert (R : exists r s, shr_record_of_loc m l
                          = {| shr_m := m; shr_r := r; shr_s := s |}).
  { destruct l as [|[]]; eexists _, _; reflexivity. }
  destruct R as (r & s & ->).
  destruct k as [|p|p] eqn:Ek; cbn [fst snd shr_m Z.ltb Z.compare];
    try (split; reflexivity).
  rewrite iter_pos_nat, shr_iter_m by exact H.
  rewrite positive_nat_Z. split; reflexivity.
Qed.

Lemma round_nearest_even_bounds (m : Z) (l : location) :
  m <= round_nearest_even m l <= m + 1.
Proof.
  destruct l as [|[]]; cbn [round_nearest_even]; try lia.
  destruct (Z.even m); lia.
Qed.

(** Rounding is one shift, one step up at most, and [finish]. *)
Lemma bra_finish (s : bool) (mx ex : Z) (lx : location) :
  0 <= mx ->
  let k := F64exp (Zdigits2 mx + ex) - ex in
  let M := if 0 <? k then mx / 2 ^ k else mx in
  let e1 := if 0 <? k then ex + k else ex in
  exists m1 : Z,
    M <= m1 <= M + 1 /\
    binary_round_aux prec emax s mx ex lx = finish s m1 e1.
Proof.
  intros H k M e1. unfold binary_round_aux.
  pose proof (shr_fexp_any mx ex lx H) as [S1m S1e]. fold k in S1m, S1e.
  destruct (shr_fexp prec emax mx ex lx) as [mrs' e'].
  cbn [fst snd] in S1m, S1e.
  set (m1 := round_nearest_even (shr_m mrs') (loc_of_shr_record mrs')).
  pose proof (round_nearest_even_bounds (shr_m mrs') (loc_of_shr_record mrs'))
    as B. fold m1 in B. rewrite S1m in B. fold M in B.
  assert (HM : 0 <= M).
  { unfold M. destruct (0 <? k) eqn:L; [|exact H].
    apply Z.ltb_lt in L. apply Z.div_pos; [lia | apply Z.pow_pos_nonneg; lia]. }
  exists m1. split; [exact B|].
  pose proof (shr_fexp_any m1 e' loc_Exact ltac:(lia)) as [S2m S2e].
  destruct (shr_fexp prec emax m1 e' loc_Exact) as [mrs'' e''].
  cbn [fst snd] in S2m, S2e. rewrite S2m, S2e, S1e. reflexivity.
Qed.

Lemma finish_shape (s : bool) (m e : Z) :
  0 <= m ->
  finish s m e = S754_zero s \/
  (exists (m' : positive) (e' : Z), finish s m e = S754_finite s m' e') \/
  finish s m e = S754_infinity s.
Proof.
  intros H. unfold finish.
  set (k := F64exp (Zdigits2 m + e) - e).
  assert (N : 0 <= (if 0 <? k then m / 2 ^ k else m)).
  { destruct (0 <? k) eqn:L; [|exact H].
    apply Z.ltb_lt in L. apply Z.div_pos; [lia | apply Z.pow_pos_nonneg; lia]. }
  destruct (if 0 <? k then m / 2 ^ k else m) as [|p|p]; [now left| |lia].
  destruct (_ <=? 971); [right; left; eexists _, _; reflexivity | now right; right].
Qed.

Lemma finish_finite (s : bool) (m e : Z) :
  0 <= m -> e <= 971 -> Zdigits2 m + e <= 1024 ->
  finish s m e = S754_zero s \/
  exists (m' : positive) (e' : Z), finish s m e = S754_finite s m' e'.
Proof.
  intros H He Hd. unfold finish.
  set (k := F64exp (Zdigits2 m + e) - e).
  assert (Ek : e + k <= 971) by (unfold k; rewrite F64exp_eq; lia).
  assert (N : 0 <= (if 0 <? k then m / 2 ^ k else m)).
  { destruct (0 <? k) eqn:L; [|exact H].
    apply Z.ltb_lt in L. apply Z.div_pos; [lia | apply Z.pow_pos_nonneg; lia]. }
  destruct (if 0 <? k then m / 2 ^ k else m) as [|p|p]; [now left| |lia].
  right. exists p, (if 0 <? k then e + k else e).
  replace ((if 0 <? k then e + k else e) <=? 971) with true; [reflexivity|].
  symmetry. apply Z.leb_le. destruct (0 <? k); lia.
Qed.

Lemma bra_shape (s : bool) (mx ex : Z) (lx : location) :
  0 <= mx ->
  binary_round_aux prec emax s mx ex lx = S754_zero s \/
  (exists (m' : positive) (e' : Z),
      binary_round_aux prec emax s mx ex lx = S754_finite s m' e') \/
  binary_round_aux prec emax s mx ex lx = S754_infinity s.
Proof.
  intros H. destruct (bra_finish s mx ex lx H) as (m1 & B & ->).
  apply finish_shape.
  destruct (0 <? _) eqn:L; [|lia].
  apply Z.ltb_lt in L.
  assert (0 <= mx / 2 ^ (F64exp (Zdigits2 mx + ex) - ex))
    by (apply Z.div_pos; [lia | apply Z.pow_pos_nonneg; lia]).
  lia.
Qed.

Lemma Zdigits2_succ (m : Z) : 0 <= m -> Zdigits2 (m + 1) <= Zdigits2 m + 1.
Proof.
  intros H. pose proof (Zdigits2_nonneg m).
  apply Zdigits2_le_pow; [lia|]. split; [lia|].
  rewrite Z.pow_add_r by lia.
  destruct (Z.eq_dec m 0) as [->|N].
  - cbn. lia.
  - pose proof (Zdigits2_bounds m ltac:(lia)). change (2 ^ 1) with 2. lia.
Qed.

Lemma Zdigits2_le (m n : Z) : 0 <= m <= n -> Zdigits2 m <= Zdigits2 n.
Proof.
  intros H. destruct (Z.eq_dec n 0) as [->|N].
  - assert (m = 0) by lia. subst m. lia.
  - apply Zdigits2_le_pow; [apply Zdigits2_nonneg|].
    pose proof (Zdigits2_bounds n ltac:(lia)). lia.
Qed.

Lemma bra_finite (s : bool) (mx ex : Z) (lx : location) :
  0 <= mx -> ex <= 971 -> Zdigits2 mx + ex <= 1023 ->
  binary_round_aux prec emax s mx ex lx = S754_zero s \/
  exists (m' : positive) (e' : Z),
    binary_round_aux prec emax s mx ex lx = S754_finite s m' e'.
Proof.
  intros H He Hd. destruct (bra_finish s mx ex lx H) as (m1 & B & ->).
  set (k := F64exp (Zdigits2 mx + ex) - ex) in *.
  assert (Ek : ex + k <= 970 \/ k <= 0) by (unfold k; rewrite F64exp_eq; lia).
  destruct (0 <? k) eqn:L.
  - apply Z.ltb_lt in L.
    assert (P2 : 0 < 2 ^ k) by (apply Z.pow_pos_nonneg; lia).
    assert (N : 0 <= mx / 2 ^ k) by (apply Z.div_pos; lia).
    apply finish_finite; [lia | lia |].
    pose proof (Zdigits2_le m1 (mx / 2 ^ k + 1) ltac:(lia)) as D1.
    pose proof (Zdigits2_succ (mx / 2 ^ k) N) as D2.
    destruct (Z.eq_dec (mx / 2 ^ k) 0) as [Z0|NZ].
    + rewrite Z0 in *. change (Zdigits2 (0 + 1)) with 1 in D1. lia.
    + rewrite Zdigits2_div_pow2 in D2 by lia. lia.
  - apply Z.ltb_ge in L. apply finish_finite; [lia | lia |].
    pose proof (Zdigits2_le m1 (mx + 1) ltac:(lia)) as D1.
    pose proof (Zdigits2_succ mx H) as D2. lia.
Qed.

Lemma SFdiv_core_spec (m1 : positive) (e1 : Z) (m2 : positive) (e2 : Z) :
  exists (q ez : Z) (lz : location),
    SFdiv_core_binary prec emax (Zpos m1) e1 (Zpos m2) e2 = (q, ez, lz) /\
    0 <= q /\
    ez <= F64exp (Zdigits2 (Zpos m1) + e1 - (Zdigits2 (Zpos m2) + e2)) /\
    (0 < q ->
     Zdigits2 q + ez
     <= Zdigits2 (Zpos m1) + e1 - (Zdigits2 (Zpos m2) + e2) + 1).
Proof.
  unfold SFdiv_core_binary.
  set (d1 := Zdigits2 (Zpos m1)). set (d2 := Zdigits2 (Zpos m2)).
  fold (F64exp (d1 + e1 - (d2 + e2))).
  set (ez := Z.min (F64exp (d1 + e1 - (d2 + e2))) (e1 - e2)).
  set (sh := e1 - e2 - ez).
  set (m' := match sh with
             | 0 => Zpos m1
             | Zpos _ => Z.shiftl (Zpos m1) sh
             | Zneg _ => 0
             end).
  assert (Hs : 0 <= sh) by (unfold sh, ez; lia).
  assert (Em : m' = Zpos m1 * 2 ^ sh).
  { unfold m'. destruct sh as [|p|p] eqn:E; [lia| |lia].
    apply Z.shiftl_mul_pow2. lia. }
  pose proof (Z.div_mod m' (Zpos m2) ltac:(lia)) as DM.
  pose proof (Z.mod_pos_bound m' (Zpos m2) ltac:(lia)) as MB.
  unfold Z.div, Z.modulo in DM, MB.
  destruct (Z.div_eucl m' (Zpos m2)) as [q r].
  exists q, ez, (new_location (Zpos m2) r).
  split; [reflexivity|].
  pose proof (Zdigits2_bounds (Zpos m1) ltac:(lia)) as [_ U1]. fold d1 in U1.
  pose proof (Zdigits2_bounds (Zpos m2) ltac:(lia)) as [L2 _]. fold d2 in L2.
  pose proof (Zdigits2_pos (Zpos m2) ltac:(lia)) as P2. fold d2 in P2.
  pose proof (Zdigits2_pos (Zpos m1) ltac:(lia)) as P1. fold d1 in P1.
  assert (Ps : 0 < 2 ^ sh) by (apply Z.pow_pos_nonneg; lia).
  assert (Pd : 0 < 2 ^ (d2 - 1)) by (apply Z.pow_pos_nonneg; lia).
  assert (Hq : 0 <= q) by nia.
  split; [exact Hq|]. split; [unfold ez; lia|].
  intros Pq.
  (* q * 2^(d2-1) <= q * m2 <= m' < 2^(d1+sh) *)
  assert (Ub : q * 2 ^ (d2 - 1) < 2 ^ (d1 + sh)).
  { rewrite Z.pow_add_r by lia. nia. }
  assert (Ex : d2 - 1 < d1 + sh).
  { destruct (Z.lt_ge_cases (d2 - 1) (d1 + sh)) as [A|A]; [exact A|].
    assert (2 ^ (d1 + sh) <= 2 ^ (d2 - 1)) by (apply Z.pow_le_mono_r; lia).
    nia. }
  assert (Dq : Zdigits2 q <= d1 + sh - d2 + 1).
  { apply Zdigits2_le_pow; [lia|]. split; [lia|].
    assert (E2 : 2 ^ (d1 + sh) = 2 ^ (d1 + sh - d2 + 1) * 2 ^ (d2 - 1)).
    { rewrite <- Z.pow_add_r by lia. f_equal. lia. }
    rewrite E2 in Ub. nia. }
  unfold sh in Dq. lia.
Qed.

(** Dividing by a number that is at least two never overflows. *)
Lemma SFdiv_finite (sx : bool) (mx : positive) (ex : Z)
    (sy : bool) (my : positive) (ey : Z) :
  valid_binary (S754_finite sx mx ex) = true ->
  2 <= Zdigits2 (Zpos my) + ey ->
  SF64div (S754_finite sx mx ex) (S754_finite sy my ey)
  = S754_zero (xorb sx sy) \/
  exists (m' : positive) (e' : Z),
    SF64div (S754_finite sx mx ex) (S754_finite sy my ey)
    = S754_finite (xorb sx sy) m' e'.
Proof.
  intros V Hy. apply valid_finite in V. destruct V as [C B].
  pose proof (canonical_digits (Zpos mx) ex ltac:(lia) C) as (Lo & Dm & _).
  unfold SF64div, SFdiv.
  destruct (SFdiv_core_spec mx ex my ey) as (q & ez & lz & -> & Hq & Hez & Hd).
  rewrite F64exp_eq in Hez.
  apply bra_finite; [exact Hq | lia |].
  destruct (Z.eq_dec q 0) as [->|N]; [cbn; lia|].
  specialize (Hd ltac:(lia)). lia.
Qed.

(** The sign of a quotient of finite numbers. *)
Lemma SFdiv_shape (sx : bool) (mx : positive) (ex : Z)
    (sy : bool) (my : positive) (ey : Z) :
  let r := SF64div (S754_finite sx mx ex) (S754_finite sy my ey) in
  r = S754_zero (xorb sx sy) \/
  (exists (m' : positive) (e' : Z), r = S754_finite (xorb sx sy) m' e') \/
  r = S754_infinity (xorb sx sy).
Proof.
  unfold SF64div, SFdiv.
  destruct (SFdiv_core_spec mx ex my ey) as (q & ez & lz & -> & Hq & _).
  apply bra_shape. exact Hq.
Qed.

End FloatFacts.

(** ** The exact value of a binary64 number *)

Section ValueFacts.

Lemma cond_Zopp_mul (s : bool) (a b : Z) :
  cond_Zopp s a * b = cond_Zopp s (a * b).
Proof. destruct s; simpl; lia. Qed.

Lemma Qfloor_SF2Q (m : positive) (e : Z) :
  Qfloor (SF2Q (S754_finite false m e)) = magnitude_trunc m e.
Proof.
  rewrite magnitude_trunc_spec. cbn [SF2Q cond_Zopp].
  destruct (0 <=? e) eqn:L.
  - apply Qfloor_Z.
  - apply Z.leb_gt in L. cbn [Qfloor].
    rewrite Z2Pos.id by (apply Z.pow_pos_nonneg; lia). reflexivity.
Qed.

Lemma Qceiling_SF2Q (m : positive) (e : Z) :
  Qceiling (SF2Q (S754_finite true m e)) = - magnitude_trunc m e.
Proof.
  rewrite magnitude_trunc_spec. cbn [SF2Q cond_Zopp].
  destruct (0 <=? e) eqn:L.
  - rewrite Qceiling_Z. lia.
  - apply Z.leb_gt in L. unfold Qceiling. cbn [Qopp Qnum Qden Qfloor].
    rewrite Z2Pos.id by (apply Z.pow_pos_nonneg; lia).
    rewrite Z.opp_involutive. reflexivity.
Qed.

Lemma SF2Q_pos (m : positive) (e : Z) :
  (0 < SF2Q (S754_finite false m e))%Q.
Proof.
  cbn [SF2Q cond_Zopp]. destruct (0 <=? e) eqn:L.
  - apply Z.leb_le in L. change 0%Q with (inject_Z 0). rewrite <- Zlt_Qlt.
    assert (0 < 2 ^ e) by (apply Z.pow_pos_nonneg; lia). nia.
  - reflexivity.
Qed.

Lemma SF2Q_neg (m : positive) (e : Z) :
  (SF2Q (S754_finite true m e) < 0)%Q.
Proof.
  cbn [SF2Q cond_Zopp]. destruct (0 <=? e) eqn:L.
  - apply Z.leb_le in L. change 0%Q with (inject_Z 0). rewrite <- Zlt_Qlt.
    assert (0 < 2 ^ e) by (apply Z.pow_pos_nonneg; lia). nia.
  - reflexivity.
Qed.

(** [int()] is the floor on numbers that are not negative and the ceiling
    on numbers that are not positive. *)
Lemma int_of_float_trunc (x : float) (n : Z) :
  int_of_float x = Some n ->
  ((0 <= to_Q x)%Q -> n = Qfloor (to_Q x)) /\
  ((to_Q x <= 0)%Q -> n = Qceiling (to_Q x)).
Proof.
  unfold int_of_float, to_Q.
  destruct (Prim2SF x) as [s|s| |[] m e]; cbn [SFint]; try discriminate;
    intros [= <-].
  - split; reflexivity.
  - split; intros S.
    + pose proof (SF2Q_neg m e). lra.
    + now rewrite Qceiling_SF2Q.
  - split; intros S.
    + now rewrite Qfloor_SF2Q.
    + pose proof (SF2Q_pos m e). lra.
Qed.

(** The subtraction of line 39 is exact. *)
Lemma SF2Q_frac_of (s : bool) (m : positive) (e : Z) :
  valid_binary (S754_finite s m e) = true ->
  (SF2Q (frac_of s m e)
   == SF2Q (S754_finite s m e)
      - inject_Z (cond_Zopp s (magnitude_trunc m e)))%Q.
Proof.
  intros V. apply valid_finite in V. destruct V as [C B].
  pose proof (canonical_digits (Zpos m) e ltac:(lia) C) as (Lo & Dm & _).
  rewrite magnitude_trunc_spec. unfold frac_of. cbn [SF2Q].
  destruct (0 <=? e) eqn:L.
  - rewrite cond_Zopp_mul. cbn [SF2Q]. ring.
  - apply Z.leb_gt in L.
    assert (P2 : 0 < 2 ^ (- e)) by (apply Z.pow_pos_nonneg; lia).
    pose proof (Z.div_mod (Zpos m) (2 ^ (- e)) ltac:(lia)) as DM.
    pose proof (Z.mod_pos_bound (Zpos m) (2 ^ (- e)) P2) as MB.
    set (h := Zpos m / 2 ^ (- e)) in *.
    set (D := Zpos m mod 2 ^ (- e)) in *.
    destruct (Z.eqb_spec D 0) as [D0|DN].
    + cbn [SF2Q]. unfold Qeq, Qminus, Qplus, Qopp, inject_Z.
      cbn [Qnum Qden]. rewrite Z2Pos.id by exact P2.
      destruct s; cbn [cond_Zopp]; nia.
    + set (e' := F64exp (Zdigits2 D + e)).
      assert (DD : Zdigits2 D <= 53).
      { apply Zdigits2_le_pow; [lia|]. split; [lia|].
        pose proof (Zdigits2_bounds (Zpos m) ltac:(lia)) as [_ U].
        assert (2 ^ Zdigits2 (Zpos m) <= 2 ^ 53)
          by (apply Z.pow_le_mono_r; lia).
        pose proof (Z.mod_le (Zpos m) (2 ^ (- e)) ltac:(lia) P2) as ML.
        fold D in ML. lia. }
      assert (Le : e' <= e) by (unfold e'; rewrite F64exp_eq; lia).
      assert (P3 : 0 < 2 ^ (e - e')) by (apply Z.pow_pos_nonneg; lia).
      assert (P4 : 0 < 2 ^ (- e')) by (apply Z.pow_pos_nonneg; lia).
      assert (E4 : 2 ^ (- e') = 2 ^ (- e) * 2 ^ (e - e')).
      { rewrite <- Z.pow_add_r by lia. f_equal. lia. }
      cbn [SF2Q].
      replace (0 <=? e') with false by (symmetry; apply Z.leb_gt; lia).
      unfold Qeq, Qminus, Qplus, Qopp, inject_Z. cbn [Qnum Qden].
      rewrite !Z2Pos.id by nia. rewrite Pos2Z.inj_mul, !Z2Pos.id by nia.
      rewrite E4. destruct s; cbn [cond_Zopp]; nia.
Qed.

(** Two fractions with power-of-two denominators, one a rounding of the
    other. *)
Lemma fraction_error (m1 P A T : Z) :
  0 < A -> 0 < T -> 2 ^ 47 <= A ->
  2 * Z.abs (m1 * T - P) <= T ->
  (Qabs ((m1 # Z.to_pos A) - (P # Z.to_pos (A * T))) <= 1 # (2 ^ 48))%Q.
Proof.
  intros HA HT H47 HE.
  assert (E : ((m1 # Z.to_pos A) - (P # Z.to_pos (A * T))
               == (m1 * T - P) # Z.to_pos (A * T))%Q).
  { unfold Qeq, Qminus, Qplus, Qopp. cbn [Qnum Qden].
    rewrite Pos2Z.inj_mul, !Z2Pos.id by nia. nia. }
  rewrite E. clear E.
  unfold Qabs, Qle. cbn [Qnum Qden].
  rewrite Z2Pos.id by nia.
  change (Zpos (2 ^ 48)) with (2 * 2 ^ 47).
  assert (0 <= Z.abs (m1 * T - P)) by apply Z.abs_nonneg.
  nia.
Qed.

(** The value of what [finish] returns, below [2^6]. *)
Lemma finish_value (s : bool) (m e : Z) :
  0 <= m <= 2 ^ 53 -> -1074 <= e -> e <= -47 ->
  (SF2Q (finish s m e) == cond_Zopp s m # Z.to_pos (2 ^ (- e)))%Q.
Proof.
  intros [H0 H1] Lo Hi. unfold finish.
  set (k := F64exp (Zdigits2 m + e) - e).
  assert (P2 : 0 < 2 ^ (- e)) by (apply Z.pow_pos_nonneg; lia).
  destruct (Z.eq_dec m 0) as [->|N0].
  { rewrite cond_Zopp_0. destruct (0 <? k) eqn:L.
    - apply Z.ltb_lt in L. rewrite Z.div_0_l by (apply Z.pow_nonzero; lia).
      reflexivity.
    - reflexivity. }
  destruct (Z.eq_dec m (2 ^ 53)) as [->|N1].
  - assert (Ek : k = 1).
    { unfold k. change (Zdigits2 (2 ^ 53)) with 54. rewrite F64exp_eq. lia. }
    rewrite Ek. cbn [Z.ltb Z.compare].
    change (2 ^ 53 / 2 ^ 1) with (Zpos (2 ^ 52)).
    replace (e + 1 <=? 971) with true by (symmetry; apply Z.leb_le; lia).
    cbn [SF2Q].
    replace (0 <=? e + 1) with false by (symmetry; apply Z.leb_gt; lia).
    assert (P3 : 0 < 2 ^ (- (e + 1))) by (apply Z.pow_pos_nonneg; lia).
    assert (E2 : 2 ^ (- e) = 2 * 2 ^ (- (e + 1))).
    { rewrite <- Z.pow_succ_r by lia. f_equal. lia. }
    unfold Qeq. cbn [Qnum Qden]. rewrite !Z2Pos.id by lia.
    rewrite E2. change (2 ^ 53) with (2 * Zpos (2 ^ 52)).
    destruct s; cbn [cond_Zopp]; lia.
  - assert (D : Zdigits2 m <= 53) by (apply Zdigits2_le_pow; lia).
    assert (Ek : k <= 0) by (unfold k; rewrite F64exp_eq; lia).
    replace (0 <? k) with false by (symmetry; apply Z.ltb_ge; lia).
    destruct m as [|p|p]; [lia| |lia].
    replace (e <=? 971) with true by (symmetry; apply Z.leb_le; lia).
    cbn [SF2Q].
    replace (0 <=? e) with false by (symmetry; apply Z.leb_gt; lia).
    reflexivity.
Qed.

(** The product of a fraction below one by [60.0] is within [2^-48] of the
    exact product. *)
Lemma SFmul_sixty_value (s : bool) (mf : positive) (ef : Z) :
  valid_binary (S754_finite s mf ef) = true ->
  ef < 0 -> Zpos mf < 2 ^ (- ef) ->
  (Qabs (SF2Q (SF64mul (S754_finite s mf ef) sixty)
         - 60 * SF2Q (S754_finite s mf ef)) <= 1 # (2 ^ 48))%Q.
Proof.
  intros V Ne Hf. apply valid_finite in V. destruct V as [C _].
  pose proof (canonical_digits (Zpos mf) ef ltac:(lia) C) as (Lo & Dm & _).
  unfold SF64mul, SFmul, sixty.
  replace (xorb s false) with s by (destruct s; reflexivity).
  rewrite bra_spec by lia. unfold round_spec.
  rewrite Pos2Z.inj_mul.
  set (B := Zpos sixty_m). set (P := Zpos mf * B). set (E := ef + -47).
  assert (EB : B = 60 * 2 ^ 47) by reflexivity.
  assert (P47 : 0 < 2 ^ 47) by (apply Z.pow_pos_nonneg; lia).
  assert (PE : 0 < 2 ^ (- ef)) by (apply Z.pow_pos_nonneg; lia).
  assert (Pw : 2 ^ (- E) = 2 ^ (- ef) * 2 ^ 47).
  { unfold E. rewrite <- Z.pow_add_r by lia. f_equal. lia. }
  assert (PP : 0 < P) by (unfold P; nia).
  (* the exact product, as a fraction *)
  assert (X : (60 * SF2Q (S754_finite s mf ef)
               == cond_Zopp s P # Z.to_pos (2 ^ (- E)))%Q).
  { cbn [SF2Q].
    replace (0 <=? ef) with false by (symmetry; apply Z.leb_gt; lia).
    unfold Qeq, Qmult. cbn [Qnum Qden].
    rewrite Pos2Z.inj_mul, !Z2Pos.id by nia. rewrite Pw. unfold P.
    rewrite EB. destruct s; cbn [cond_Zopp]; nia. }
  rewrite X. clear X.
  assert (Bf : Zpos mf < 2 ^ 53).
  { pose proof (Zdigits2_bounds (Zpos mf) ltac:(lia)) as [_ U].
    assert (2 ^ Zdigits2 (Zpos mf) <= 2 ^ 53) by (apply Z.pow_le_mono_r; lia).
    lia. }
  assert (DE : Zdigits2 P + E <= 6).
  { assert (Zdigits2 P <= 6 - E); [|lia].
    apply Zdigits2_le_pow; [lia|]. split; [lia|].
    replace (6 - E) with (6 + - E) by lia. rewrite Z.pow_add_r by lia.
    change (2 ^ 6) with 64. assert (0 < B) by (rewrite EB; lia). unfold P.
    rewrite Pw, EB. nia. }
  set (k := F64exp (Zdigits2 P + E) - E).
  assert (KE : E + k <= -47) by (unfold k; rewrite F64exp_eq; lia).
  assert (KL : -1074 <= E + k) by (unfold k; rewrite F64exp_eq; lia).
  pose proof (Zdigits2_bounds P PP) as [DL DU].
  destruct (0 <? k) eqn:L.
  - apply Z.ltb_lt in L.
    assert (Pk : 0 < 2 ^ k) by (apply Z.pow_pos_nonneg; lia).
    assert (Per : 0 < 2 ^ (- (E + k))) by (apply Z.pow_pos_nonneg; lia).
    assert (Sp : 2 ^ (- E) = 2 ^ (- (E + k)) * 2 ^ k).
    { rewrite <- Z.pow_add_r by lia. f_equal. lia. }
    destruct (rne_of_bounds P k ltac:(lia) L) as [[R1 R2] R3].
    assert (Q53 : P / 2 ^ k < 2 ^ 53).
    { apply Z.div_lt_upper_bound; [exact Pk|].
      rewrite <- Z.pow_add_r by lia.
      assert (2 ^ Zdigits2 P <= 2 ^ (k + 53)); [|lia].
      apply Z.pow_le_mono_r; [lia|]. unfold k. rewrite F64exp_eq. lia. }
    assert (Q0 : 0 <= P / 2 ^ k) by (apply Z.div_pos; lia).
    rewrite (finish_value s (rne_of P k) (E + k)) by lia.
    rewrite Sp.
    assert (A47 : 2 ^ 47 <= 2 ^ (- (E + k))) by (apply Z.pow_le_mono_r; lia).
    pose proof (fraction_error (rne_of P k) P (2 ^ (- (E + k))) (2 ^ k)
                  Per Pk A47 R3) as FE.
    destruct s; cbn [cond_Zopp]; [|exact FE].
    (* the same distance after a change of sign *)
    assert (S : ((- rne_of P k # Z.to_pos (2 ^ (- (E + k))))
                 - (- P # Z.to_pos (2 ^ (- (E + k)) * 2 ^ k))
                 == - ((rne_of P k # Z.to_pos (2 ^ (- (E + k))))
                       - (P # Z.to_pos (2 ^ (- (E + k)) * 2 ^ k))))%Q).
    { unfold Qeq, Qminus, Qplus, Qopp. cbn [Qnum Qden]. ring. }
    rewrite S, Qabs_opp. exact FE.
  - apply Z.ltb_ge in L.
    assert (D53 : Zdigits2 P <= 53)
      by (unfold k in L; rewrite F64exp_eq in L; lia).
    assert (P53 : P < 2 ^ 53).
    { assert (2 ^ Zdigits2 P <= 2 ^ 53) by (apply Z.pow_le_mono_r; lia).
      lia. }
    assert (EL : -1074 <= E)
      by (unfold k in L; rewrite F64exp_eq in L; lia).
    rewrite (finish_value s P E) by lia.
    setoid_replace ((cond_Zopp s P # Z.to_pos (2 ^ (- E)))
                    - (cond_Zopp s P # Z.to_pos (2 ^ (- E))))%Q
      with 0%Q by ring.
    discriminate.
Qed.

End ValueFacts.

(** ** Lines 37-41 *)

Section DurationFacts64.

Lemma Prim2SF_sixty : Prim2SF 60 = sixty.
Proof. reflexivity. Qed.

Lemma Prim2SF_zero : Prim2SF 0 = S754_zero false.
Proof. reflexivity. Qed.

Lemma SFcompare_antisym (x y : spec_float) :
  SFcompare y x = option_map CompOpp (SFcompare x y).
Proof.
  destruct x as [[]|[]| |[] mx ex], y as [[]|[]| |[] my ey];
    cbn [SFcompare option_map CompOpp]; try reflexivity.
  - rewrite (Z.compare_antisym ex ey).
    change (Pos.compare_cont Eq my mx)
      with (Pos.compare_cont (CompOpp Eq) my mx).
    rewrite <- (Pos.compare_cont_antisym mx my Eq).
    destruct (ex ?= ey); cbn [CompOpp]; reflexivity.
  - rewrite (Z.compare_antisym ex ey).
    change (Pos.compare_cont Eq my mx)
      with (Pos.compare_cont (CompOpp Eq) my mx).
    rewrite <- (Pos.compare_cont_antisym mx my Eq).
    destruct (ex ?= ey); cbn [CompOpp]; reflexivity.
Qed.

Lemma leb_false_eqb (x y : float) :
  (x <=? y)%float = false -> (x =? y)%float = false.
Proof.
  rewrite FloatAxioms.leb_spec, FloatAxioms.eqb_spec. unfold SFleb, SFeqb.
  destruct (SFcompare (Prim2SF x) (Prim2SF y)) as [[]|]; congruence.
Qed.

Lemma ltb_leb_false (x y : float) :
  (x <? y)%float = true -> (y <=? x)%float = false.
Proof.
  rewrite FloatAxioms.ltb_spec, FloatAxioms.leb_spec. unfold SFltb, SFleb.
  rewrite (SFcompare_antisym (Prim2SF x) (Prim2SF y)).
  destruct (SFcompare (Prim2SF x) (Prim2SF y)) as [[]|];
    cbn [option_map CompOpp]; congruence.
Qed.

(** The minutes of a finite time: below sixty in magnitude, with the sign
    of the time, and within [2^-48] of the exact product. *)
Lemma SFminutes_bound (s : bool) (m : positive) (e : Z) :
  valid_binary (S754_finite s m e) = true ->
  (exists mm : Z,
      SFint (SF64mul (frac_of s m e) sixty) = Some (cond_Zopp s mm) /\
      0 <= mm <= 59) /\
  (Qabs (SF2Q (SF64mul (frac_of s m e) sixty)
         - 60 * SF2Q (frac_of s m e)) <= 1 # (2 ^ 48))%Q.
Proof.
  intros V. destruct (frac_of_shape s m e) as [E|(mf & ef & E)].
  - rewrite E. split; [|discriminate].
    exists 0. rewrite cond_Zopp_0. split; [reflexivity | lia].
  - destruct (frac_of_finite s m e s mf ef V E) as (_ & Ne & Lt1 & Vf).
    rewrite E. split; [|apply SFmul_sixty_value; assumption].
    destruct (SFmul_sixty s mf ef Vf Ne Lt1) as [Z0|(m' & e' & Em & B)].
    + rewrite Z0. exists 0. rewrite cond_Zopp_0. split; [reflexivity | lia].
    + rewrite Em. exists (magnitude_trunc m' e'). split; [reflexivity|].
      pose proof (magnitude_trunc_nonneg m' e'). lia.
Qed.

(** Lines 38-39 on a finite time. *)
Lemma duration_finite (t : float) (s : bool) (m : positive) (e : Z) :
  Prim2SF t = S754_finite s m e ->
  let hours := cond_Zopp s (magnitude_trunc m e) in
  int_of_float t = Some hours /\
  float_of_int hours = Some (nearest_float hours) /\
  Prim2SF (nearest_float hours) = SF_of_Z hours /\
  Prim2SF (t - nearest_float hours) = frac_of s m e /\
  (exists mm : Z,
      int_of_float ((t - nearest_float hours) * 60) = Some (cond_Zopp s mm) /\
      0 <= mm <= 59) /\
  (Qabs (to_Q ((t - nearest_float hours) * 60)
         - 60 * to_Q (t - nearest_float hours)) <= 1 # (2 ^ 48))%Q.
Proof.
  intros E hours. subst hours.
  pose proof (Prim2SF_valid t) as V. rewrite E in V.
  split; [unfold int_of_float; now rewrite E|].
  pose proof (SF_of_Z_trunc s m e V) as R. cbv zeta in R.
  pose proof (SF_of_Z_trunc_valid s m e V) as VR.
  set (hours := cond_Zopp s (magnitude_trunc m e)) in *.
  assert (EP : Prim2SF (nearest_float hours) = SF_of_Z hours)
    by (apply Prim2SF_SF2Prim; exact VR).
  assert (ES : Prim2SF (t - nearest_float hours) = frac_of s m e).
  { rewrite sub_spec, E, EP. apply SFsub_trunc. exact V. }
  assert (EM : Prim2SF ((t - nearest_float hours) * 60)
               = SF64mul (frac_of s m e) sixty).
  { now rewrite mul_spec, ES, Prim2SF_sixty. }
  destruct (SFminutes_bound s m e V) as [(mm & Em & B) Er].
  split; [|split; [exact EP|split; [exact ES|split]]].
  - unfold float_of_int. rewrite R.
    destruct (_ =? 0); [reflexivity|]. destruct (0 <=? e); reflexivity.
  - exists mm. split; [|exact B]. unfold int_of_float. now rewrite EM.
  - unfold to_Q. rewrite EM, ES. exact Er.
Qed.

(** Lines 38-39 on a zero. *)
Lemma duration_zero (t : float) (s : bool) :
  Prim2SF t = S754_zero s ->
  int_of_float t = Some 0 /\
  float_of_int 0 = Some (nearest_float 0) /\
  int_of_float ((t - nearest_float 0) * 60) = Some 0 /\
  to_Q (t - nearest_float 0) = 0%Q /\
  to_Q ((t - nearest_float 0) * 60) = 0%Q.
Proof.
  intros E. split; [unfold int_of_float; now rewrite E|].
  split; [reflexivity|].
  change (nearest_float 0) with 0%float.
  unfold int_of_float, to_Q.
  rewrite mul_spec, sub_spec, E, Prim2SF_zero, Prim2SF_sixty.
  destruct s; repeat split.
Qed.

(** What lines 37-41 return, by the quotient of line 37. *)
Lemma flight_duration_cases (distance actual_speed : float) :
  (actual_speed =? 0)%float = false ->
  match Prim2SF (distance / actual_speed) with
  | S754_zero _ =>
      flight_duration distance actual_speed = Some (duration_text 0 0)
  | S754_finite s m e =>
      exists mm : Z,
        flight_duration distance actual_speed
        = Some (duration_text (cond_Zopp s (magnitude_trunc m e))
                  (cond_Zopp s mm)) /\
        0 <= mm <= 59
  | _ => flight_duration distance actual_speed = None
  end.
Proof.
  intros N. unfold flight_duration, truediv. rewrite N. cbn [bind].
  set (t := (distance / actual_speed)%float).
  destruct (Prim2SF t) as [s|s| |s m e] eqn:E.
  - destruct (duration_zero t s E) as (E1 & E2 & Em & _).
    rewrite E1. cbn [bind]. rewrite E2. cbn [bind]. rewrite Em. reflexivity.
  - unfold int_of_float. rewrite E. reflexivity.
  - unfold int_of_float. rewrite E. reflexivity.
  - destruct (duration_finite t s m e E)
      as (E1 & E2 & _ & _ & (mm & Em & B) & _).
    rewrite E1. cbn [bind]. rewrite E2. cbn [bind]. rewrite Em.
    exists mm. split; [reflexivity | exact B].
Qed.

Lemma flight_duration_not_finite (distance actual_speed : float) :
  (actual_speed =? 0)%float = false ->
  isfinite (distance / actual_speed) = false ->
  flight_duration distance actual_speed = None.
Proof.
  intros N F.
  pose proof (flight_duration_cases distance actual_speed N) as Cs.
  unfold isfinite in F.
  destruct (Prim2SF (distance / actual_speed)); try discriminate F; exact Cs.
Qed.

(** Whenever the time of line 37 is finite, lines 37-41 return a duration:
    the whole hours are the time truncated towards zero, an int that is a
    float; the subtraction of line 39 is exact, and its product by 60 is
    rounded once; the minutes are the truncated product, below sixty in
    magnitude. *)
Lemma flight_duration_finite (distance actual_speed : float) :
  (actual_speed =? 0)%float = false ->
  let t := (distance / actual_speed)%float in
  isfinite t = true ->
  exists hours minutes : Z,
    flight_duration distance actual_speed
    = Some (duration_text hours minutes) /\
    int_of_float t = Some hours /\
    float_of_int hours = Some (nearest_float hours) /\
    int_of_float (nearest_float hours) = Some hours /\
    (to_Q (t - nearest_float hours) == to_Q t - inject_Z hours)%Q /\
    int_of_float ((t - nearest_float hours) * 60) = Some minutes /\
    (Qabs (to_Q ((t - nearest_float hours) * 60)
           - 60 * to_Q (t - nearest_float hours)) <= 1 # (2 ^ 48))%Q /\
    ((0 <= to_Q t)%Q ->
     hours = Qfloor (to_Q t) /\ 0 <= hours /\ 0 <= minutes <= 59) /\
    ((to_Q t <= 0)%Q ->
     hours = Qceiling (to_Q t) /\ hours <= 0 /\ -59 <= minutes <= 0).
Proof.
  intros N t F.
  unfold flight_duration, truediv. rewrite N. cbn [bind]. fold t.
  unfold isfinite in F.
  destruct (Prim2SF t) as [s|s| |s m e] eqn:E; try discriminate F.
  - destruct (duration_zero t s E) as (E1 & E2 & Em & Q1 & Q2).
    exists 0, 0. rewrite E1. cbn [bind]. rewrite E2. cbn [bind]. rewrite Em.
    split; [reflexivity|]. split; [reflexivity|].
    split; [reflexivity|]. split; [reflexivity|].
    rewrite Q1, Q2. unfold to_Q. rewrite E. cbn [SF2Q].
    split; [reflexivity|]. split; [reflexivity|]. split; [discriminate|].
    split; intros _; repeat split; lia.
  - destruct (duration_finite t s m e E)
      as (E1 & E2 & E3 & E4 & (mm & Em & B) & Er).
    pose proof (Prim2SF_valid t) as V. rewrite E in V.
    pose proof (magnitude_trunc_nonneg m e) as Hh.
    exists (cond_Zopp s (magnitude_trunc m e)), (cond_Zopp s mm).
    rewrite E1. cbn [bind]. rewrite E2. cbn [bind]. rewrite Em.
    split; [reflexivity|]. split; [reflexivity|]. split; [reflexivity|].
    split; [|split; [|split; [reflexivity|split; [exact Er|]]]].
    + (* the int reads back from its float *)
      unfold int_of_float. rewrite E3, (SF_of_Z_trunc s m e V).
      destruct (Z.eqb_spec (magnitude_trunc m e) 0) as [Z0|NZ].
      { rewrite Z0, cond_Zopp_0. reflexivity. }
      destruct (0 <=? e) eqn:Le; [reflexivity|].
      apply Z.leb_gt in Le. cbn [SFint]. f_equal. f_equal.
      assert (P2 : 0 < 2 ^ (- e)) by (apply Z.pow_pos_nonneg; lia).
      rewrite (magnitude_trunc_spec (Z.to_pos _) e).
      replace (0 <=? e) with false by (symmetry; apply Z.leb_gt; lia).
      rewrite Z2Pos.id by nia. apply Z.div_mul. lia.
    + unfold to_Q. rewrite E4, E. apply SF2Q_frac_of. exact V.
    + unfold to_Q. rewrite E. destruct s; cbn [cond_Zopp].
      * split; intros S.
        -- pose proof (SF2Q_neg m e). lra.
        -- rewrite Qceiling_SF2Q. repeat split; lia.
      * split; intros S.
        -- rewrite Qfloor_SF2Q. repeat split; lia.
        -- pose proof (SF2Q_pos m e). lra.
Qed.

(** The time of a flight over a distance that is not negative, at a
    positive speed, is not negative ... *)
Lemma quotient_nonneg (d a : float) :
  (0 <=? d)%float = true -> (0 <? a)%float = true ->
  match Prim2SF (d / a) with
  | S754_finite s _ _ => s = false
  | S754_infinity s => s = false
  | _ => True
  end.
Proof.
  rewrite FloatAxioms.leb_spec, FloatAxioms.ltb_spec, div_spec, Prim2SF_zero.
  unfold SFleb, SFltb.
  destruct (Prim2SF d) as [sd|[]| |[] md ed], (Prim2SF a) as [sa|[]| |[] ma ea];
    cbn [SFcompare]; try congruence; intros _ _;
    try (cbn [SF64div SFdiv xorb]; exact I || reflexivity).
  destruct (SFdiv_shape false md ed false ma ea) as [E|[(m' & e' & E)|E]];
    cbv zeta in E; rewrite E; exact I || reflexivity.
Qed.

(** ... and over a distance that is not positive, not positive. *)
Lemma quotient_nonpos (d a : float) :
  (d <=? 0)%float = true -> (0 <? a)%float = true ->
  match Prim2SF (d / a) with
  | S754_finite s _ _ => s = true
  | S754_infinity s => s = true
  | _ => True
  end.
Proof.
  rewrite FloatAxioms.leb_spec, FloatAxioms.ltb_spec, div_spec, Prim2SF_zero.
  unfold SFleb, SFltb.
  destruct (Prim2SF d) as [sd|[]| |[] md ed], (Prim2SF a) as [sa|[]| |[] ma ea];
    cbn [SFcompare]; try congruence; intros _ _;
    try (cbn [SF64div SFdiv xorb]; exact I || reflexivity).
  destruct (SFdiv_shape true md ed false ma ea) as [E|[(m' & e' & E)|E]];
    cbv zeta in E; rewrite E; exact I || reflexivity.
Qed.

(** Dividing by a finite number that is at least two keeps finite numbers
    finite, and nothing else. *)
Lemma quotient_by_speed (d a : float) (sa : bool) (ma : positive) (ea : Z) :
  Prim2SF a = S754_finite sa ma ea ->
  2 <= Zdigits2 (Zpos ma) + ea ->
  isfinite (d / a) = isfinite d.
Proof.
  intros Ea B. unfold isfinite. rewrite div_spec, Ea.
  pose proof (Prim2SF_valid d) as V.
  destruct (Prim2SF d) as [s|s| |s m e]; try reflexivity.
  destruct (SFdiv_finite s m e sa ma ea V B) as [E|(m' & e' & E)];
    rewrite E; reflexivity.
Qed.

(** An int below [2^53] in magnitude is a float, and reads back. *)
Lemma int_float_round_trip (n : Z) :
  Z.abs n < 2 ^ 53 -> int_of_float (nearest_float n) = Some n.
Proof.
  intros H. unfold int_of_float, nearest_float.
  assert (G : forall (s : bool) (P : positive),
             Zpos P < 2 ^ 53 ->
             SFint (Prim2SF (SF2Prim (binary_round prec emax s P 0)))
             = Some (cond_Zopp s (Zpos P))).
  { intros s P HP.
    assert (D : Zdigits2 (Zpos P) <= 53) by (apply Zdigits2_le_pow; lia).
    destruct (binary_round_small s P 0 D ltac:(lia) ltac:(lia)) as [Le R].
    cbv zeta in R. set (e := F64exp (Zdigits2 (Zpos P) + 0)) in *.
    assert (P2 : 0 < 2 ^ (0 - e)) by (apply Z.pow_pos_nonneg; lia).
    rewrite R, Prim2SF_SF2Prim.
    - cbn [SFint]. f_equal. f_equal.
      rewrite magnitude_trunc_spec, Z2Pos.id by nia.
      destruct (0 <=? e) eqn:L0.
      + apply Z.leb_le in L0. assert (e = 0) by lia.
        replace (0 - e) with 0 by lia. replace e with 0 by lia. cbn. lia.
      + replace (- e) with (0 - e) by lia. apply Z.div_mul. lia.
    - apply valid_finite. split; [|lia].
      rewrite Z2Pos.id by nia. rewrite Zdigits2_mul_pow2 by lia.
      replace (Zdigits2 (Zpos P) + (0 - e) + e) with (Zdigits2 (Zpos P) + 0)
        by lia. reflexivity. }
  destruct n as [|P|P]; [reflexivity| |].
  - apply (G false P). lia.
  - apply (G true P). lia.
Qed.

End DurationFacts64.

(** ** The text of a duration *)

Section TextFacts64.

Lemma duration_text_split (hours minutes : Z) :
  split (duration_text hours minutes)
  = [str_int hours; "hours"; str_int minutes; "minutes"].
Proof.
  apply split_hours_minutes; auto using str_int_no_space, str_int_nonempty.
Qed.

Lemma duration_text_no_error (hours minutes : Z) :
  contains "Error" (duration_text hours minutes) = false.
Proof.
  apply contains_first_char. unfold duration_text.
  rewrite !has_char_app, !str_int_no_char by reflexivity.
  reflexivity.
Qed.

Lemma duration_text_not_error (hours minutes : Z) :
  duration_text hours minutes <> headwind_error.
Proof.
  intros E. pose proof (duration_text_no_error hours minutes) as N.
  rewrite E in N. discriminate N.
Qed.

(** [float(str(n))] is the float nearest to [n]. *)
Lemma float_of_str_nearest (n : Z) :
  float_of_str (str_int n) = Some (nearest_float n).
Proof.
  unfold float_of_str, str_int.
  rewrite NilZero.isi.
  - cbn [option_map]. rewrite DecimalZ.of_to. destruct n; reflexivity.
  - destruct n; simpl; try discriminate.
    intros [= H]. now apply (Unsigned.to_uint_nonnil p).
  - destruct n; simpl; try discriminate.
    intros [= H]. now apply (Unsigned.to_uint_nonnil p).
Qed.

(** The calculations of lines 92-95 on a duration. *)
Lemma figures_of_duration (hours minutes : Z) :
  contains "Error" (duration_text hours minutes) = false /\
  nth_error (split (duration_text hours minutes)) 0 = Some (str_int hours) /\
  nth_error (split (duration_text hours minutes)) 1 = Some "hours" /\
  float_of_str (str_int hours) = Some (nearest_float hours).
Proof.
  rewrite duration_text_split, duration_text_no_error, float_of_str_nearest.
  repeat split.
Qed.

Lemma check_fuel_sufficiency_not_na (a : aircraft) (x : float) :
  check_fuel_sufficiency a x <> "N/A".
Proof. unfold check_fuel_sufficiency. destruct (le_int x _); discriminate. Qed.

Lemma format_float_one_decimal (x : float) :
  isfinite x = true ->
  exists (whole : string) (digit : ascii),
    format_float 1 x = whole ++ "." ++ String digit "" /\
    is_digit digit = true /\ has_char "." whole = false.
Proof.
  unfold isfinite, format_float.
  destruct (Prim2SF x) as [s|s| |s m e]; try discriminate; intros _.
  - destruct (format_f_one_decimal 0) as (whole & digit & E & D & H).
    exists ((if s then "-" else "") ++ whole), digit.
    rewrite E. split; [|split; [exact D|]].
    + destruct s; reflexivity.
    + rewrite has_char_app, H. now destruct s.
  - apply format_f_one_decimal.
Qed.

Lemma format_float_not_finite (d : nat) (x : float) :
  isfinite x = false -> In (format_float d x) ["inf"; "-inf"; "nan"].
Proof.
  unfold isfinite, format_float.
  destruct (Prim2SF x) as [s|[]| |s m e]; try discriminate; intros _;
    simpl; tauto.
Qed.

End TextFacts64.

(** ** The flight time and the calculations of the two reports *)

Section ReportFacts64.

(** A result of lines 37-41 is a duration, of a finite time. *)
Lemma flight_duration_some (distance actual_speed : float) (text : string) :
  flight_duration distance actual_speed = Some text ->
  (actual_speed =? 0)%float = false /\
  isfinite (distance / actual_speed) = true.
Proof.
  intros E.
  destruct (actual_speed =? 0)%float eqn:N.
  { unfold flight_duration, truediv in E. rewrite N in E. discriminate E. }
  split; [reflexivity|].
  destruct (isfinite (distance / actual_speed)) eqn:F; [reflexivity|].
  rewrite (flight_duration_not_finite _ _ N F) in E. discriminate E.
Qed.

Lemma flight_duration_text (distance actual_speed : float) (text : string) :
  flight_duration distance actual_speed = Some text ->
  exists hours minutes : Z, text = duration_text hours minutes.
Proof.
  intros E. destruct (flight_duration_some _ _ _ E) as [N F].
  destruct (flight_duration_finite _ _ N F) as (h & m & Et & _).
  exists h, m. congruence.
Qed.

Lemma flight_time_not_finite (distance speed headwind : float) :
  (speed - headwind <=? 0)%float = false ->
  isfinite (distance / (speed - headwind)) = false ->
  calculate_flight_time distance speed headwind = None.
Proof.
  intros L F. unfold calculate_flight_time. rewrite L.
  apply flight_duration_not_finite; [apply leb_false_eqb, L | exact F].
Qed.

(** A result that is not the failure text is a duration. *)
Lemma flight_time_some (distance speed headwind : float) (text : string) :
  calculate_flight_time distance speed headwind = Some text ->
  text <> headwind_error ->
  (speed - headwind <=? 0)%float = false /\
  flight_duration distance (speed - headwind) = Some text.
Proof.
  intros E N. unfold calculate_flight_time in E.
  destruct (speed - headwind <=? 0)%float eqn:L.
  - injection E as <-. now elim N.
  - split; [reflexivity | exact E].
Qed.

Lemma flight_time_text (distance speed headwind : float) (text : string) :
  calculate_flight_time distance speed headwind = Some text ->
  ((speed - headwind <=? 0)%float = true /\ text = headwind_error) \/
  ((speed - headwind <=? 0)%float = false /\
   exists hours minutes : Z, text = duration_text hours minutes).
Proof.
  intros E. unfold calculate_flight_time in E.
  destruct (speed - headwind <=? 0)%float.
  - left. split; [reflexivity|]. congruence.
  - right. split; [reflexivity|]. now apply flight_duration_text in E.
Qed.

Lemma plan_of_duration (a : aircraft)
    (distance headwind fuel_price speed : float) (hours minutes : Z) :
  float_of_int (cruise_speed a) = Some speed ->
  calculate_flight_time distance speed headwind
  = Some (duration_text hours minutes) ->
  plan_calculations a distance headwind fuel_price
  = Some {| flight_time := duration_text hours minutes;
            fuel_needed :=
              calculate_fuel_needed (nearest_float hours) (fuel_burn a)
                default_reserve;
            fuel_check :=
              check_fuel_sufficiency a
                (calculate_fuel_needed (nearest_float hours) (fuel_burn a)
                   default_reserve);
            cost :=
              calculate_cost
                (calculate_fuel_needed (nearest_float hours) (fuel_burn a)
                   default_reserve) fuel_price |}.
Proof.
  intros Es Et. unfold plan_calculations. rewrite Es. cbn [bind].
  rewrite Et. cbn [bind].
  destruct (figures_of_duration hours minutes) as (E1 & E2 & _ & E3).
  rewrite E1. cbn [negb]. rewrite E2. cbn [bind]. rewrite E3. reflexivity.
Qed.

Lemma plan_of_failure (a : aircraft)
    (distance headwind fuel_price speed : float) :
  float_of_int (cruise_speed a) = Some speed ->
  calculate_flight_time distance speed headwind = Some headwind_error ->
  plan_calculations a distance headwind fuel_price
  = Some {| flight_time := headwind_error; fuel_needed := 0;
            fuel_check := "N/A"; cost := 0 |}.
Proof.
  intros Es Et. unfold plan_calculations. rewrite Es. cbn [bind].
  rewrite Et. reflexivity.
Qed.

Lemma figures_of_time (a : aircraft) (distance : float)
    (hours minutes : Z) :
  time_without_wind a distance = Some (duration_text hours minutes) ->
  comparison_figures a distance
  = Some (Some {| time_parts := split (duration_text hours minutes);
                  fuel :=
                    calculate_fuel_needed (nearest_float hours) (fuel_burn a)
                      default_reserve;
                  trip_cost :=
                    calculate_cost
                      (calculate_fuel_needed (nearest_float hours)
                         (fuel_burn a) default_reserve)
                      default_fuel_price |}) /\
  (forall f, comparison_figures a distance = Some (Some f) ->
             comparison_line a f = Some (table_line a hours)).
Proof.
  intros Et.
  destruct (figures_of_duration hours minutes) as (E1 & E2 & E4 & E3).
  assert (E : comparison_figures a distance
              = Some (Some {| time_parts := split (duration_text hours minutes);
                  fuel :=
                    calculate_fuel_needed (nearest_float hours) (fuel_burn a)
                      default_reserve;
                  trip_cost :=
                    calculate_cost
                      (calculate_fuel_needed (nearest_float hours)
                         (fuel_burn a) default_reserve)
                      default_fuel_price |})).
  { unfold comparison_figures. rewrite Et. cbn [bind].
    rewrite E1. cbn [negb]. rewrite E2. cbn [bind]. rewrite E3. reflexivity. }
  split; [exact E|].
  intros f Ef. rewrite E in Ef. injection Ef as <-.
  unfold comparison_line. cbn [time_parts fuel trip_cost].
  rewrite E2, E4. reflexivity.
Qed.

(** The time of an entry without wind: an exception, the failure text, or
    a duration. *)
Lemma time_without_wind_cases (a : aircraft) (distance : float) :
  time_without_wind a distance = None \/
  (time_without_wind a distance = Some headwind_error /\
   cruise_speed a - 0 <= 0) \/
  exists (speed : float) (hours minutes : Z),
    0 < cruise_speed a - 0 /\
    float_of_int (cruise_speed a - 0) = Some speed /\
    flight_duration distance speed = Some (duration_text hours minutes) /\
    time_without_wind a distance = Some (duration_text hours minutes).
Proof.
  unfold time_without_wind, calculate_flight_time_ints.
  destruct (Z.leb_spec (cruise_speed a - 0) 0) as [L|L].
  { right; left. split; [reflexivity | exact L]. }
  destruct (float_of_int (cruise_speed a - 0)) as [speed|]; [|now left].
  cbn [bind].
  destruct (flight_duration distance speed) as [text|] eqn:E; [|now left].
  right; right.
  destruct (flight_duration_text _ _ _ E) as (h & m & ->).
  exists speed, h, m. repeat split; assumption.
Qed.

(** One row of the table, for an entry of the catalog. *)
Lemma catalog_row (a : aircraft) (speed : float) (distance : float)
    (sa : bool) (ma : positive) (ea : Z) :
  (cruise_speed a - 0 <=? 0) = false ->
  float_of_int (cruise_speed a - 0) = Some speed ->
  (speed =? 0)%float = false ->
  Prim2SF speed = S754_finite sa ma ea ->
  2 <= Zdigits2 (Zpos ma) + ea ->
  time_without_wind a distance <> Some headwind_error /\
  (isfinite distance = false -> comparison_figures a distance = None) /\
  (isfinite distance = true ->
   exists (hours : Z) (f : figures),
     int_of_float (distance / speed) = Some hours /\
     comparison_figures a distance = Some (Some f) /\
     comparison_line a f = Some (table_line a hours)).
Proof.
  intros Lz Es N Ea B.
  assert (T : time_without_wind a distance = flight_duration distance speed).
  { unfold time_without_wind, calculate_flight_time_ints.
    now rewrite Lz, Es. }
  pose proof (quotient_by_speed distance speed sa ma ea Ea B) as Q.
  split; [|split].
  - rewrite T. intros E.
    destruct (flight_duration_text _ _ _ E) as (h & m & X).
    symmetry in X. exact (duration_text_not_error _ _ X).
  - intros F. unfold comparison_figures. rewrite T.
    rewrite flight_duration_not_finite; [reflexivity | exact N | now rewrite Q].
  - intros F.
    destruct (flight_duration_finite distance speed N) as (h & m & Et & Eh & _).
    { now rewrite Q. }
    rewrite <- T in Et.
    destruct (figures_of_time a distance h m Et) as [Ef El].
    eexists h, _. split; [exact Eh|]. split; [exact Ef|].
    apply El. exact Ef.
Qed.

(** The calculations of the plan raise exactly when the flight time
    does. *)
Lemma plan_raises_iff (a : aircraft)
    (distance headwind fuel_price speed : float) :
  float_of_int (cruise_speed a) = Some speed ->
  plan_calculations a distance headwind fuel_price = None <->
  calculate_flight_time distance speed headwind = None.
Proof.
  intros Es. split.
  - intros Ep.
    destruct (calculate_flight_time distance speed headwind) as [text|] eqn:E;
      [|reflexivity].
    destruct (flight_time_text _ _ _ _ E) as [[L ->]|[L (h & m & ->)]].
    + rewrite (plan_of_failure _ _ _ _ _ Es E) in Ep. discriminate Ep.
    + rewrite (plan_of_duration _ _ _ _ _ _ _ Es E) in Ep. discriminate Ep.
  - intros E. unfold plan_calculations. rewrite Es. cbn [bind].
    now rewrite E.
Qed.

(** The rows of the catalog: three for a finite distance, and an exception
    at the first entry otherwise. *)
Lemma catalog_rows (distance : float) :
  (isfinite distance = true ->
   exists h1 h2 h3 : Z,
     int_of_float (distance / 120) = Some h1 /\
     int_of_float (distance / 130) = Some h2 /\
     int_of_float (distance / 185) = Some h3 /\
     comparison_rows aircraft_db distance
     = Some [table_line C172 h1; table_line PA28 h2; table_line SR22 h3]) /\
  (isfinite distance = false ->
   comparison_figures C172 distance = None /\
   comparison_rows aircraft_db distance = None).
Proof.
  pose proof (catalog_row C172 120 distance false 8444249301319680 (-46)
                eq_refl eq_refl eq_refl eq_refl ltac:(cbn; lia))
    as (_ & I1 & F1).
  pose proof (catalog_row PA28 130 distance false 4573968371548160 (-45)
                eq_refl eq_refl eq_refl eq_refl ltac:(cbn; lia))
    as (_ & _ & F2).
  pose proof (catalog_row SR22 185 distance false 6509108836433920 (-45)
                eq_refl eq_refl eq_refl eq_refl ltac:(cbn; lia))
    as (_ & _ & F3).
  split.
  - intros F.
    destruct (F1 F) as (h1 & f1 & E1 & G1 & L1).
    destruct (F2 F) as (h2 & f2 & E2 & G2 & L2).
    destruct (F3 F) as (h3 & f3 & E3 & G3 & L3).
    exists h1, h2, h3.
    split; [exact E1|]. split; [exact E2|]. split; [exact E3|].
    unfold aircraft_db. cbn [comparison_rows].
    rewrite G1. cbn [bind]. rewrite L1. cbn [bind].
    rewrite G2. cbn [bind]. rewrite L2. cbn [bind].
    rewrite G3. cbn [bind]. rewrite L3. reflexivity.
  - intros F. split; [exact (I1 F)|].
    unfold aircraft_db. cbn [comparison_rows].
    rewrite (I1 F). reflexivity.
Qed.

End ReportFacts64.

(** C4.  The claim holds of the exact quotient only.  On binary64
    numbers, for a distance [>= 0] and an effective speed [> 0], let [t] be
    the quotient of line 37.  When [t] is an infinity or NaN, the function
    raises.  Otherwise it prints a duration whose hours are the floor of
    [t], not negative, and an int that is a float; [t - hours] is computed
    exactly; the minutes are the floor of its product by 60, rounded once,
    and lie in [0, 60); and [hours * 60 + minutes] is within [1 + 2^-48]
    below and [2^-48] above [t * 60]. *)
Theorem flight_time_duration (distance speed headwind : float) :
  (0 <=? distance)%float = true ->
  (0 <? speed - headwind)%float = true ->
  let t := (distance / (speed - headwind))%float in
  (isfinite t = false ->
   calculate_flight_time distance speed headwind = None) /\
  (isfinite t = true ->
   exists hours minutes : Z,
     calculate_flight_time distance speed headwind
     = Some (duration_text hours minutes) /\
     hours = Qfloor (to_Q t) /\ 0 <= hours /\
     float_of_int hours = Some (nearest_float hours) /\
     (to_Q (t - nearest_float hours) == to_Q t - inject_Z hours)%Q /\
     int_of_float ((t - nearest_float hours) * 60) = Some minutes /\
     0 <= minutes < 60 /\
     (to_Q t * 60 - 1 - (1 # 2 ^ 48) < inject_Z (hours * 60 + minutes))%Q /\
     (inject_Z (hours * 60 + minutes) <= to_Q t * 60 + (1 # 2 ^ 48))%Q).
Proof.
  intros Hd Ha t.
  pose proof (ltb_leb_false _ _ Ha) as L.
  split; [apply flight_time_not_finite; exact L|].
  intros F. unfold calculate_flight_time. rewrite L.
  destruct (flight_duration_finite distance (speed - headwind)
              (leb_false_eqb _ _ L) F)
    as (h & m & Et & Eh & Ef & _ & Ex & Em & Er & Pos & _).
  fold t in Eh, Ex, Em, Er, Pos.
  assert (N : (0 <= to_Q t)%Q).
  { pose proof (quotient_nonneg distance (speed - headwind) Hd Ha) as S.
    fold t in S. unfold to_Q. unfold isfinite in F.
    destruct (Prim2SF t) as [s|s| |s mt et]; try discriminate F.
    - apply Qle_refl.
    - subst s. apply Qlt_le_weak, SF2Q_pos. }
  destruct (Pos N) as (Fl & H0 & Bm).
  exists h, m.
  split; [exact Et|]. split; [exact Fl|]. split; [exact H0|].
  split; [exact Ef|]. split; [exact Ex|]. split; [exact Em|].
  split; [lia|].
  (* the minutes against the exact product *)
  pose proof (Qfloor_le (to_Q t)) as F1. pose proof (Qlt_floor (to_Q t)) as F2.
  rewrite <- Fl in F1, F2.
  rewrite inject_Z_plus in F2. change (inject_Z 1) with 1%Q in F2.
  set (p := to_Q ((t - nearest_float h) * 60)) in *.
  set (fr := to_Q (t - nearest_float h)) in *.
  apply Qabs_Qle_condition in Er. destruct Er as [Er1 Er2].
  assert (E0 : (0 < 1 # 2 ^ 48)%Q) by reflexivity.
  set (eps := (1 # 2 ^ 48)%Q) in *.
  assert (Ez : (inject_Z (h * 60 + m) == inject_Z h * 60 + inject_Z m)%Q).
  { rewrite inject_Z_plus, inject_Z_mult. reflexivity. }
  assert (M : (60 * fr - 1 - eps < inject_Z m
               /\ inject_Z m <= 60 * fr + eps)%Q).
  { destruct (int_of_float_trunc _ _ Em) as [Tp Tn]. fold p in Tp, Tn.
    destruct (Qlt_le_dec p 0) as [Np|Pp].
    - assert (m = 0).
      { pose proof (Qceiling_resp_le p 0 (Qlt_le_weak _ _ Np)) as C.
        rewrite <- (Tn (Qlt_le_weak _ _ Np)) in C. cbn in C. lia. }
      subst m. change (inject_Z 0) with 0%Q. split; lra.
    - pose proof (Qfloor_le p) as G1. pose proof (Qlt_floor p) as G2.
      rewrite <- (Tp Pp) in G1, G2.
      rewrite inject_Z_plus in G2. change (inject_Z 1) with 1%Q in G2.
      split; lra. }
  destruct M as [M1 M2]. rewrite Ez. split; lra.
Qed.

Lemma flight_time_duration_witness :
  exists hours minutes : Z,
    calculate_flight_time 276 120 0 = Some (duration_text hours minutes) /\
    hours = Qfloor (to_Q (276 / (120 - 0))) /\ 0 <= hours /\
    float_of_int hours = Some (nearest_float hours) /\
    (to_Q (276 / (120 - 0) - nearest_float hours)
     == to_Q (276 / (120 - 0)) - inject_Z hours)%Q /\
    int_of_float ((276 / (120 - 0) - nearest_float hours) * 60)
    = Some minutes /\
    0 <= minutes < 60 /\
    (to_Q (276 / (120 - 0)) * 60 - 1 - (1 # 2 ^ 48)
     < inject_Z (hours * 60 + minutes))%Q /\
    (inject_Z (hours * 60 + minutes)
     <= to_Q (276 / (120 - 0)) * 60 + (1 # 2 ^ 48))%Q.
Proof.
  apply (proj2 (flight_time_duration 276 120 0 eq_refl eq_refl)).
  reflexivity.
Defined.

(** C4, as stated, fails twice.  A distance of [2^1023] nautical miles at
    an effective speed of half a knot has no finite time: [int()] raises
    and nothing is returned.  And 276 nautical miles at 120 knots print 17
    minutes, where the floor of the exact [(276/120 - 2) * 60] is 18. *)
Lemma flight_time_duration_counterexample :
  (0 <=? 0x1p+1023)%float = true /\
  (0 <? 120 - 119.5)%float = true /\
  calculate_flight_time 0x1p+1023 120 119.5 = None /\
  (0 <=? 276)%float = true /\
  (0 <? 120 - 0)%float = true /\
  calculate_flight_time 276 120 0 = Some "2 hours 17 minutes" /\
  Qfloor ((276 / (120 - 0) - 2) * 60) = 18.
Proof. repeat split; vm_compute; reflexivity. Qed.




(** C10, amended.  In both reports, whenever the flight time is a
    duration, the fuel is [(float(int(t)) + 1.0) * fuel burn] in binary64
    arithmetic, [t] being the quotient of line 37: only the whole hours
    printed in the text are read back, exactly, and the minutes are
    dropped.  [int()] rounds towards zero: it is the floor of [t] when [t]
    is not negative, the ceiling when [t] is not positive. *)
Theorem fuel_from_whole_hours (a : aircraft)
    (distance headwind fuel_price : float) :
  (forall p : plan,
      plan_calculations a distance headwind fuel_price = Some p ->
      flight_time p <> headwind_error ->
      exists (speed : float) (hours minutes : Z),
        float_of_int (cruise_speed a) = Some speed /\
        int_of_float (distance / (speed - headwind)) = Some hours /\
        flight_time p = duration_text hours minutes /\
        float_of_int hours = Some (nearest_float hours) /\
        int_of_float (nearest_float hours) = Some hours /\
        fuel_needed p = ((nearest_float hours + 1) * fuel_burn a)%float /\
        ((0 <= to_Q (distance / (speed - headwind)))%Q ->
         hours = Qfloor (to_Q (distance / (speed - headwind)))) /\
        ((to_Q (distance / (speed - headwind)) <= 0)%Q ->
         hours = Qceiling (to_Q (distance / (speed - headwind))))) /\
  (forall f : figures,
      comparison_figures a distance = Some (Some f) ->
      exists (speed : float) (hours : Z),
        float_of_int (cruise_speed a - 0) = Some speed /\
        int_of_float (distance / speed) = Some hours /\
        float_of_int hours = Some (nearest_float hours) /\
        int_of_float (nearest_float hours) = Some hours /\
        fuel f = ((nearest_float hours + 1) * fuel_burn a)%float /\
        ((0 <= to_Q (distance / speed))%Q ->
         hours = Qfloor (to_Q (distance / speed))) /\
        ((to_Q (distance / speed) <= 0)%Q ->
         hours = Qceiling (to_Q (distance / speed)))).
Proof.
  split.
  - intros p Ep Np. pose proof Ep as Ep0. unfold plan_calculations in Ep.
    destruct (float_of_int (cruise_speed a)) as [speed|] eqn:Es;
      [|discriminate Ep].
    cbn [bind] in Ep.
    destruct (calculate_flight_time distance speed headwind) as [text|] eqn:Et;
      [|discriminate Ep].
    cbn [bind] in Ep.
    assert (Nt : text <> headwind_error).
    { intros ->. cbn in Ep. injection Ep as <-. now elim Np. }
    destruct (flight_time_some _ _ _ _ Et Nt) as [L Ed].
    destruct (flight_duration_some _ _ _ Ed) as [N F].
    destruct (flight_duration_finite distance (speed - headwind) N F)
      as (h & m & Et' & Eh & Ef & Er & _ & _ & _ & Pos & Neg).
    rewrite Ed in Et'. injection Et' as ->.
    rewrite (plan_of_duration a distance headwind fuel_price
               speed h m Es Et) in Ep0.
    injection Ep0 as <-.
    exists speed, h, m. cbn [flight_time fuel_needed].
    repeat split; try assumption; try reflexivity.
    + intros S. now apply Pos.
    + intros S. now apply Neg.
  - intros f Ef.
    destruct (time_without_wind_cases a distance)
      as [E|[[E _]|(speed & h & m & _ & Es & Ed & E)]].
    + unfold comparison_figures in Ef. rewrite E in Ef. discriminate Ef.
    + unfold comparison_figures in Ef. rewrite E in Ef. discriminate Ef.
    + destruct (flight_duration_some _ _ _ Ed) as [N F].
      destruct (flight_duration_finite distance speed N F)
        as (h' & m' & Et' & Eh & Ef' & Er & _ & _ & _ & Pos & Neg).
      rewrite Ed in Et'. injection Et' as Et'.
      assert (h' = h).
      { pose proof (duration_text_split h m) as S1.
        pose proof (duration_text_split h' m') as S2.
        rewrite Et' in S1. rewrite S1 in S2. injection S2 as X _.
        unfold str_int in X.
        apply (f_equal NilZero.int_of_string) in X.
        rewrite !NilZero.isi in X.
        - injection X as X. apply (f_equal Z.of_int) in X.
          now rewrite !DecimalZ.of_to in X.
        - destruct h'; simpl; try discriminate.
          intros [= H]. now apply (Unsigned.to_uint_nonnil p).
        - destruct h'; simpl; try discriminate.
          intros [= H]. now apply (Unsigned.to_uint_nonnil p).
        - destruct h; simpl; try discriminate.
          intros [= H]. now apply (Unsigned.to_uint_nonnil p).
        - destruct h; simpl; try discriminate.
          intros [= H]. now apply (Unsigned.to_uint_nonnil p). }
      subst h'.
      destruct (figures_of_time a distance h m E) as [Eg _].
      rewrite Eg in Ef. injection Ef as <-.
      exists speed, h. cbn [fuel].
      repeat split; try assumption; try reflexivity.
      * intros S. now apply Pos.
      * intros S. now apply Neg.
Qed.

(** The C172 over 300 nautical miles: 2.5 hours, of which 2 are used. *)
Lemma fuel_from_whole_hours_witness :
  exists (speed : float) (hours : Z),
    float_of_int (cruise_speed C172 - 0) = Some speed /\
    int_of_float (300 / speed) = Some hours /\
    float_of_int hours = Some (nearest_float hours) /\
    int_of_float (nearest_float hours) = Some hours /\
    25.5%float = ((nearest_float hours + 1) * fuel_burn C172)%float /\
    ((0 <= to_Q (300 / speed))%Q -> hours = Qfloor (to_Q (300 / speed))) /\
    ((to_Q (300 / speed) <= 0)%Q -> hours = Qceiling (to_Q (300 / speed))).
Proof.
  apply (proj2 (fuel_from_whole_hours C172 300 0 6.5)
           {| time_parts := ["2"; "hours"; "30"; "minutes"];
              fuel := 25.5; trip_cost := 165.75 |}).
  vm_compute. reflexivity.
Defined.

(** C10, as stated, fails for a negative distance: [int()] rounds towards
    zero, so -2.5 hours leave -2 whole hours where the floor is -3.  For the
    C172 and -300 nautical miles both reports compute -8.5 gallons; the
    floor would give -17. *)
Lemma fuel_floor_counterexample :
  option_map (fun p => (flight_time p, fuel_needed p))
    (plan_calculations C172 (-300) 0 6.5)
  = Some ("-2 hours -30 minutes", (-8.5)%float) /\
  option_map (option_map fuel) (comparison_figures C172 (-300))
  = Some (Some (-8.5)%float) /\
  Qfloor (to_Q (-300 / (120 - 0))) = -3 /\
  ((nearest_float (-3) + 1) * fuel_burn C172 = -17)%float.
Proof. repeat split; vm_compute; reflexivity. Qed.

(** C2, amended.  In both cases the message of [check_fuel_sufficiency]
    holds the fuel needed as [f"{fuel_needed:.1f}"] gives it, and the
    capacity as the plain digits of the stored int, with no decimal point.
    A finite fuel has one decimal place; an infinite or undefined one is
    printed as [inf], [-inf] or [nan]. *)
Theorem fuel_message_format (a : aircraft) (fuel_needed : float) :
  exists head mid : string,
    check_fuel_sufficiency a fuel_needed
    = head ++ format_float 1 fuel_needed ++ mid ++ str_int (max_fuel a)
      ++ " gal capacity" /\
    ((head = "Fuel OK: " /\ mid = " gal needed, ") \/
     (head = "Fuel warning: " /\ mid = " gal needed, but only ")) /\
    (isfinite fuel_needed = true ->
     exists (whole : string) (digit : ascii),
       format_float 1 fuel_needed = whole ++ "." ++ String digit "" /\
       is_digit digit = true /\ has_char "." whole = false) /\
    (isfinite fuel_needed = false ->
     In (format_float 1 fuel_needed) ["inf"; "-inf"; "nan"]) /\
    has_char "." (str_int (max_fuel a)) = false.
Proof.
  unfold check_fuel_sufficiency.
  destruct (le_int fuel_needed (max_fuel a)).
  - exists "Fuel OK: ", " gal needed, ".
    split; [reflexivity|]. split; [now left|].
    split; [apply format_float_one_decimal|].
    split; [apply format_float_not_finite|].
    now apply str_int_no_char.
  - exists "Fuel warning: ", " gal needed, but only ".
    split; [reflexivity|]. split; [now right|].
    split; [apply format_float_one_decimal|].
    split; [apply format_float_not_finite|].
    now apply str_int_no_char.
Qed.

(** X1.  Whenever [calculate_flight_time] returns a text that is not the
    failure text, the text splits at white space into exactly four pieces,
    number, "hours", number, "minutes"; [float()] of the first and of the
    third piece gives floats whose [int()] is the whole hours and the
    minutes the function computed; and the text does not contain
    "Error". *)
Theorem duration_text_round_trip (distance speed headwind : float)
    (text : string) :
  calculate_flight_time distance speed headwind = Some text ->
  text <> headwind_error ->
  exists hours minutes : Z,
    text = duration_text hours minutes /\
    int_of_float (distance / (speed - headwind)) = Some hours /\
    split text = [str_int hours; "hours"; str_int minutes; "minutes"] /\
    float_of_str (str_int hours) = Some (nearest_float hours) /\
    int_of_float (nearest_float hours) = Some hours /\
    float_of_str (str_int minutes) = Some (nearest_float minutes) /\
    int_of_float (nearest_float minutes) = Some minutes /\
    contains "Error" text = false.
Proof.
  intros E N.
  destruct (flight_time_some _ _ _ _ E N) as [L Ed].
  destruct (flight_duration_some _ _ _ Ed) as [N0 F].
  destruct (flight_duration_finite distance (speed - headwind) N0 F)
    as (h & m & Et & Eh & _ & Er & _ & _ & _ & Pos & Neg).
  rewrite Ed in Et. injection Et as ->.
  exists h, m.
  split; [reflexivity|]. split; [exact Eh|].
  split; [apply duration_text_split|].
  split; [apply float_of_str_nearest|]. split; [exact Er|].
  split; [apply float_of_str_nearest|].
  split; [|apply duration_text_no_error].
  apply int_float_round_trip.
  assert (B : -59 <= m <= 59).
  { destruct (Qlt_le_dec (to_Q (distance / (speed - headwind))) 0) as [Q|Q].
    - destruct (Neg (Qlt_le_weak _ _ Q)) as (_ & _ & B). lia.
    - destruct (Pos Q) as (_ & _ & B). lia. }
  change (2 ^ 53) with 9007199254740992. lia.
Qed.

Lemma duration_text_round_trip_witness :
  exists hours minutes : Z,
    "2 hours 17 minutes" = duration_text hours minutes /\
    int_of_float (276 / (120 - 0)) = Some hours /\
    split "2 hours 17 minutes"
    = [str_int hours; "hours"; str_int minutes; "minutes"] /\
    float_of_str (str_int hours) = Some (nearest_float hours) /\
    int_of_float (nearest_float hours) = Some hours /\
    float_of_str (str_int minutes) = Some (nearest_float minutes) /\
    int_of_float (nearest_float minutes) = Some minutes /\
    contains "Error" "2 hours 17 minutes" = false.
Proof.
  apply (duration_text_round_trip 276 120 0 "2 hours 17 minutes").
  - vm_compute. reflexivity.
  - discriminate.
Defined.

(** X2.  A negative (or zero) distance is not refused: with a positive
    effective speed [calculate_flight_time] never returns the failure text.
    When the time of line 37 is finite it returns a duration whose hours
    are the ceiling of the time (so [<= 0]) and whose minutes lie in
    (-60, 0]; when the time is an infinity the function raises. *)
Theorem negative_distance_duration (distance speed headwind : float) :
  (distance <=? 0)%float = true ->
  (0 <? speed - headwind)%float = true ->
  let t := (distance / (speed - headwind))%float in
  calculate_flight_time distance speed headwind <> Some headwind_error /\
  (isfinite t = false ->
   calculate_flight_time distance speed headwind = None) /\
  (isfinite t = true ->
   exists hours minutes : Z,
     calculate_flight_time distance speed headwind
     = Some (duration_text hours minutes) /\
     hours = Qceiling (to_Q t) /\ hours <= 0 /\
     -60 < minutes <= 0).
Proof.
  intros Hd Ha t.
  pose proof (ltb_leb_false _ _ Ha) as L.
  split; [|split].
  - intros E.
    destruct (flight_time_text _ _ _ _ E) as [[L' _]|[_ (h & m & X)]];
      [congruence|].
    symmetry in X. now elim (duration_text_not_error h m).
  - apply flight_time_not_finite. exact L.
  - intros F. unfold calculate_flight_time. rewrite L.
    destruct (flight_duration_finite distance (speed - headwind)
                (leb_false_eqb _ _ L) F)
      as (h & m & Et & _ & _ & _ & _ & _ & _ & _ & Neg).
    assert (N : (to_Q t <= 0)%Q).
    { pose proof (quotient_nonpos distance (speed - headwind) Hd Ha) as S.
      fold t in S. unfold to_Q. unfold isfinite in F.
      destruct (Prim2SF t) as [s|s| |s mt et]; try discriminate F.
      - apply Qle_refl.
      - subst s. apply Qlt_le_weak, SF2Q_neg. }
    destruct (Neg N) as (Ce & H0 & Bm).
    exists h, m. repeat split; try assumption; lia.
Qed.

Lemma negative_distance_duration_witness :
  exists hours minutes : Z,
    calculate_flight_time (-300) 120 0 = Some (duration_text hours minutes) /\
    hours = Qceiling (to_Q (-300 / (120 - 0))) /\ hours <= 0 /\
    -60 < minutes <= 0.
Proof.
  apply (proj2 (proj2 (negative_distance_duration (-300) 120 0
                         eq_refl eq_refl))).
  reflexivity.
Defined.

(** X3.  The calculations block of [display_flight_plan] raises exactly
    when [calculate_flight_time] does: [split()] and [float()] never raise
    on the text it returns.  Otherwise the flight time of the plan is that
    text; the fuel check is "N/A" exactly when the text is the failure
    text, and that is exactly when the effective speed is [<= 0]; fuel and
    cost are then 0, and otherwise the cost is the binary64 product of the
    fuel and the price. *)
Theorem plan_cost_invariant (a : aircraft)
    (distance headwind fuel_price speed : float) :
  float_of_int (cruise_speed a) = Some speed ->
  (calculate_flight_time distance speed headwind = None ->
   plan_calculations a distance headwind fuel_price = None) /\
  (forall text : string,
      calculate_flight_time distance speed headwind = Some text ->
      exists p : plan,
        plan_calculations a distance headwind fuel_price = Some p /\
        flight_time p = text /\
        (fuel_check p = "N/A" <-> text = headwind_error) /\
        (text = headwind_error <->
         (speed - headwind <=? 0)%float = true) /\
        (text = headwind_error ->
         fuel_needed p = 0%float /\ cost p = 0%float) /\
        (text <> headwind_error ->
         cost p = (fuel_needed p * fuel_price)%float /\
         fuel_check p = check_fuel_sufficiency a (fuel_needed p))).
Proof.
  intros Es. split.
  - intros E. unfold plan_calculations. rewrite Es. cbn [bind].
    now rewrite E.
  - intros text E.
    destruct (flight_time_text _ _ _ _ E) as [[L ->]|[L (h & m & ->)]].
    + eexists. split; [apply (plan_of_failure _ _ _ _ _ Es E)|].
      cbn [flight_time fuel_check fuel_needed cost].
      split; [reflexivity|]. split; [split; reflexivity|].
      split; [split; [intros _; exact L | reflexivity]|].
      split; [intros _; split; reflexivity|].
      intros N. now elim N.
    + eexists. split; [apply (plan_of_duration _ _ _ _ _ _ _ Es E)|].
      cbn [flight_time fuel_check fuel_needed cost].
      pose proof (duration_text_not_error h m) as N.
      split; [reflexivity|]. split; [|split; [|split]].
      * split; [intros X; now elim (check_fuel_sufficiency_not_na _ _ X)
               | intros X; now elim N].
      * split; [intros X; now elim N | congruence].
      * intros X. now elim N.
      * intros _. split; reflexivity.
Qed.

Lemma plan_cost_invariant_witness :
  exists p : plan,
    plan_calculations C172 300 130 6.5 = Some p /\
    flight_time p = headwind_error /\
    (fuel_check p = "N/A" <-> headwind_error = headwind_error) /\
    (headwind_error = headwind_error <-> (120 - 130 <=? 0)%float = true) /\
    (headwind_error = headwind_error ->
     fuel_needed p = 0%float /\ cost p = 0%float) /\
    (headwind_error <> headwind_error ->
     cost p = (fuel_needed p * 6.5)%float /\
     fuel_check p = check_fuel_sufficiency C172 (fuel_needed p)).
Proof.
  apply (proj2 (plan_cost_invariant C172 300 130 6.5 120 eq_refl)).
  reflexivity.
Defined.

Lemma fuel_message_format_witness :
  (exists (whole : string) (digit : ascii),
      format_float 1 25.5 = whole ++ "." ++ String digit "" /\
      is_digit digit = true /\ has_char "." whole = false) /\
  In (format_float 1 infinity) ["inf"; "-inf"; "nan"].
Proof.
  split.
  - destruct (fuel_message_format C172 25.5) as (_ & _ & _ & _ & F & _).
    apply F. reflexivity.
  - destruct (fuel_message_format C172 infinity) as (_ & _ & _ & _ & _ & I & _).
    apply I. reflexivity.
Defined.

(** ** The order of binary64 numbers *)

Section OrderFacts64.

Lemma grid_unit : Zpos (Z.to_pos (2 ^ 1074)) = 2 ^ 1074.
Proof. apply Z2Pos.id. apply Z.pow_pos_nonneg; lia. Qed.

Lemma SF2Q_grid (x : spec_float) :
  valid_binary x = true ->
  (SF2Q x == SFgrid x # Z.to_pos (2 ^ 1074))%Q.
Proof.
  destruct x as [s|s| |s m e]; intros V; try reflexivity.
  apply valid_finite in V. destruct V as [C _].
  apply canonical_digits in C; [|lia]. destruct C as [L _].
  unfold SF2Q, SFgrid. rewrite <- cond_Zopp_mul.
  destruct (Z.leb_spec 0 e) as [P|N].
  - unfold Qeq, inject_Z. cbn [Qnum Qden]. rewrite grid_unit.
    rewrite Z.pow_add_r by lia. ring.
  - unfold Qeq. cbn [Qnum Qden]. rewrite grid_unit.
    rewrite Z2Pos.id by (apply Z.pow_pos_nonneg; lia).
    rewrite <- !Z.mul_assoc. f_equal.
    rewrite <- Z.pow_add_r by lia. f_equal. lia.
Qed.

Lemma Qcompare_same_den (a b : Z) (d : positive) :
  (a # d ?= b # d)%Q = (a ?= b).
Proof.
  unfold Qcompare. cbn [Qnum Qden].
  symmetry. apply Zmult_compare_compat_r. lia.
Qed.

Lemma to_Q_compare (x y : spec_float) :
  valid_binary x = true -> valid_binary y = true ->
  (SF2Q x ?= SF2Q y)%Q = (SFgrid x ?= SFgrid y).
Proof.
  intros Vx Vy.
  rewrite (SF2Q_grid x Vx), (SF2Q_grid y Vy). apply Qcompare_same_den.
Qed.

(** Mantissas of canonical numbers: a larger exponent is a larger number. *)
Lemma grid_exponent_lt (m1 : positive) (e1 : Z) (m2 : positive) (e2 : Z) :
  F64exp (Zdigits2 (Zpos m1) + e1) = e1 ->
  F64exp (Zdigits2 (Zpos m2) + e2) = e2 ->
  e1 < e2 ->
  Zpos m1 * 2 ^ (e1 + 1074) < Zpos m2 * 2 ^ (e2 + 1074).
Proof.
  intros C1 C2 L.
  apply canonical_digits in C1; [|lia]. destruct C1 as (L1 & D1 & _).
  apply canonical_digits in C2; [|lia]. destruct C2 as (L2 & _ & D2).
  specialize (D2 ltac:(lia)).
  pose proof (Zdigits2_bounds (Zpos m1) ltac:(lia)) as [_ B1].
  pose proof (Zdigits2_bounds (Zpos m2) ltac:(lia)) as [B2 _].
  rewrite D2 in B2. change (53 - 1) with 52 in B2.
  assert (B1' : Zpos m1 < 2 ^ 53).
  { eapply Z.lt_le_trans; [exact B1|]. apply Z.pow_le_mono_r; lia. }
  replace (e2 + 1074) with ((e1 + 1074) + (e2 - e1 - 1) + 1) by lia.
  rewrite (Z.pow_add_r 2 (e1 + 1074 + (e2 - e1 - 1)) 1),
    (Z.pow_add_r 2 (e1 + 1074) (e2 - e1 - 1)) by lia.
  assert (0 < 2 ^ (e1 + 1074)) by (apply Z.pow_pos_nonneg; lia).
  assert (1 <= 2 ^ (e2 - e1 - 1)).
  { change 1 with (2 ^ 0). apply Z.pow_le_mono_r; lia. }
  change (2 ^ 1) with 2. change (2 ^ 53) with (2 ^ 52 * 2) in B1'.
  assert (K : 0 < 2 ^ 52) by reflexivity.
  set (k := 2 ^ 52) in *. clearbody k.
  set (a := 2 ^ (e1 + 1074)) in *. clearbody a.
  set (b := 2 ^ (e2 - e1 - 1)) in *. clearbody b.
  apply Z.lt_le_trans with (k * 2 * a); [nia|].
  apply Z.le_trans with (Zpos m2 * 2 * a); [nia|].
  replace (Zpos m2 * (a * b * 2)) with (Zpos m2 * 2 * a * b) by ring.
  assert (0 <= Zpos m2 * 2 * a) by nia. nia.
Qed.

Lemma SFcompare_grid (x y : spec_float) :
  valid_binary x = true -> valid_binary y = true ->
  SFfinite x = true -> SFfinite y = true ->
  SFcompare x y = Some (SFgrid x ?= SFgrid y).
Proof.
  intros Vx Vy Fx Fy.
  destruct x as [sx|sx| |sx mx ex]; try discriminate Fx;
    destruct y as [sy|sy| |sy my ey]; try discriminate Fy;
    cbn [SFcompare SFgrid].
  - reflexivity.
  - assert (0 < Zpos my * 2 ^ (ey + 1074)).
    { apply valid_finite in Vy. destruct Vy as [C _].
      apply canonical_digits in C; [|lia].
      apply Z.mul_pos_pos; [lia | apply Z.pow_pos_nonneg; lia]. }
    destruct sy; cbn [cond_Zopp]; f_equal; symmetry;
      [apply Z.compare_gt_iff | apply Z.compare_lt_iff]; lia.
  - assert (0 < Zpos mx * 2 ^ (ex + 1074)).
    { apply valid_finite in Vx. destruct Vx as [C _].
      apply canonical_digits in C; [|lia].
      apply Z.mul_pos_pos; [lia | apply Z.pow_pos_nonneg; lia]. }
    destruct sx; cbn [cond_Zopp]; f_equal; symmetry;
      [apply Z.compare_lt_iff | apply Z.compare_gt_iff]; lia.
  - apply valid_finite in Vx. destruct Vx as [Cx _].
    apply valid_finite in Vy. destruct Vy as [Cy _].
    pose proof (canonical_digits (Zpos mx) ex ltac:(lia) Cx) as (Lx & _).
    pose proof (canonical_digits (Zpos my) ey ltac:(lia) Cy) as (Ly & _).
    assert (Px : 0 < Zpos mx * 2 ^ (ex + 1074))
      by (apply Z.mul_pos_pos; [lia | apply Z.pow_pos_nonneg; lia]).
    assert (Py : 0 < Zpos my * 2 ^ (ey + 1074))
      by (apply Z.mul_pos_pos; [lia | apply Z.pow_pos_nonneg; lia]).
    assert (Eqe : ex = ey ->
                  (Zpos mx * 2 ^ (ex + 1074) ?= Zpos my * 2 ^ (ey + 1074))
                  = Pos.compare_cont Eq mx my).
    { intros <-. rewrite <- Zmult_compare_compat_r
        by (apply Z.lt_gt, Z.pow_pos_nonneg; lia).
      reflexivity. }
    f_equal.
    destruct sx, sy; cbn [cond_Zopp].
    + rewrite Z.compare_opp.
      destruct (Z.compare_spec ex ey) as [E|L|G].
      * rewrite <- (Eqe E). symmetry. apply Z.compare_antisym.
      * symmetry. apply Z.compare_gt_iff.
        apply (grid_exponent_lt mx ex my ey Cx Cy L).
      * symmetry. apply Z.compare_lt_iff.
        apply (grid_exponent_lt my ey mx ex Cy Cx G).
    + symmetry. apply Z.compare_lt_iff. lia.
    + symmetry. apply Z.compare_gt_iff. lia.
    + destruct (Z.compare_spec ex ey) as [E|L|G].
      * now rewrite (Eqe E).
      * symmetry. apply Z.compare_lt_iff.
        apply (grid_exponent_lt mx ex my ey Cx Cy L).
      * symmetry. apply Z.compare_gt_iff.
        apply (grid_exponent_lt my ey mx ex Cy Cx G).
Qed.

(** Comparisons of finite floats are comparisons of their values. *)
Lemma compare_to_Q (x y : float) :
  isfinite x = true -> isfinite y = true ->
  SFcompare (Prim2SF x) (Prim2SF y) = Some (to_Q x ?= to_Q y)%Q.
Proof.
  intros Fx Fy. unfold to_Q.
  rewrite to_Q_compare by apply Prim2SF_valid.
  apply SFcompare_grid; try apply Prim2SF_valid; assumption.
Qed.

Lemma ltb_to_Q (x y : float) :
  isfinite x = true -> isfinite y = true ->
  (x <? y)%float = true <-> (to_Q x < to_Q y)%Q.
Proof.
  intros Fx Fy. rewrite FloatAxioms.ltb_spec. unfold SFltb.
  rewrite (compare_to_Q x y Fx Fy), Qlt_alt.
  destruct (to_Q x ?= to_Q y)%Q; split; congruence.
Qed.

Lemma quotient_pos (m k : Z) :
  0 < m -> 0 < k -> k = Zdigits2 m - 53 -> 0 < m / 2 ^ k.
Proof.
  intros Hm Hk E.
  pose proof (Zdigits2_bounds m Hm) as [B _].
  apply Z.div_str_pos. split; [apply Z.pow_pos_nonneg; lia|].
  eapply Z.le_trans; [|exact B]. apply Z.pow_le_mono_r; lia.
Qed.

Lemma finish_pos (s : bool) (m e : Z) :
  0 < m -> -1074 <= e ->
  (exists (m' : positive) (e' : Z), finish s m e = S754_finite s m' e') \/
  finish s m e = S754_infinity s.
Proof.
  intros Hm He. unfold finish.
  set (k := F64exp (Zdigits2 m + e) - e).
  assert (N : 0 < (if 0 <? k then m / 2 ^ k else m)).
  { destruct (0 <? k) eqn:L; [|exact Hm].
    apply Z.ltb_lt in L. apply quotient_pos; [exact Hm | exact L|].
    unfold k in *. rewrite F64exp_eq in *. lia. }
  destruct (if 0 <? k then m / 2 ^ k else m) as [|p|p]; [lia| |lia].
  destruct (_ <=? 971); [left; eexists _, _; reflexivity | now right].
Qed.

Lemma round_spec_pos (s : bool) (P E : Z) :
  0 < P -> -1074 <= E ->
  (exists (m' : positive) (e' : Z), round_spec s P E = S754_finite s m' e') \/
  round_spec s P E = S754_infinity s.
Proof.
  intros HP HE. unfold round_spec.
  set (k := F64exp (Zdigits2 P + E) - E).
  destruct (0 <? k) eqn:L; [|now apply finish_pos].
  apply Z.ltb_lt in L.
  assert (Q : 0 < P / 2 ^ k).
  { apply quotient_pos; [exact HP | exact L|].
    unfold k in *. rewrite F64exp_eq in *. lia. }
  pose proof (rne_of_bounds P k ltac:(lia) L) as [[B _] _].
  apply finish_pos; lia.
Qed.

(** Rounding a number that is not zero, on the grid of the subnormal
    numbers, gives a number that is not zero. *)
Lemma binary_round_pos (s : bool) (P : positive) (E : Z) :
  -1074 <= E ->
  (exists (m' : positive) (e' : Z),
      binary_round prec emax s P E = S754_finite s m' e') \/
  binary_round prec emax s P E = S754_infinity s.
Proof.
  intros HE. unfold binary_round.
  change (Zpos (digits2_pos P)) with (Zdigits2 (Zpos P)).
  fold (F64exp (Zdigits2 (Zpos P) + E)).
  rewrite shl_align_spec.
  set (e' := F64exp (Zdigits2 (Zpos P) + E)).
  assert (Le : -1074 <= e') by (unfold e'; rewrite F64exp_eq; lia).
  destruct (e' <? E) eqn:C.
  - apply Z.ltb_lt in C. rewrite bra_spec by lia.
    apply round_spec_pos; [lia | exact Le].
  - rewrite bra_spec by lia. apply round_spec_pos; [lia | exact HE].
Qed.

Lemma shl_align_min (m : positive) (e e' : Z) :
  e' <= e ->
  Zpos (fst (shl_align m e e')) = Zpos m * 2 ^ (e - e').
Proof.
  intros L. rewrite shl_align_spec.
  destruct (Z.ltb_spec e' e) as [C|C]; cbn [fst].
  - rewrite Z2Pos.id; [reflexivity|].
    apply Z.mul_pos_pos; [lia | apply Z.pow_pos_nonneg; lia].
  - replace (e - e') with 0 by lia. change (2 ^ 0) with 1. lia.
Qed.

(** The sign of a difference of finite numbers is exact: the
    difference is a multiple of the smallest subnormal number, so it is
    never rounded to zero. *)
Lemma SFsub_sign (x y : spec_float) :
  valid_binary x = true -> valid_binary y = true ->
  SFfinite x = true -> SFfinite y = true ->
  SFcompare (SF64sub x y) (S754_zero false)
  = Some (SFgrid x ?= SFgrid y).
Proof.
  intros Vx Vy Fx Fy.
  destruct x as [sx|sx| |sx mx ex]; try discriminate Fx;
    destruct y as [sy|sy| |sy my ey]; try discriminate Fy.
  - destruct sx, sy; reflexivity.
  - rewrite <- (SFcompare_grid (S754_zero sx) (S754_finite sy my ey))
      by assumption.
    destruct sy; reflexivity.
  - rewrite <- (SFcompare_grid (S754_finite sx mx ex) (S754_zero sy))
      by assumption.
    destruct sx; reflexivity.
  - apply valid_finite in Vx. destruct Vx as [Cx _].
    apply valid_finite in Vy. destruct Vy as [Cy _].
    pose proof (canonical_digits (Zpos mx) ex ltac:(lia) Cx) as (Lx & _).
    pose proof (canonical_digits (Zpos my) ey ltac:(lia) Cy) as (Ly & _).
    unfold SF64sub, SFsub. cbv zeta.
    set (ez := Z.min ex ey).
    rewrite !shl_align_min by (unfold ez; lia).
    set (D := cond_Zopp sx (Zpos mx * 2 ^ (ex - ez))
              - cond_Zopp sy (Zpos my * 2 ^ (ey - ez))).
    assert (G : SFgrid (S754_finite sx mx ex) - SFgrid (S754_finite sy my ey)
                = D * 2 ^ (ez + 1074)).
    { unfold D, SFgrid. rewrite Z.mul_sub_distr_r, !cond_Zopp_mul.
      rewrite <- !Z.mul_assoc, <- !Z.pow_add_r by (unfold ez; lia).
      now replace (ex - ez + (ez + 1074)) with (ex + 1074) by lia;
        replace (ey - ez + (ez + 1074)) with (ey + 1074) by lia. }
    assert (U : 0 < 2 ^ (ez + 1074))
      by (apply Z.pow_pos_nonneg; unfold ez; lia).
    destruct D as [|p|p] eqn:ED.
    + cbn [binary_normalize SFcompare]. f_equal. symmetry.
      apply Z.compare_eq_iff. lia.
    + change (Zpos p) with (cond_Zopp false (Zpos p)).
      rewrite binary_normalize_cond.
      assert (Hgt : (SFgrid (S754_finite sx mx ex)
                     ?= SFgrid (S754_finite sy my ey)) = Gt)
        by (apply Z.compare_gt_iff; nia).
      rewrite Hgt.
      destruct (binary_round_pos false p ez ltac:(unfold ez; lia))
        as [(m' & e' & ->)| ->]; reflexivity.
    + change (Zneg p) with (cond_Zopp true (Zpos p)).
      rewrite binary_normalize_cond.
      assert (Hlt : (SFgrid (S754_finite sx mx ex)
                     ?= SFgrid (S754_finite sy my ey)) = Lt)
        by (apply Z.compare_lt_iff; nia).
      rewrite Hlt.
      destruct (binary_round_pos true p ez ltac:(unfold ez; lia))
        as [(m' & e' & ->)| ->]; reflexivity.
Qed.

(** Line 34 on finite numbers: the test is exact. *)
Lemma sub_leb_zero (x y : float) :
  isfinite x = true -> isfinite y = true ->
  (x - y <=? 0)%float = true <-> (to_Q x <= to_Q y)%Q.
Proof.
  intros Fx Fy.
  rewrite FloatAxioms.leb_spec, FloatAxioms.sub_spec, Prim2SF_zero.
  unfold SFleb.
  rewrite SFsub_sign; try apply Prim2SF_valid; try assumption.
  rewrite <- to_Q_compare by apply Prim2SF_valid.
  fold (to_Q x) (to_Q y). rewrite Qle_alt.
  destruct (to_Q x ?= to_Q y)%Q; split; congruence.
Qed.

Lemma Prim2SF_nan_eq (x : float) : Prim2SF x = S754_nan -> x = nan.
Proof. intros E. apply Prim2SF_inj. rewrite E. reflexivity. Qed.

Lemma Prim2SF_inf_eq (x : float) (s : bool) :
  Prim2SF x = S754_infinity s -> x = if s then neg_infinity else infinity.
Proof. intros E. apply Prim2SF_inj. rewrite E. now destruct s. Qed.

(** [1.0 * x] is [x]. *)
Lemma mul_one_l (x : float) : (1 * x)%float = x.
Proof.
  apply Prim2SF_inj. rewrite FloatAxioms.mul_spec.
  change (Prim2SF 1) with (S754_finite false 4503599627370496 (-52)).
  pose proof (Prim2SF_valid x) as V.
  destruct (Prim2SF x) as [s|s| |s m e]; try reflexivity.
  apply valid_finite in V. destruct V as [C U].
  unfold SF64mul, SFmul. cbn [xorb].
  rewrite bra_spec by lia. unfold round_spec.
  assert (Em : Zpos (4503599627370496 * m) = Zpos m * 2 ^ 52) by lia.
  rewrite Em, Zdigits2_mul_pow2 by lia.
  replace (Zdigits2 (Zpos m) + 52 + (-52 + e)) with (Zdigits2 (Zpos m) + e)
    by lia.
  rewrite C. replace (e - (-52 + e)) with 52 by lia.
  cbn [Z.ltb Z.compare].
  assert (R : rne_of (Zpos m * 2 ^ 52) 52 = Zpos m).
  { unfold rne_of. rewrite Z.div_mul, Z.mod_mul by (apply Z.pow_nonzero; lia).
    reflexivity. }
  rewrite R. replace (-52 + e + 52) with e by lia.
  unfold finish. rewrite C, Z.sub_diag. cbn [Z.ltb Z.compare].
  replace (e <=? 971) with true by (symmetry; apply Z.leb_le; lia).
  reflexivity.
Qed.

End OrderFacts64.

(** X18.  The test of line 34 is exact on binary64 numbers: for a finite
    speed and a finite headwind the function returns the failure text
    exactly when the speed is at most the headwind, as real numbers; the
    difference of line 33 is rounded, but never to zero and never across
    it.  An infinite headwind fails, an infinite tailwind does not, and a
    NaN headwind passes the test and makes [int()] raise.  The speeds of
    the catalog convert to floats of the same value. *)
Theorem headwind_test_exact (distance speed headwind : float) :
  isfinite speed = true ->
  (isfinite headwind = true ->
   (calculate_flight_time distance speed headwind = Some headwind_error
    <-> (to_Q speed <= to_Q headwind)%Q)) /\
  calculate_flight_time distance speed infinity = Some headwind_error /\
  calculate_flight_time distance speed neg_infinity
  <> Some headwind_error /\
  calculate_flight_time distance speed nan = None /\
  Forall (fun e =>
            exists s : float,
              float_of_int (cruise_speed (snd e)) = Some s /\
              isfinite s = true /\
              (to_Q s == inject_Z (cruise_speed (snd e)))%Q)
         aircraft_db.
Proof.
  intros Fs.
  assert (T : forall h,
             calculate_flight_time distance speed h = Some headwind_error
             <-> (speed - h <=? 0)%float = true).
  { intros h. unfold calculate_flight_time.
    destruct (speed - h <=? 0)%float; split; try reflexivity;
      try discriminate.
    intros E. destruct (flight_duration_text _ _ _ E) as (hh & mm & X).
    symmetry in X. now elim (duration_text_not_error hh mm). }
  assert (S : forall h, Prim2SF (speed - h) = SF64sub (Prim2SF speed) (Prim2SF h))
    by (intros h; apply FloatAxioms.sub_spec).
  unfold isfinite in Fs.
  split; [|split; [|split; [|split]]].
  - intros Fh. rewrite T. now apply sub_leb_zero.
  - apply T. rewrite FloatAxioms.leb_spec, S.
    destruct (Prim2SF speed); try discriminate Fs; reflexivity.
  - rewrite T. rewrite FloatAxioms.leb_spec, S.
    destruct (Prim2SF speed); try discriminate Fs; discriminate.
  - unfold calculate_flight_time.
    assert (N : Prim2SF (speed - nan) = S754_nan).
    { rewrite S. destruct (Prim2SF speed); reflexivity. }
    apply Prim2SF_nan_eq in N. rewrite N.
    change (nan <=? 0)%float with false. cbv iota.
    apply flight_duration_not_finite; [reflexivity|].
    unfold isfinite. rewrite FloatAxioms.div_spec.
    change (Prim2SF nan) with S754_nan.
    destruct (Prim2SF distance); reflexivity.
  - unfold aircraft_db.
    repeat constructor; cbn [snd cruise_speed C172 PA28 SR22];
      eexists; (split; [reflexivity|]); split; reflexivity.
Qed.

Lemma headwind_test_exact_witness :
  calculate_flight_time 300 120 120 = Some headwind_error
  <-> (to_Q 120 <= to_Q 120)%Q.
Proof.
  apply (proj1 (headwind_test_exact 300 120 120 eq_refl)). reflexivity.
Defined.

(** X19.  On binary64 numbers too a distance of zero, of either sign, is
    not a failure: with an effective speed above 0, infinite or not, the
    flight time reads "0 hours 0 minutes", and the fuel of the plan is the
    reserve times the fuel burn, which is the fuel burn itself, with no
    rounding. *)
Theorem zero_distance_binary64 (distance speed headwind : float) :
  (distance =? 0)%float = true ->
  (0 <? speed - headwind)%float = true ->
  calculate_flight_time distance speed headwind = Some "0 hours 0 minutes" /\
  forall (a : aircraft) (fuel_price : float),
    float_of_int (cruise_speed a) = Some speed ->
    exists p : plan,
      plan_calculations a distance headwind fuel_price = Some p /\
      flight_time p = "0 hours 0 minutes" /\
      fuel_needed p = (default_reserve * fuel_burn a)%float /\
      fuel_needed p = fuel_burn a.
Proof.
  intros Z P.
  assert (T : calculate_flight_time distance speed headwind
              = Some (duration_text 0 0)).
  { unfold calculate_flight_time. rewrite (ltb_leb_false _ _ P).
    assert (N : (speed - headwind =? 0)%float = false).
    { apply leb_false_eqb. now apply ltb_leb_false. }
    pose proof (flight_duration_cases distance (speed - headwind) N) as C.
    rewrite FloatAxioms.div_spec in C.
    rewrite FloatAxioms.eqb_spec in Z. rewrite FloatAxioms.ltb_spec in P.
    rewrite Prim2SF_zero in Z, P.
    destruct (Prim2SF distance) as [sd|[]| |[] md ed];
      try discriminate Z.
    destruct (Prim2SF (speed - headwind)) as [sa|[]| |[] ma ea];
      try discriminate P; exact C. }
  split; [exact T|].
  intros a fuel_price Es. eexists.
  split; [apply (plan_of_duration _ _ _ _ _ _ _ Es T)|].
  cbn [flight_time fuel_needed]. split; [reflexivity|].
  unfold calculate_fuel_needed.
  change (nearest_float 0 + default_reserve)%float with default_reserve.
  split; [reflexivity|]. apply mul_one_l.
Qed.

Lemma zero_distance_binary64_witness :
  calculate_flight_time 0 120 20 = Some "0 hours 0 minutes" /\
  forall (a : aircraft) (fuel_price : float),
    float_of_int (cruise_speed a) = Some 120%float ->
    exists p : plan,
      plan_calculations a 0 20 fuel_price = Some p /\
      flight_time p = "0 hours 0 minutes" /\
      fuel_needed p = (default_reserve * fuel_burn a)%float /\
      fuel_needed p = fuel_burn a.
Proof.
  apply (zero_distance_binary64 0 120 20); reflexivity.
Defined.

(** X20.  The fuel check on binary64 numbers: the message is the "Fuel
    OK" one exactly when [fuel_needed <= max_fuel] holds in Python, and
    the "Fuel warning" one otherwise.  For a finite fuel that is the
    comparison of the exact values, the capacity being an int; of the
    other values only the negative infinity passes, so that an infinite
    or NaN fuel gets the warning. *)
Theorem fuel_check_binary64 (a : aircraft) (fuel_needed : float) :
  (String.prefix "Fuel OK: " (check_fuel_sufficiency a fuel_needed) = true
   <-> le_int fuel_needed (max_fuel a) = true) /\
  (String.prefix "Fuel warning: " (check_fuel_sufficiency a fuel_needed)
   = true
   <-> le_int fuel_needed (max_fuel a) = false) /\
  (isfinite fuel_needed = true ->
   (le_int fuel_needed (max_fuel a) = true
    <-> (to_Q fuel_needed <= inject_Z (max_fuel a))%Q)) /\
  (isfinite fuel_needed = false ->
   (le_int fuel_needed (max_fuel a) = true <-> fuel_needed = neg_infinity)).
Proof.
  split; [|split; [|split]].
  - unfold check_fuel_sufficiency.
    destruct (le_int fuel_needed (max_fuel a)); split; try reflexivity;
      try discriminate.
    intros _. apply prefix_app.
  - unfold check_fuel_sufficiency.
    destruct (le_int fuel_needed (max_fuel a)); split; try reflexivity;
      try discriminate.
    intros _. apply prefix_app.
  - unfold isfinite, le_int. intros F.
    destruct (Prim2SF fuel_needed) eqn:E; try discriminate F;
      apply Qle_bool_iff.
  - unfold isfinite, le_int. intros F.
    destruct (Prim2SF fuel_needed) as [s|s| |s m e] eqn:E;
      try discriminate F.
    + split.
      * intros ->. now apply (Prim2SF_inf_eq _ true).
      * intros ->. now injection E as <-.
    + split; [discriminate|]. intros ->. discriminate E.
Qed.

End Binary64Facts.

(** * The program at the terminal *)

Module ConsoleFacts.

Import Console.
Local Open Scope io_scope.
Local Open Scope list_scope.

Lemma reply_eta {A} (r : reply A) :
  Reply (value r) (rest r) (printed r) = r.
Proof. now destruct r. Qed.

Lemma prefixed_prefixed {A} (l1 l2 : list string) (r : reply A) :
  prefixed l1 (prefixed l2 r) = prefixed (l1 ++ l2) r.
Proof. unfold prefixed. simpl. now rewrite app_assoc. Qed.

Section Pieces.

Context {A B : Type}.

Lemma bind_ret (a : A) (k : A -> io B) (stdin : list string) :
  bind (ret a) k stdin = k a stdin.
Proof. unfold bind, ret. simpl. apply reply_eta. Qed.

Lemma bind_lift_some (a : A) (k : A -> io B) (stdin : list string) :
  bind (lift (Some a)) k stdin = k a stdin.
Proof. apply bind_ret. Qed.

Lemma bind_print (s : string) (k : unit -> io B) (stdin : list string) :
  bind (print s) k stdin = prefixed [s] (k tt stdin).
Proof. reflexivity. Qed.

Lemma bind_input_cons (k : string -> io B) (line : string)
    (stdin : list string) :
  bind input k (line :: stdin) = k line stdin.
Proof. unfold bind, input. simpl. apply reply_eta. Qed.

(** What a run of two pieces leaves is what the second leaves, after the
    lines of the first. *)
Lemma bind_some (m : io A) (k : A -> io B) (stdin : list string) (a : A) :
  value (m stdin) = Some a ->
  bind m k stdin = prefixed (printed (m stdin)) (k a (rest (m stdin))).
Proof. intros H. unfold bind. now rewrite H. Qed.

End Pieces.

Lemma print_all_run (lines stdin : list string) :
  print_all lines stdin = Reply (Some tt) stdin lines.
Proof.
  induction lines as [|l lines IH]; [reflexivity|].
  cbn [print_all]. rewrite bind_print, IH. reflexivity.
Qed.

Lemma bind_print_all {B} (lines : list string) (k : unit -> io B)
    (stdin : list string) :
  bind (print_all lines) k stdin = prefixed lines (k tt stdin).
Proof.
  rewrite (bind_some _ _ _ tt) by now rewrite print_all_run.
  now rewrite print_all_run.
Qed.

(** *** Input is read from the front *)

Section ReadsFront.

Context {A B : Type}.

Lemma reads_front_length (m : io A) (stdin : list string) :
  reads_front m -> (List.length (rest (m stdin)) <= List.length stdin)%nat.
Proof.
  intros H. destruct (H stdin) as [front E].
  rewrite E at 2. rewrite List.length_app. lia.
Qed.

Lemma reads_front_ret (a : A) : reads_front (ret a).
Proof. intros stdin. now exists []. Qed.

Lemma reads_front_lift (o : option A) : reads_front (lift o).
Proof. intros stdin. now exists []. Qed.

Lemma reads_front_bind (m : io A) (k : A -> io B) :
  reads_front m -> (forall a, reads_front (k a)) -> reads_front (bind m k).
Proof.
  intros Hm Hk stdin. destruct (Hm stdin) as [f1 E1]. unfold bind.
  destruct (value (m stdin)) as [a|]; simpl.
  - destruct (Hk a (rest (m stdin))) as [f2 E2].
    exists (f1 ++ f2). now rewrite <- app_assoc, <- E2.
  - now exists f1.
Qed.

Lemma reads_front_catch (m handler : io A) :
  reads_front m -> reads_front handler -> reads_front (catch m handler).
Proof.
  intros Hm Hh stdin. destruct (Hm stdin) as [f1 E1]. unfold catch.
  destruct (value (m stdin)) as [a|]; simpl.
  - now exists f1.
  - destruct (Hh (rest (m stdin))) as [f2 E2].
    exists (f1 ++ f2). now rewrite <- app_assoc, <- E2.
Qed.

End ReadsFront.

Lemma reads_front_print (s : string) : reads_front (print s).
Proof. intros stdin. now exists []. Qed.

Lemma reads_front_print_all (lines : list string) :
  reads_front (print_all lines).
Proof. intros stdin. rewrite print_all_run. now exists []. Qed.

Lemma reads_front_input : reads_front input.
Proof.
  intros [|line stdin]; [now exists [] | now exists [line]].
Qed.

Create HintDb front.

#[local] Hint Resolve reads_front_ret reads_front_lift reads_front_print
  reads_front_print_all reads_front_input : front.

Local Ltac front :=
  repeat first
    [ apply reads_front_bind; [|intros ?]
    | apply reads_front_catch
    | progress auto with front
    | match goal with
      | |- reads_front (match ?x with _ => _ end) => destruct x
      | |- reads_front (let _ := _ in _) => cbv zeta
      | |- reads_front (if ?b then _ else _) => destruct b
      end ].

Section Reports.

Variable float_repr : Q -> string.
Variable parse_float : string -> option Q.

Lemma reads_front_float_input : reads_front (float_input parse_float).
Proof. unfold float_input. front. Qed.

Lemma reads_front_display_flight_plan :
  reads_front (display_flight_plan float_repr parse_float).
Proof.
  pose proof reads_front_float_input.
  unfold display_flight_plan, read_flight_details. front.
Qed.

Lemma reads_front_aircraft_comparison :
  reads_front (aircraft_comparison float_repr parse_float).
Proof.
  pose proof reads_front_float_input.
  unfold aircraft_comparison, read_trip_distance. front.
Qed.

End Reports.

(** *** Reading the numbers of a trip *)

Section Reading.

Variable parse_float : string -> option Q.

Lemma float_input_some {B} (k : Q -> io B) (line : string) (q : Q)
    (stdin : list string) :
  parse_float line = Some q ->
  bind (float_input parse_float) k (line :: stdin) = k q stdin.
Proof.
  intros H. unfold float_input, bind, input, lift. simpl. rewrite H. simpl.
  apply reply_eta.
Qed.

Lemma float_input_none {B} (k : Q -> io B) (line : string)
    (stdin : list string) :
  parse_float line = None ->
  bind (float_input parse_float) k (line :: stdin) = Reply None stdin [].
Proof.
  intros H. unfold float_input, bind, input, lift. simpl. now rewrite H.
Qed.

(** The first line that is not a number ends the reading; the lines after
    it are left alone. *)
Lemma read_flight_details_bad (numbers : list string) (bad : string)
    (stdin : list string) :
  (List.length numbers < 3)%nat ->
  Forall (fun l => parse_float l <> None) numbers ->
  parse_float bad = None ->
  read_flight_details parse_float (numbers ++ bad :: stdin)
  = Reply (Some None) stdin ["Please enter valid numbers!"%string].
Proof.
  intros Hn Hf Hb. unfold read_flight_details, catch.
  destruct numbers as [|l1 [|l2 [|l3 numbers]]]; simpl in Hn; try lia;
    simpl app.
  - rewrite (float_input_none _ _ _ Hb). reflexivity.
  - inversion Hf as [|? ? P1 _]; subst.
    destruct (parse_float l1) as [d|] eqn:E1; [|contradiction].
    rewrite (float_input_some _ _ _ _ E1), (float_input_none _ _ _ Hb).
    reflexivity.
  - inversion Hf as [|? ? P1 Hf']; subst.
    inversion Hf' as [|? ? P2 _]; subst.
    destruct (parse_float l1) as [d|] eqn:E1; [|contradiction].
    destruct (parse_float l2) as [h|] eqn:E2; [|contradiction].
    rewrite (float_input_some _ _ _ _ E1), (float_input_some _ _ _ _ E2),
      (float_input_none _ _ _ Hb).
    reflexivity.
Qed.

(** The end of the input ends the reading in the same way. *)
Lemma read_flight_details_eof (numbers : list string) :
  (List.length numbers < 3)%nat ->
  Forall (fun l => parse_float l <> None) numbers ->
  read_flight_details parse_float numbers
  = Reply (Some None) [] ["Please enter valid numbers!"%string].
Proof.
  intros Hn Hf. unfold read_flight_details, catch.
  destruct numbers as [|l1 [|l2 [|l3 numbers]]]; simpl in Hn; try lia.
  - reflexivity.
  - inversion Hf as [|? ? P1 _]; subst.
    destruct (parse_float l1) as [d|] eqn:E1; [|contradiction].
    rewrite (float_input_some _ _ _ _ E1). reflexivity.
  - inversion Hf as [|? ? P1 Hf']; subst.
    inversion Hf' as [|? ? P2 _]; subst.
    destruct (parse_float l1) as [d|] eqn:E1; [|contradiction].
    destruct (parse_float l2) as [h|] eqn:E2; [|contradiction].
    rewrite (float_input_some _ _ _ _ E1), (float_input_some _ _ _ _ E2).
    reflexivity.
Qed.

End Reading.

(** *** The flight plan report at the terminal *)

(** X9.  An unknown aircraft code, typed in ASCII characters, ends the
    report at once: after the catalog listing it prints that the aircraft
    is not found, asks for nothing more, and leaves every later line of
    the input unread. *)
Theorem unknown_aircraft_report (float_repr : Q -> string)
    (parse_float : string -> option Q) (choice : string)
    (stdin : list string) :
  all_chars is_ascii choice = true ->
  ~ In (upper choice) (map fst aircraft_db) ->
  display_flight_plan float_repr parse_float (choice :: stdin)
  = Reply (Some tt) stdin
      [ ("=== Flight Plan Assistant ===" ++ nl)%string;
        "Available Aircraft:"%string;
        "  C172: Cessna 172"%string;
        "  PA28: Piper Cherokee"%string;
        "  SR22: Cirrus SR22"%string;
        "Sorry, aircraft not found!"%string ].
Proof.
  intros _ H. apply lookup_None in H.
  unfold display_flight_plan.
  rewrite !bind_print, bind_print_all, bind_input_cons. cbv zeta.
  rewrite H. reflexivity.
Qed.

Lemma unknown_aircraft_report_witness :
  display_flight_plan (format_f 1) float_of_str
    ["xyz"; "300"; "0"; "6"]%string
  = Reply (Some tt) ["300"; "0"; "6"]%string
      [ ("=== Flight Plan Assistant ===" ++ nl)%string;
        "Available Aircraft:"%string;
        "  C172: Cessna 172"%string;
        "  PA28: Piper Cherokee"%string;
        "  SR22: Cirrus SR22"%string;
        "Sorry, aircraft not found!"%string ].
Proof.
  apply (unknown_aircraft_report (format_f 1) float_of_str "xyz"
           ["300"; "0"; "6"]%string).
  - reflexivity.
  - simpl. intuition discriminate.
Defined.

(** X11.  With a code of the catalog, the first line that is not a number,
    or the end of the input, ends the report with one message: nothing is
    computed, and the lines after the bad one stay unread. *)
Theorem flight_plan_bad_number (float_repr : Q -> string)
    (parse_float : string -> option Q) (choice : string) (a : aircraft)
    (numbers : list string) :
  lookup (upper choice) aircraft_db = Some a ->
  (List.length numbers < 3)%nat ->
  Forall (fun l => parse_float l <> None) numbers ->
  let out :=
    [ ("=== Flight Plan Assistant ===" ++ nl)%string;
      "Available Aircraft:"%string;
      "  C172: Cessna 172"%string;
      "  PA28: Piper Cherokee"%string;
      "  SR22: Cirrus SR22"%string;
      (nl ++ "Selected: " ++ name a)%string;
      "Please enter valid numbers!"%string ] in
  (forall (bad : string) (stdin : list string),
      parse_float bad = None ->
      display_flight_plan float_repr parse_float
        (choice :: numbers ++ bad :: stdin)
      = Reply (Some tt) stdin out) /\
  display_flight_plan float_repr parse_float (choice :: numbers)
  = Reply (Some tt) [] out.
Proof.
  intros Ha Hn Hf out. split.
  - intros bad stdin Hb. unfold display_flight_plan.
    rewrite !bind_print, bind_print_all, bind_input_cons. cbv zeta.
    rewrite Ha, bind_print.
    rewrite (bind_some _ _ _ None)
      by (now rewrite (read_flight_details_bad _ _ _ _ Hn Hf Hb)).
    rewrite (read_flight_details_bad _ _ _ _ Hn Hf Hb). reflexivity.
  - unfold display_flight_plan.
    rewrite !bind_print, bind_print_all, bind_input_cons. cbv zeta.
    rewrite Ha, bind_print.
    rewrite (bind_some _ _ _ None)
      by (now rewrite (read_flight_details_eof _ _ Hn Hf)).
    rewrite (read_flight_details_eof _ _ Hn Hf). reflexivity.
Qed.

Lemma flight_plan_bad_number_witness :
  display_flight_plan (format_f 1) float_of_str
    ["c172"; "300"; "fast"; "6"; "4"]%string
  = Reply (Some tt) ["6"; "4"]%string
      [ ("=== Flight Plan Assistant ===" ++ nl)%string;
        "Available Aircraft:"%string;
        "  C172: Cessna 172"%string;
        "  PA28: Piper Cherokee"%string;
        "  SR22: Cirrus SR22"%string;
        (nl ++ "Selected: Cessna 172")%string;
        "Please enter valid numbers!"%string ].
Proof.
  refine (proj1 (flight_plan_bad_number (format_f 1) float_of_str
                   "c172" C172 ["300"%string] _ _ _)
            "fast"%string ["6"; "4"]%string _).
  - reflexivity.
  - simpl. lia.
  - repeat constructor. discriminate.
  - reflexivity.
Defined.

(** *** The menu *)

Lemma bind_ext {A B} (m : io A) (k1 k2 : A -> io B) (stdin : list string) :
  (forall a, k1 a (rest (m stdin)) = k2 a (rest (m stdin))) ->
  bind m k1 stdin = bind m k2 stdin.
Proof.
  intros H. unfold bind. destruct (value (m stdin)); [|reflexivity].
  now rewrite H.
Qed.

Lemma last_app_end (l1 l2 : list string) (x d : string) :
  List.last l2 d = x -> x <> d -> List.last (l1 ++ l2) d = x.
Proof.
  intros H N. destruct l2 as [|y l2]; [simpl in H; congruence|].
  rewrite <- H. clear H N.
  induction l1 as [|a l1 IH]; [reflexivity|].
  rewrite <- IH. cbn [app].
  destruct (l1 ++ y :: l2) eqn:E; [now destruct l1 | reflexivity].
Qed.

Section Menu.

Variable float_repr : Q -> string.
Variable parse_float : string -> option Q.

Local Abbreviation the_plan := (display_flight_plan float_repr parse_float).
Local Abbreviation the_table := (aircraft_comparison float_repr parse_float).
Local Abbreviation choose := (menu_choice float_repr parse_float).
Local Abbreviation turn := (menu_turn float_repr parse_float).
Local Abbreviation loop := (main_menu_loop float_repr parse_float).
Local Abbreviation menu := (main_menu float_repr parse_float).

Lemma menu_turn_cons (again : io unit) (choice : string)
    (stdin : list string) :
  turn again (choice :: stdin) = prefixed menu_lines (choose again choice stdin).
Proof.
  unfold menu_turn. now rewrite bind_print_all, bind_input_cons.
Qed.

(** A turn looks at the rest of the loop only on input it has left. *)
Lemma menu_choice_ext (again1 again2 : io unit) (choice : string)
    (stdin : list string) :
  (forall s, (List.length s <= List.length stdin)%nat ->
             again1 s = again2 s) ->
  choose again1 choice stdin = choose again2 choice stdin.
Proof.
  intros H. unfold menu_choice.
  destruct (String.eqb choice "1").
  { apply bind_ext. intros _. apply H, reads_front_length,
      reads_front_display_flight_plan. }
  destruct (String.eqb choice "2").
  { apply bind_ext. intros _. apply H, reads_front_length,
      reads_front_aircraft_comparison. }
  destruct (String.eqb choice "3").
  { apply bind_ext. intros _. apply bind_ext. intros _.
    rewrite print_all_run. apply H. simpl. lia. }
  destruct (String.eqb choice "4"); [reflexivity|].
  apply bind_ext. intros _. apply H. simpl. lia.
Qed.

Lemma menu_turn_ext (again1 again2 : io unit) (stdin : list string) :
  (forall s, (List.length s < List.length stdin)%nat ->
             again1 s = again2 s) ->
  turn again1 stdin = turn again2 stdin.
Proof.
  intros H. destruct stdin as [|choice stdin]; [reflexivity|].
  rewrite !menu_turn_cons. f_equal. apply menu_choice_ext.
  intros s Hs. apply H. simpl. lia.
Qed.

(** Turns beyond the number of lines are never reached. *)
Lemma main_menu_loop_fuel (fuel1 : nat) :
  forall (fuel2 : nat) (stdin : list string),
    (List.length stdin < fuel1)%nat -> (List.length stdin < fuel2)%nat ->
    loop fuel1 stdin = loop fuel2 stdin.
Proof.
  induction fuel1 as [|fuel1 IH]; intros fuel2 stdin H1 H2; [lia|].
  destruct fuel2 as [|fuel2]; [lia|].
  cbn [main_menu_loop]. apply menu_turn_ext.
  intros s Hs. apply IH; lia.
Qed.

(** The loop is one turn and then the loop. *)
Lemma main_menu_unfold (stdin : list string) :
  menu stdin = turn menu stdin.
Proof.
  unfold main_menu at 1. cbn [main_menu_loop]. apply menu_turn_ext.
  intros s Hs. unfold main_menu. apply main_menu_loop_fuel; lia.
Qed.

End Menu.

(** The loop returns only after a turn that reads the choice 4, and the
    farewell is then the last line printed. *)
Section Exit.

Variable float_repr : Q -> string.
Variable parse_float : string -> option Q.

Local Abbreviation menu := (main_menu float_repr parse_float).

Lemma farewell_nonempty : farewell <> ""%string.
Proof. discriminate. Qed.

Lemma exits_bind (m again : io unit) (stdin : list string) :
  reads_front m ->
  (forall s, (List.length s <= List.length stdin)%nat -> exits again s) ->
  exits (bind m (fun _ => again)) stdin.
Proof.
  intros Hm IH. unfold exits, bind.
  pose proof (reads_front_length m stdin Hm) as L.
  destruct (Hm stdin) as [front E].
  destruct (m stdin) as [[[]|] r out]; cbn [value rest printed] in *;
    [|discriminate].
  intros V. destruct (IH r L V) as [I F]. split.
  - rewrite E. apply in_or_app. now right.
  - apply last_app_end; [exact F | apply farewell_nonempty].
Qed.

End Exit.

(** X14.  The bounded unrolling is the [while True] loop: one turn more
    than there are lines of input is always enough, further turns change
    nothing, and the menu is one turn followed by the menu. *)
Theorem main_menu_fuel_enough (float_repr : Q -> string)
    (parse_float : string -> option Q) (stdin : list string) :
  (forall fuel : nat,
      (List.length stdin < fuel)%nat ->
      main_menu_loop float_repr parse_float fuel stdin
      = main_menu float_repr parse_float stdin) /\
  main_menu float_repr parse_float stdin
  = menu_turn float_repr parse_float (main_menu float_repr parse_float)
      stdin.
Proof.
  split; [|apply main_menu_unfold].
  intros fuel H. unfold main_menu. apply main_menu_loop_fuel; lia.
Qed.

Lemma main_menu_fuel_enough_witness :
  main_menu_loop (format_f 1) float_of_str 9 ["2"; "300"; "4"]%string
  = main_menu (format_f 1) float_of_str ["2"; "300"; "4"]%string.
Proof.
  apply (proj1 (main_menu_fuel_enough (format_f 1) float_of_str
                  ["2"; "300"; "4"]%string) 9%nat).
  simpl. lia.
Defined.

(** X15.  The choices 1, 2 and 3.  On 1 and 2 the menu runs the report on
    the lines that follow and then comes back on the lines the report left;
    an exception in the report ends the menu.  On 3 it prints five lines
    for each aircraft of the catalog, in catalog order, and comes back. *)
Theorem menu_dispatch (float_repr : Q -> string)
    (parse_float : string -> option Q) (stdin : list string) :
  main_menu float_repr parse_float ("1"%string :: stdin)
  = prefixed menu_lines
      (bind (display_flight_plan float_repr parse_float)
         (fun _ => main_menu float_repr parse_float) stdin) /\
  main_menu float_repr parse_float ("2"%string :: stdin)
  = prefixed menu_lines
      (bind (aircraft_comparison float_repr parse_float)
         (fun _ => main_menu float_repr parse_float) stdin) /\
  main_menu float_repr parse_float ("3"%string :: stdin)
  = prefixed
      (menu_lines ++
       [ (nl ++ "Aircraft Information:")%string;
         (nl ++ "Cessna 172:")%string;
         "  Cruise: 120 knots"%string;
         ("  Fuel burn: " ++ float_repr 8.5 ++ " gal/hour")%string;
         "  Max fuel: 56 gallons"%string;
         "  Seats: 4"%string;
         (nl ++ "Piper Cherokee:")%string;
         "  Cruise: 130 knots"%string;
         ("  Fuel burn: " ++ float_repr 9.0 ++ " gal/hour")%string;
         "  Max fuel: 50 gallons"%string;
         "  Seats: 4"%string;
         (nl ++ "Cirrus SR22:")%string;
         "  Cruise: 185 knots"%string;
         ("  Fuel burn: " ++ float_repr 15.0 ++ " gal/hour")%string;
         "  Max fuel: 92 gallons"%string;
         "  Seats: 5"%string ])
      (main_menu float_repr parse_float stdin).
Proof.
  split; [|split]; rewrite main_menu_unfold, menu_turn_cons.
  - reflexivity.
  - reflexivity.
  - unfold menu_choice. cbn [String.eqb Ascii.eqb Bool.eqb].
    rewrite bind_print, bind_print_all, !prefixed_prefixed. reflexivity.
Qed.

(** X16.  Any line other than 1, 2, 3 or 4, compared as it was typed,
    brings the retry message and the menu again on the next line. *)
Theorem menu_retry (float_repr : Q -> string)
    (parse_float : string -> option Q) (choice : string)
    (stdin : list string) :
  ~ In choice ["1"; "2"; "3"; "4"]%string ->
  main_menu float_repr parse_float (choice :: stdin)
  = prefixed (menu_lines ++ ["Please choose 1-4"%string])
      (main_menu float_repr parse_float stdin).
Proof.
  intros H. rewrite main_menu_unfold, menu_turn_cons. unfold menu_choice.
  destruct (String.eqb_spec choice "1") as [->|_]; [elim H; simpl; tauto|].
  destruct (String.eqb_spec choice "2") as [->|_]; [elim H; simpl; tauto|].
  destruct (String.eqb_spec choice "3") as [->|_]; [elim H; simpl; tauto|].
  destruct (String.eqb_spec choice "4") as [->|_]; [elim H; simpl; tauto|].
  now rewrite bind_print, prefixed_prefixed.
Qed.

Lemma menu_retry_witness :
  main_menu (format_f 1) float_of_str [" 1"; "4"]%string
  = prefixed (menu_lines ++ ["Please choose 1-4"%string])
      (main_menu (format_f 1) float_of_str ["4"%string]).
Proof.
  apply (menu_retry (format_f 1) float_of_str " 1"%string ["4"%string]).
  simpl. intuition discriminate.
Defined.

End ConsoleFacts.

(** * The program at the terminal, on binary64 numbers *)

Module Console64Facts.

Import Float64 Binary64 Console Console64 ConsoleFacts Binary64Facts.

Local Open Scope list_scope.
Local Open Scope string_scope.
Local Open Scope io_scope.

#[local] Hint Resolve reads_front_ret reads_front_lift reads_front_print
  reads_front_print_all reads_front_input : front.

Local Ltac front64 :=
  repeat first
    [ apply reads_front_bind; [|intros ?]
    | apply reads_front_catch
    | progress auto with front
    | match goal with
      | |- reads_front (match ?x with _ => _ end) => destruct x
      | |- reads_front (let _ := _ in _) => cbv zeta
      | |- reads_front (if ?b then _ else _) => destruct b
      end ].

Lemma reads_front_comparison_loop (db : list (string * aircraft))
    (distance : float) :
  reads_front (comparison_loop db distance).
Proof.
  induction db as [|[code a] db IH]; cbn [comparison_loop]; front64.
Qed.

(** The loop prints the rows of [comparison_rows] when no turn raises. *)
Lemma comparison_loop_rows (db : list (string * aircraft)) (distance : float)
    (rows : list string) (stdin : list string) :
  comparison_rows db distance = Some rows ->
  comparison_loop db distance stdin = Reply (Some tt) stdin rows.
Proof.
  revert rows. induction db as [|[code a] db IH]; intros rows;
    cbn [comparison_rows comparison_loop].
  - intros [= <-]. reflexivity.
  - destruct (comparison_figures a distance) as [[f|]|]; cbn [FlightPlan.bind];
      [| |discriminate].
    + rewrite bind_lift_some. cbv beta iota.
      destruct (comparison_line a f) as [line|]; cbn [FlightPlan.bind];
        [|discriminate].
      destruct (comparison_rows db distance) as [rows'|];
        cbn [FlightPlan.bind]; [|discriminate].
      intros [= <-]. rewrite bind_lift_some. cbv beta. rewrite bind_print.
      rewrite (IH rows' eq_refl). reflexivity.
    + intros E. rewrite bind_lift_some. cbv beta iota. apply IH. exact E.
Qed.

Section Reading64.

Variable float_repr : float -> string.
Variable parse_float : string -> option float.
Variable str_upper : string -> string.

Local Abbreviation the_plan := (display_flight_plan float_repr parse_float str_upper).
Local Abbreviation the_table := (aircraft_comparison float_repr parse_float).

Lemma float_input64_some {B} (k : float -> io B) (line : string) (x : float)
    (stdin : list string) :
  parse_float line = Some x ->
  bind (float_input parse_float) k (line :: stdin) = k x stdin.
Proof.
  intros H. unfold float_input, bind, input, lift. simpl. rewrite H. simpl.
  apply reply_eta.
Qed.

Lemma float_input64_none {B} (k : float -> io B) (line : string)
    (stdin : list string) :
  parse_float line = None ->
  bind (float_input parse_float) k (line :: stdin) = Reply None stdin [].
Proof.
  intros H. unfold float_input, bind, input, lift. simpl. now rewrite H.
Qed.

Lemma reads_front_float_input64 : reads_front (float_input parse_float).
Proof. unfold float_input. front64. Qed.

Lemma reads_front_display_flight_plan64 : reads_front the_plan.
Proof.
  pose proof reads_front_float_input64.
  unfold display_flight_plan, read_flight_details. front64.
Qed.

Lemma reads_front_aircraft_comparison64 : reads_front the_table.
Proof.
  pose proof reads_front_float_input64.
  pose proof reads_front_comparison_loop.
  unfold aircraft_comparison, read_trip_distance. front64.
Qed.

Lemma read_flight_details64_three (l1 l2 l3 : string) (d h p : float)
    (stdin : list string) :
  parse_float l1 = Some d -> parse_float l2 = Some h ->
  parse_float l3 = Some p ->
  read_flight_details parse_float (l1 :: l2 :: l3 :: stdin)
  = Reply (Some (Some (d, h, p))) stdin [].
Proof.
  intros H1 H2 H3. unfold read_flight_details, catch.
  rewrite (float_input64_some _ _ _ _ H1), (float_input64_some _ _ _ _ H2),
    (float_input64_some _ _ _ _ H3).
  reflexivity.
Qed.

(** The three numbers are read when, and only when, the next three lines
    are numbers; otherwise the message is printed, and nothing raises. *)
Lemma read_flight_details64_cases (stdin : list string) :
  (exists (l1 l2 l3 : string) (rest' : list string) (d h p : float),
      stdin = l1 :: l2 :: l3 :: rest' /\
      parse_float l1 = Some d /\ parse_float l2 = Some h /\
      parse_float l3 = Some p /\
      read_flight_details parse_float stdin
      = Reply (Some (Some (d, h, p))) rest' []) \/
  (exists rest' : list string,
      read_flight_details parse_float stdin
      = Reply (Some None) rest' ["Please enter valid numbers!"]).
Proof.
  unfold read_flight_details, catch.
  destruct stdin as [|l1 stdin]; [right; eexists; reflexivity|].
  destruct (parse_float l1) as [d|] eqn:E1.
  2:{ right. rewrite (float_input64_none _ _ _ E1). eexists. reflexivity. }
  rewrite (float_input64_some _ _ _ _ E1).
  destruct stdin as [|l2 stdin]; [right; eexists; reflexivity|].
  destruct (parse_float l2) as [h|] eqn:E2.
  2:{ right. rewrite (float_input64_none _ _ _ E2). eexists. reflexivity. }
  rewrite (float_input64_some _ _ _ _ E2).
  destruct stdin as [|l3 stdin]; [right; eexists; reflexivity|].
  destruct (parse_float l3) as [p|] eqn:E3.
  2:{ right. rewrite (float_input64_none _ _ _ E3). eexists. reflexivity. }
  rewrite (float_input64_some _ _ _ _ E3).
  left. exists l1, l2, l3, stdin, d, h, p. repeat split; assumption.
Qed.

Lemma read_trip_distance64_cases (stdin : list string) :
  read_trip_distance parse_float stdin
  = match stdin with
    | [] => Reply (Some None) [] ["Please enter a valid number!"]
    | line :: stdin' =>
        match parse_float line with
        | Some distance => Reply (Some (Some distance)) stdin' []
        | None => Reply (Some None) stdin' ["Please enter a valid number!"]
        end
    end.
Proof.
  unfold read_trip_distance, catch. destruct stdin as [|line stdin].
  - reflexivity.
  - destruct (parse_float line) as [d|] eqn:E.
    + rewrite (float_input64_some _ _ _ _ E). reflexivity.
    + rewrite (float_input64_none _ _ _ E). reflexivity.
Qed.

(** The report once the aircraft is chosen. *)
Lemma display_flight_plan64_found (choice : string) (a : aircraft)
    (stdin : list string) :
  lookup (str_upper choice) aircraft_db = Some a ->
  the_plan (choice :: stdin)
  = prefixed
      ([ ("=== Flight Plan Assistant ===" ++ nl)%string;
         "Available Aircraft:" ]
       ++ catalog_listing ++ [ (nl ++ "Selected: " ++ name a)%string ])%list
      (bind (read_flight_details parse_float)
         (fun details =>
            match details with
            | None => ret tt
            | Some (distance, headwind, fuel_price) =>
                bind (lift (plan_calculations a distance headwind fuel_price))
                  (fun p =>
                     print_all (plan_summary float_repr a distance headwind p))
            end) stdin).
Proof.
  intros Ha. unfold display_flight_plan.
  rewrite !bind_print, bind_print_all, bind_input_cons. cbv zeta.
  rewrite Ha, bind_print, !prefixed_prefixed. reflexivity.
Qed.

End Reading64.

(** X10.  With a code of the catalog and three lines that are numbers, the
    report at the terminal reads exactly these four lines.  When the
    calculations return, it prints the summary of what they computed and
    returns; when they raise, the exception ends the report after the line
    that names the aircraft. *)
Theorem flight_plan_at_terminal (float_repr : float -> string)
    (parse_float : string -> option float) (str_upper : string -> string)
    (choice l1 l2 l3 : string)
    (a : aircraft) (distance headwind fuel_price : float)
    (stdin : list string) :
  lookup (str_upper choice) aircraft_db = Some a ->
  parse_float l1 = Some distance ->
  parse_float l2 = Some headwind ->
  parse_float l3 = Some fuel_price ->
  let shown :=
    [ "=== Flight Plan Assistant ===" ++ nl;
      "Available Aircraft:";
      "  C172: Cessna 172";
      "  PA28: Piper Cherokee";
      "  SR22: Cirrus SR22";
      nl ++ "Selected: " ++ name a ] in
  display_flight_plan float_repr parse_float str_upper
    (choice :: l1 :: l2 :: l3 :: stdin)
  = match plan_calculations a distance headwind fuel_price with
    | Some p =>
        Reply (Some tt) stdin
          (shown ++ plan_summary float_repr a distance headwind p)%list
    | None => Reply None stdin shown
    end.
Proof.
  intros Ha H1 H2 H3 shown.
  rewrite (display_flight_plan64_found _ _ _ _ _ _ Ha).
  pose proof (read_flight_details64_three parse_float l1 l2 l3 _ _ _ stdin
                H1 H2 H3) as R.
  rewrite (bind_some _ _ _ (Some (distance, headwind, fuel_price)))
    by now rewrite R.
  rewrite R. cbn [rest printed].
  destruct (plan_calculations a distance headwind fuel_price) as [p|].
  - rewrite bind_lift_some, print_all_run. reflexivity.
  - reflexivity.
Qed.

Lemma flight_plan_at_terminal_witness :
  display_flight_plan (format_float 1) float_of_str upper
    ["c172"; "300"; "0"; "6"; "4"]
  = match plan_calculations C172 300 0 6 with
    | Some p =>
        Reply (Some tt) ["4"]
          ([ ("=== Flight Plan Assistant ===" ++ nl)%string;
             "Available Aircraft:";
             "  C172: Cessna 172";
             "  PA28: Piper Cherokee";
             "  SR22: Cirrus SR22";
             (nl ++ "Selected: " ++ name C172)%string ]
           ++ plan_summary (format_float 1) C172 300 0 p)%list
    | None =>
        Reply None ["4"]
          [ "=== Flight Plan Assistant ===" ++ nl;
            "Available Aircraft:";
            "  C172: Cessna 172";
            "  PA28: Piper Cherokee";
            "  SR22: Cirrus SR22";
            nl ++ "Selected: " ++ name C172 ]
    end.
Proof.
  apply (flight_plan_at_terminal (format_float 1) float_of_str upper
           "c172" "300" "0" "6" C172 300 0 6 ["4"]); reflexivity.
Defined.

(** X12.  The flight plan report raises in two cases only: when the input
    has ended before the aircraft code, where [input] raises; and when the
    aircraft is found, three numbers are read, and the calculations raise,
    which they do exactly when the effective speed is not [<= 0] and the
    time of line 37 is an infinity or NaN. *)
Theorem flight_plan_raises_iff (float_repr : float -> string)
    (parse_float : string -> option float) (str_upper : string -> string)
    (stdin : list string) :
  (value (display_flight_plan float_repr parse_float str_upper stdin) = None
   <->
   stdin = [] \/
   exists (choice l1 l2 l3 : string) (rest' : list string) (a : aircraft)
          (distance headwind fuel_price : float),
     stdin = choice :: l1 :: l2 :: l3 :: rest' /\
     lookup (str_upper choice) aircraft_db = Some a /\
     parse_float l1 = Some distance /\
     parse_float l2 = Some headwind /\
     parse_float l3 = Some fuel_price /\
     plan_calculations a distance headwind fuel_price = None) /\
  (forall (code : string) (a : aircraft)
          (distance headwind fuel_price : float),
      lookup code aircraft_db = Some a ->
      exists speed : float,
        float_of_int (cruise_speed a) = Some speed /\
        (plan_calculations a distance headwind fuel_price = None <->
         (speed - headwind <=? 0)%float = false /\
         isfinite (distance / (speed - headwind)) = false)).
Proof.
  split.
  - split.
    + intros V. destruct stdin as [|choice stdin]; [now left|]. right.
      destruct (lookup (str_upper choice) aircraft_db) as [a|] eqn:Ha.
      * rewrite (display_flight_plan64_found _ _ _ _ _ _ Ha) in V.
        cbn [prefixed value] in V.
        destruct (read_flight_details64_cases parse_float stdin)
          as [(l1 & l2 & l3 & rest' & d & h & p & -> & H1 & H2 & H3 & R)
             |(rest' & R)].
        -- exists choice, l1, l2, l3, rest', a, d, h, p.
           repeat split; try assumption.
           rewrite (bind_some _ _ _ (Some (d, h, p))) in V by now rewrite R.
           rewrite R in V. cbn [prefixed value rest printed] in V.
           destruct (plan_calculations a d h p) as [pl|]; [|reflexivity].
           rewrite bind_lift_some, print_all_run in V. discriminate V.
        -- rewrite (bind_some _ _ _ None) in V by now rewrite R.
           rewrite R in V. discriminate V.
      * unfold display_flight_plan in V.
        rewrite !bind_print, bind_print_all, bind_input_cons in V.
        cbv zeta in V. rewrite Ha in V. discriminate V.
    + intros [->|(choice & l1 & l2 & l3 & rest' & a & d & h & p
                  & -> & Ha & H1 & H2 & H3 & Hp)].
      * reflexivity.
      * rewrite (display_flight_plan64_found _ _ _ _ _ _ Ha).
        rewrite (bind_some _ _ _ (Some (d, h, p)))
          by now rewrite (read_flight_details64_three parse_float l1 l2 l3
                            d h p rest' H1 H2 H3).
        rewrite (read_flight_details64_three parse_float l1 l2 l3
                   d h p rest' H1 H2 H3).
        cbn [rest printed].
        now rewrite Hp.
  - intros code a distance headwind fuel_price Ha.
    assert (S : exists speed, float_of_int (cruise_speed a) = Some speed).
    { unfold aircraft_db in Ha. cbn [lookup] in Ha.
      repeat (destruct (String.eqb code _);
              [injection Ha as <-; eexists; reflexivity|]).
      discriminate Ha. }
    destruct S as [speed Es]. exists speed. split; [exact Es|].
    split.
    + intros Hp.
      apply (plan_raises_iff _ _ _ _ _ Es) in Hp. rename Hp into Et.
      unfold calculate_flight_time in Et.
      destruct (speed - headwind <=? 0)%float eqn:L; [discriminate Et|].
      split; [reflexivity|].
      destruct (isfinite (distance / (speed - headwind))) eqn:F;
        [|reflexivity].
      destruct (flight_duration_finite distance (speed - headwind)
                  (leb_false_eqb _ _ L) F) as (hh & mm & X & _).
      congruence.
    + intros [L F].
      apply (plan_raises_iff _ _ _ _ _ Es).
      now apply flight_time_not_finite.
Qed.

Lemma flight_plan_raises_iff_witness :
  value (display_flight_plan (format_float 1) typed_float upper
           ["sr22"; "inf"; "0"; "6"; "4"]) = None.
Proof.
  apply (proj1 (flight_plan_raises_iff (format_float 1) typed_float upper
                  ["sr22"; "inf"; "0"; "6"; "4"])).
  right. exists "sr22", "inf", "0", "6", ["4"], SR22, infinity, 0%float, 6%float.
  repeat split; reflexivity.
Defined.

(** X13.  The comparison report reads at most one line.  When the line is
    missing or not a number it prints its message and returns.  When the
    line is a finite number it prints the table with the three rows of the
    catalog and returns.  When the line is an infinity or NaN it raises
    after the head of the table, with no row printed. *)
Theorem comparison_at_terminal (float_repr : float -> string)
    (parse_float : string -> option float) (stdin : list string) :
  let title := nl ++ "=== Aircraft Comparison ===" in
  let head distance :=
    [ title;
      nl ++ "Comparing aircraft for " ++ float_repr distance
      ++ " NM trip:" ++ nl;
      "Aircraft        | Time  | Fuel  | Cost  ";
      "----------------------------------------" ] in
  match stdin with
  | [] =>
      aircraft_comparison float_repr parse_float stdin
      = Reply (Some tt) [] [title; "Please enter a valid number!"]
  | line :: stdin' =>
      match parse_float line with
      | None =>
          aircraft_comparison float_repr parse_float stdin
          = Reply (Some tt) stdin' [title; "Please enter a valid number!"]
      | Some distance =>
          if isfinite distance then
            exists h1 h2 h3 : Z,
              int_of_float (distance / 120) = Some h1 /\
              int_of_float (distance / 130) = Some h2 /\
              int_of_float (distance / 185) = Some h3 /\
              aircraft_comparison float_repr parse_float stdin
              = Reply (Some tt) stdin'
                  (head distance
                   ++ [table_line C172 h1; table_line PA28 h2;
                       table_line SR22 h3])%list
          else
            aircraft_comparison float_repr parse_float stdin
            = Reply None stdin' (head distance)
      end
  end.
Proof.
  intros title head. unfold aircraft_comparison.
  pose proof (read_trip_distance64_cases parse_float stdin) as R.
  destruct stdin as [|line stdin].
  - rewrite bind_print, (bind_some _ _ _ None) by now rewrite R.
    rewrite R. reflexivity.
  - destruct (parse_float line) as [distance|].
    + destruct (catalog_rows distance) as [Fin Inf].
      rewrite bind_print, (bind_some _ _ _ (Some distance)) by now rewrite R.
      rewrite R. cbn [rest printed]. rewrite !bind_print.
      destruct (isfinite distance).
      * destruct (Fin eq_refl) as (h1 & h2 & h3 & E1 & E2 & E3 & Er).
        exists h1, h2, h3. repeat split; try assumption.
        rewrite (comparison_loop_rows _ _ _ _ Er). reflexivity.
      * unfold aircraft_db. cbn [comparison_loop].
        rewrite (proj1 (Inf eq_refl)). reflexivity.
    + rewrite bind_print, (bind_some _ _ _ None) by now rewrite R.
      rewrite R. reflexivity.
Qed.

Lemma comparison_at_terminal_witness :
  aircraft_comparison (format_float 1) typed_float ["inf"; "4"]
  = Reply None ["4"]
      [ nl ++ "=== Aircraft Comparison ===";
        nl ++ "Comparing aircraft for inf NM trip:" ++ nl;
        "Aircraft        | Time  | Fuel  | Cost  ";
        "----------------------------------------" ].
Proof.
  exact (comparison_at_terminal (format_float 1) typed_float ["inf"; "4"]).
Defined.

(** X21.  The wind remark on binary64 numbers.  It is the last line of
    the summary.  For a finite headwind it is the caution above 20, the
    favorable note below -10, and the neutral note from -10 to 20, both
    included, in exact values.  An infinite headwind gets the caution, an
    infinite tailwind the favorable note, and NaN, on which both tests are
    false, the neutral note. *)
Theorem wind_remark_binary64 (float_repr : float -> string) (a : aircraft)
    (distance headwind : float) (p : plan) :
  List.last (plan_summary float_repr a distance headwind p) ""
  = wind_remark headwind /\
  (isfinite headwind = true ->
   (wind_remark headwind
    = nl ++ "Strong headwind - consider delaying if possible"
    <-> (20 < to_Q headwind)%Q) /\
   (wind_remark headwind
    = nl ++ "Favorable tailwind - good flying conditions!"
    <-> (to_Q headwind < -10)%Q) /\
   (wind_remark headwind = nl ++ "Normal wind conditions"
    <-> (-10 <= to_Q headwind <= 20)%Q)) /\
  wind_remark infinity
  = nl ++ "Strong headwind - consider delaying if possible" /\
  wind_remark neg_infinity
  = nl ++ "Favorable tailwind - good flying conditions!" /\
  wind_remark nan = nl ++ "Normal wind conditions".
Proof.
  split; [reflexivity|].
  split; [|repeat split; reflexivity].
  intros F.
  assert (E20 : (to_Q 20 == 20)%Q) by (vm_compute; reflexivity).
  assert (E10 : (to_Q (-10) == -10)%Q) by (vm_compute; reflexivity).
  pose proof (ltb_to_Q 20 headwind eq_refl F) as L20.
  pose proof (ltb_to_Q headwind (-10) F eq_refl) as L10.
  rewrite E20 in L20. rewrite E10 in L10.
  unfold wind_remark.
  destruct (20 <? headwind)%float.
  - assert (20 < to_Q headwind)%Q by now apply L20.
    repeat split; try reflexivity; try discriminate; try lra;
      intros; exfalso; lra.
  - assert (N20 : ~ (20 < to_Q headwind)%Q)
      by (intros X; apply L20 in X; discriminate X).
    destruct (headwind <? -10)%float.
    + assert (to_Q headwind < -10)%Q by now apply L10.
      repeat split; try reflexivity; try discriminate; try lra;
        intros; exfalso; lra.
    + assert (N10 : ~ (to_Q headwind < -10)%Q)
        by (intros X; apply L10 in X; discriminate X).
      repeat split; try reflexivity; try discriminate; try lra;
        intros; exfalso; lra.
Qed.

(** *** The menu *)

Section Menu64.

Variable float_repr : float -> string.
Variable parse_float : string -> option float.
Variable str_upper : string -> string.

Local Abbreviation the_plan := (display_flight_plan float_repr parse_float str_upper).
Local Abbreviation the_table := (aircraft_comparison float_repr parse_float).
Local Abbreviation choose := (menu_choice float_repr parse_float str_upper).
Local Abbreviation turn := (menu_turn float_repr parse_float str_upper).
Local Abbreviation loop := (main_menu_loop float_repr parse_float str_upper).
Local Abbreviation menu := (main_menu float_repr parse_float str_upper).

Lemma menu_turn64_cons (again : io unit) (choice : string)
    (stdin : list string) :
  turn again (choice :: stdin) = prefixed menu_lines (choose again choice stdin).
Proof.
  unfold menu_turn. now rewrite bind_print_all, bind_input_cons.
Qed.

(** A turn looks at the rest of the loop only on input it has left. *)
Lemma menu_choice64_ext (again1 again2 : io unit) (choice : string)
    (stdin : list string) :
  (forall s, (List.length s <= List.length stdin)%nat ->
             again1 s = again2 s) ->
  choose again1 choice stdin = choose again2 choice stdin.
Proof.
  intros H. unfold menu_choice.
  destruct (String.eqb choice "1").
  { apply bind_ext. intros _. apply H, reads_front_length,
      reads_front_display_flight_plan64. }
  destruct (String.eqb choice "2").
  { apply bind_ext. intros _. apply H, reads_front_length,
      reads_front_aircraft_comparison64. }
  destruct (String.eqb choice "3").
  { apply bind_ext. intros _. apply bind_ext. intros _.
    rewrite print_all_run. apply H. simpl. lia. }
  destruct (String.eqb choice "4"); [reflexivity|].
  apply bind_ext. intros _. apply H. simpl. lia.
Qed.

Lemma menu_turn64_ext (again1 again2 : io unit) (stdin : list string) :
  (forall s, (List.length s < List.length stdin)%nat ->
             again1 s = again2 s) ->
  turn again1 stdin = turn again2 stdin.
Proof.
  intros H. destruct stdin as [|choice stdin]; [reflexivity|].
  rewrite !menu_turn64_cons. f_equal. apply menu_choice64_ext.
  intros s Hs. apply H. simpl. lia.
Qed.

(** Turns beyond the number of lines are never reached. *)
Lemma main_menu_loop64_fuel (fuel1 : nat) :
  forall (fuel2 : nat) (stdin : list string),
    (List.length stdin < fuel1)%nat -> (List.length stdin < fuel2)%nat ->
    loop fuel1 stdin = loop fuel2 stdin.
Proof.
  induction fuel1 as [|fuel1 IH]; intros fuel2 stdin H1 H2; [lia|].
  destruct fuel2 as [|fuel2]; [lia|].
  cbn [main_menu_loop]. apply menu_turn64_ext.
  intros s Hs. apply IH; lia.
Qed.

(** The loop is one turn and then the loop. *)
Lemma main_menu64_unfold (stdin : list string) :
  menu stdin = turn menu stdin.
Proof.
  unfold main_menu at 1. cbn [main_menu_loop]. apply menu_turn64_ext.
  intros s Hs. unfold main_menu. apply main_menu_loop64_fuel; lia.
Qed.

Lemma exits_menu_choice64 (again : io unit) (choice : string)
    (stdin : list string) :
  (forall s, (List.length s <= List.length stdin)%nat -> exits again s) ->
  value (choose again choice stdin) = Some tt ->
  (choice = "4" \/ In "4" stdin) /\
  List.last (printed (choose again choice stdin)) "" = farewell.
Proof.
  intros IH. unfold menu_choice.
  destruct (String.eqb choice "1").
  { intros V. split; [right|];
      now apply (exits_bind _ again stdin
                   (reads_front_display_flight_plan64 float_repr parse_float
                      str_upper)
                   IH). }
  destruct (String.eqb choice "2").
  { intros V. split; [right|];
      now apply (exits_bind _ again stdin
                   (reads_front_aircraft_comparison64 float_repr parse_float)
                   IH). }
  destruct (String.eqb choice "3").
  { assert (X : exits
                  (bind (print (nl ++ "Aircraft Information:"))
                     (fun _ =>
                        bind (print_all
                                (flat_map
                                   (fun e => aircraft_info float_repr (snd e))
                                   aircraft_db))
                          (fun _ => again))) stdin).
    { apply exits_bind; [apply reads_front_print|].
      intros s Hs. apply exits_bind; [apply reads_front_print_all|].
      intros s' Hs'. apply IH. lia. }
    intros V. split; [right|]; now apply X. }
  destruct (String.eqb_spec choice "4") as [->|N].
  { intros _. split; [now left | reflexivity]. }
  intros V. split; [right|];
    now apply (exits_bind (print "Please choose 1-4") again stdin
                 (reads_front_print _) IH).
Qed.

Lemma exits_main_menu64 (n : nat) :
  forall stdin, (List.length stdin <= n)%nat -> exits menu stdin.
Proof.
  induction n as [|n IH]; intros [|choice stdin] L; unfold exits;
    rewrite main_menu64_unfold; try discriminate; try (simpl in L; lia).
  - rewrite menu_turn64_cons. cbn [value printed prefixed]. intros V.
    simpl in L.
    destruct (exits_menu_choice64 menu choice stdin) as [[C|I] F];
      [intros s Hs; apply IH; lia | exact V | | ].
    + split; [left; now symmetry|].
      apply last_app_end; [exact F | apply farewell_nonempty].
    + split; [now right|].
      apply last_app_end; [exact F | apply farewell_nonempty].
Qed.

End Menu64.

(** X17.  The menu returns through the choice 4 only.  On 4 it prints the
    farewell and returns, leaving the lines that follow unread.  Whenever
    it returns, a line "4" was in the input and the farewell is the last
    line printed; on an input without such a line it never returns: it
    ends in an exception, that of [input] at the end of the input or that
    of a report. *)
Theorem menu_exit (float_repr : float -> string)
    (parse_float : string -> option float) (str_upper : string -> string)
    (stdin : list string) :
  main_menu float_repr parse_float str_upper ("4" :: stdin)
  = Reply (Some tt) stdin (menu_lines ++ [farewell])%list /\
  (value (main_menu float_repr parse_float str_upper stdin) = Some tt ->
   In "4" stdin /\
   List.last (printed (main_menu float_repr parse_float str_upper stdin)) ""
   = farewell) /\
  (~ In "4" stdin ->
   value (main_menu float_repr parse_float str_upper stdin) = None).
Proof.
  pose proof (exits_main_menu64 float_repr parse_float str_upper
                (List.length stdin) stdin (le_n _)) as X.
  split; [|split].
  - rewrite main_menu64_unfold, menu_turn64_cons. reflexivity.
  - exact X.
  - intros N.
    destruct (value (main_menu float_repr parse_float str_upper stdin))
      as [[]|] eqn:V;
      [|reflexivity].
    destruct (X V) as [I _]. contradiction.
Qed.

(** A typed [inf] ends the menu in the exception of [int()], with the
    line "4" still unread. *)
Example menu_ends_on_inf :
  main_menu (format_float 1) typed_float upper ["2"; "inf"; "4"]
  = Reply None ["4"]
      (menu_lines
       ++ [ (nl ++ "=== Aircraft Comparison ===")%string;
            (nl ++ "Comparing aircraft for inf NM trip:" ++ nl)%string;
            "Aircraft        | Time  | Fuel  | Cost  ";
            "----------------------------------------" ])%list.
Proof. vm_compute. reflexivity. Qed.

Lemma menu_exit_witness :
  value (main_menu (format_float 1) float_of_str upper
           ["2"; "300"; "1"; "xyz"])
  = None.
Proof.
  apply (proj2 (proj2 (menu_exit (format_float 1) float_of_str upper
                         ["2"; "300"; "1"; "xyz"]))).
  simpl. intuition discriminate.
Defined.

End Console64Facts.
